(** * nexen-metrics: registry facade and HTTP instrumentation middleware

    A shallow embedding of the Go package [metrics] (Metrics, New, Instrument,
    RecordEvent, the gauge helpers, RegisterCounter / RegisterHistogram /
    RegisterGauge, responseWriter) and of its helper package [internal]
    (the bucket profiles), followed by the properties proved about them.

    Go values are represented as follows.
    - [float64] is Rocq's primitive binary64 [float]; [int] status codes are [Z].
    - A slice that the code compares with [nil] is an [option (list _)]:
      [None] is the nil slice, [Some []] an empty non-nil slice.
    - Pointers to metric vectors are the fully-qualified names under which the
      registry holds them: the registry is the store.
    - A function that may panic returns a [result]. *)

From Stdlib Require Import ZArith NArith Floats Uint63 Ascii String List Lia.
From Stdlib.Strings Require Import Byte.
From stdpp Require Import gmap strings list fin_maps.

Set Warnings "-inexact-float".

(** ** Package internal: bucket profiles (buckets.go) *)

Module internal.

Definition DefaultHTTPBuckets : list float :=
  [0.005; 0.01; 0.025; 0.05; 0.1; 0.25; 0.5; 1; 2.5; 5; 10]%float.

Definition DefaultLLMLatencyBuckets : list float :=
  [0.1; 0.25; 0.5; 1; 2; 5; 10; 20; 30; 60; 120]%float.

Definition DefaultMemoryBuckets : list float :=
  [50; 100; 250; 500; 1000; 2000; 5000; 10000]%float.

End internal.

(** ** Outcomes of possibly panicking calls *)

Inductive result (A : Type) : Type :=
| Ok (a : A)
| Panic (reason : string).
Arguments Ok {A} a.
Arguments Panic {A} reason.

#[global] Instance result_ret : MRet result := @Ok.
#[global] Instance result_bind : MBind result := fun A B f r =>
  match r with
  | Ok a => f a
  | Panic s => Panic s
  end.

(** ** Package unicode/utf8 as far as label values need it

    [utf8.ValidString] of the Go standard library: whether a string, which
    in Go as here is a sequence of bytes, consists of well-formed UTF-8
    encodings only.  A code point takes one to four bytes.  The first byte
    fixes how many, and for three and four bytes narrows the range of the
    second, which leaves out the encodings that are longer than needed, the
    surrogates and the code points past U+10FFFF. *)

Module utf8.

Definition between (lo hi : N) (c : ascii) : bool :=
  let n := N_of_ascii c in ((lo <=? n) && (n <=? hi))%N.

(** A continuation byte, 0x80 to 0xBF. *)
Definition continuation (c : ascii) : bool := between 128 191 c.

(** The second byte [c1] of a sequence of three or four bytes that begins
    with [c0]: narrowed after 0xE0, 0xED, 0xF0 and 0xF4, a continuation byte
    after the others. *)
Definition second (c0 c1 : ascii) : bool :=
  match N_of_ascii c0 with
  | 224 => between 160 191 c1
  | 237 => between 128 159 c1
  | 240 => between 144 191 c1
  | 244 => between 128 143 c1
  | _ => continuation c1
  end%N.

Fixpoint ValidString (s : string) : bool :=
  match s with
  | EmptyString => true
  | String c0 s1 =>
      if between 0 127 c0 then ValidString s1
      else if between 194 223 c0 then
        match s1 with
        | String c1 s2 => continuation c1 && ValidString s2
        | _ => false
        end
      else if between 224 239 c0 then
        match s1 with
        | String c1 (String c2 s3) =>
            second c0 c1 && continuation c2 && ValidString s3
        | _ => false
        end
      else if between 240 244 c0 then
        match s1 with
        | String c1 (String c2 (String c3 s4)) =>
            second c0 c1 && continuation c2 && continuation c3 && ValidString s4
        | _ => false
        end
      else false
  end.

End utf8.

(** ** The metrics collaborator

    Modelled from the spec: the Prometheus client library that the package
    imports (registry, descriptors, counter, histogram and gauge vectors),
    whose source is not part of the repository.  Sections 3, 6 and 7 of the
    spec give the contract the package relies on: names of the form
    <namespace>_<subsystem>_<name>; [register(instrument)] answering success
    or a duplicate-name error, whatever the kind of the instruments; and
    observations that always succeed on a valid label combination and panic
    on a wrong number of label values.  The validity rules for names and
    labels and the default bucket boundaries follow the library's
    documentation.

    Scope of the model.  An observation checks the number of its label
    values, which is the check the spec names; the library also refuses a
    label value that is not valid UTF-8 ([validateLabelValues] below), and a
    property that needs an observation to go through is faithful to the
    library for label values that pass that check.  A counter child is the
    number of [Inc] calls it received and a histogram child is the sequence of
    observed values (its sample count is the length); the library's
    fixed-width accumulators are not represented.  A histogram vector keeps
    the boundaries it was created with as they were given: the library looks
    at them when a child is first created, panics there unless each boundary
    is below the next, and drops a last boundary of +Inf, so that the
    boundaries of the model are those of the library for a list that is
    strictly increasing and ends below +Inf ([usable_boundaries] below). *)

Module prometheus.

Record Desc := mkDesc {
  fqName : string;
  help : string;
  variableLabels : list string
}.

Record CounterVec := mkCounterVec {
  c_desc : Desc;
  c_children : gmap (list string) N
}.

Record HistogramVec := mkHistogramVec {
  h_desc : Desc;
  h_upperBounds : list float;
  h_children : gmap (list string) (list float)
}.

Record GaugeVec := mkGaugeVec {
  g_desc : Desc;
  g_children : gmap (list string) float
}.

(** What a registry can hold: the three vector kinds, and the descriptors
    contributed by the runtime collectors. *)
Inductive Collector :=
| CCounter (v : CounterVec)
| CHistogram (v : HistogramVec)
| CGauge (v : GaugeVec)
| CRuntime (d : Desc).

Definition descOf (c : Collector) : Desc :=
  match c with
  | CCounter v => c_desc v
  | CHistogram v => h_desc v
  | CGauge v => g_desc v
  | CRuntime d => d
  end.

Abbreviation Registry := (gmap string Collector).

Inductive error :=
| ErrInvalidDesc (fq : string)
| ErrDuplicateName (fq : string)
| ErrWrap (msg : string) (e : error).

(** Modelled from the spec: [prometheus.BuildFQName], the prefixing of
    section 6.  It joins the non-empty components with underscores; an empty
    name yields the empty string whatever the other components are. *)
Definition BuildFQName (namespace subsystem name : string) : string :=
  if bool_decide (name = "") then ""
  else if bool_decide (namespace <> "") && bool_decide (subsystem <> "")
       then namespace +:+ "_" +:+ subsystem +:+ "_" +:+ name
  else if bool_decide (namespace <> "") then namespace +:+ "_" +:+ name
  else if bool_decide (subsystem <> "") then subsystem +:+ "_" +:+ name
  else name.

Definition in_range (lo hi : N) (c : ascii) : bool :=
  let n := N_of_ascii c in ((lo <=? n) && (n <=? hi))%N.

Definition is_letter (c : ascii) : bool :=
  in_range 65 90 c || in_range 97 122 c.

Definition is_digit (c : ascii) : bool := in_range 48 57 c.

Definition name_start (colon : bool) (c : ascii) : bool :=
  is_letter c || bool_decide (c = "_"%char) || (colon && bool_decide (c = ":"%char)).

Definition name_char (colon : bool) (c : ascii) : bool :=
  name_start colon c || is_digit c.

Fixpoint all_chars (p : ascii -> bool) (s : string) : bool :=
  match s with
  | EmptyString => true
  | String c s' => p c && all_chars p s'
  end.

(** Modelled from the spec: the collaborator's notion of a valid name.
    Metric names match [[a-zA-Z_:][a-zA-Z0-9_:]*].  These are the names that
    every version of the library accepts; later versions can be set to
    accept any non-empty name that is valid UTF-8. *)
Definition IsValidMetricName (s : string) : bool :=
  match s with
  | EmptyString => false
  | String c s' => name_start true c && all_chars (name_char true) s'
  end.

(** Modelled from the spec: the collaborator's notion of a valid label.
    Label names match [[a-zA-Z_][a-zA-Z0-9_]*] and must not begin with the
    reserved prefix of two underscores. *)
Definition checkLabelName (s : string) : bool :=
  match s with
  | EmptyString => false
  | String c s' => name_start false c && all_chars (name_char false) s'
  end && negb (String.prefix "__" s).

(** Modelled from the spec: what the collaborator accepts as a descriptor.
    Its name and label names are well formed and no label name occurs
    twice. *)
Definition validDesc (d : Desc) : bool :=
  IsValidMetricName (fqName d)
  && forallb checkLabelName (variableLabels d)
  && bool_decide (NoDup (variableLabels d)).

Definition NewRegistry : Registry := ∅.

(** Modelled from the spec: [Registry.Register], the
    [register(instrument) -> success | duplicate-name-error] of section 6.
    An invalid descriptor is refused; so is a descriptor whose
    fully-qualified name the registry already holds, whatever the kind of
    either collector.  A refused registration leaves the registry as it was. *)
Definition Register (reg : Registry) (c : Collector) : Registry * option error :=
  let fq := fqName (descOf c) in
  if negb (validDesc (descOf c)) then (reg, Some (ErrInvalidDesc fq))
  else match reg !! fq with
       | Some _ => (reg, Some (ErrDuplicateName fq))
       | None => (<[fq := c]> reg, None)
       end.

(** Modelled from the spec: [Registry.MustRegister], which registers the
    collectors in order and panics on the first refusal (the unrecoverable
    startup fault of section 7). *)
Fixpoint MustRegister (reg : Registry) (cs : list Collector) : result Registry :=
  match cs with
  | [] => Ok reg
  | c :: cs' =>
      match Register reg c with
      | (reg', None) => MustRegister reg' cs'
      | (_, Some _) => Panic "MustRegister"
      end
  end.

Record CounterOpts := mkCounterOpts {
  co_Namespace : string; co_Subsystem : string; co_Name : string; co_Help : string
}.

Record HistogramOpts := mkHistogramOpts {
  ho_Namespace : string; ho_Subsystem : string; ho_Name : string; ho_Help : string;
  ho_Buckets : option (list float)
}.

Record GaugeOpts := mkGaugeOpts {
  go_Namespace : string; go_Subsystem : string; go_Name : string; go_Help : string
}.

Definition NewCounterVec (o : CounterOpts) (labelNames : list string) : CounterVec :=
  mkCounterVec
    (mkDesc (BuildFQName (co_Namespace o) (co_Subsystem o) (co_Name o)) (co_Help o) labelNames)
    ∅.

(** Modelled from the spec: [prometheus.DefBuckets], the library's default
    boundaries, used when the options carry none. *)
Definition DefBuckets : list float :=
  [0.005; 0.01; 0.025; 0.05; 0.1; 0.25; 0.5; 1; 2.5; 5; 10]%float.

(** Modelled from the spec: the collaborator's treatment of the [Buckets]
    option.  A nil or empty list is replaced by [DefBuckets]. *)
Definition bucketsOrDefault (b : option (list float)) : list float :=
  match b with
  | None | Some [] => DefBuckets
  | Some bs => bs
  end.

Definition NewHistogramVec (o : HistogramOpts) (labelNames : list string) : HistogramVec :=
  mkHistogramVec
    (mkDesc (BuildFQName (ho_Namespace o) (ho_Subsystem o) (ho_Name o)) (ho_Help o) labelNames)
    (bucketsOrDefault (ho_Buckets o))
    ∅.

Definition NewGaugeVec (o : GaugeOpts) (labelNames : list string) : GaugeVec :=
  mkGaugeVec
    (mkDesc (BuildFQName (go_Namespace o) (go_Subsystem o) (go_Name o)) (go_Help o) labelNames)
    ∅.

(** Modelled from the spec: [WithLabelValues], which panics unless it
    receives exactly one value per label name of the descriptor (section 7). *)
Definition cardinalityOk (d : Desc) (lvs : list string) : bool :=
  bool_decide (length lvs = length (variableLabels d)).

(** The library's [validateLabelValues], the whole of what [WithLabelValues]
    asks of its arguments: one value per label name, and every value valid
    UTF-8.  The observations below make the first check only; on label
    values that pass this one, they and the library agree. *)
Definition validateLabelValues (d : Desc) (lvs : list string) : bool :=
  cardinalityOk d lvs && forallb utf8.ValidString lvs.

(** Boundaries that the library uses as they are given: each one below the
    next, and the last one below +Inf. *)
Fixpoint usable_boundaries (bs : list float) : bool :=
  match bs with
  | [] => true
  | x :: bs' =>
      PrimFloat.ltb x (match bs' with y :: _ => y | [] => PrimFloat.infinity end)
      && usable_boundaries bs'
  end.

(** Modelled from the spec: [v.WithLabelValues(lvs...).Inc()], one more on
    the counter of the label combination. *)
Definition CounterVec_Inc (v : CounterVec) (lvs : list string) : result CounterVec :=
  if cardinalityOk (c_desc v) lvs
  then Ok (mkCounterVec (c_desc v)
             (<[lvs := N.succ (default 0%N (c_children v !! lvs))]> (c_children v)))
  else Panic "inconsistent label cardinality".

(** Modelled from the spec: [v.WithLabelValues(lvs...).Observe(x)], one
    more sample in the histogram of the label combination. *)
Definition HistogramVec_Observe (v : HistogramVec) (lvs : list string) (x : float)
  : result HistogramVec :=
  if cardinalityOk (h_desc v) lvs
  then Ok (mkHistogramVec (h_desc v) (h_upperBounds v)
             (<[lvs := default [] (h_children v !! lvs) ++ [x]]> (h_children v)))
  else Panic "inconsistent label cardinality".

(** Modelled from the spec: [v.WithLabelValues(lvs...).Set(x)]. *)
Definition GaugeVec_Set (v : GaugeVec) (lvs : list string) (x : float) : result GaugeVec :=
  if cardinalityOk (g_desc v) lvs
  then Ok (mkGaugeVec (g_desc v) (<[lvs := x]> (g_children v)))
  else Panic "inconsistent label cardinality".

(** Modelled from the spec: [v.WithLabelValues(lvs...).Add(x)], a [float64]
    addition on the gauge of the label combination; a child that does not
    exist yet is created at zero first. *)
Definition GaugeVec_Add (v : GaugeVec) (lvs : list string) (x : float) : result GaugeVec :=
  if cardinalityOk (g_desc v) lvs
  then Ok (mkGaugeVec (g_desc v)
             (<[lvs := (default 0%float (g_children v !! lvs) + x)%float]> (g_children v)))
  else Panic "inconsistent label cardinality".

(** Modelled from the spec: the gauge's [Inc] is [Add(1)] and its [Dec] is
    [Add(-1)]. *)
Definition GaugeVec_Inc (v : GaugeVec) (lvs : list string) : result GaugeVec :=
  GaugeVec_Add v lvs 1%float.

Definition GaugeVec_Dec (v : GaugeVec) (lvs : list string) : result GaugeVec :=
  GaugeVec_Add v lvs (-1)%float.

(** Modelled from the spec: the process collector and the Go runtime
    collector that [New] registers first, as the descriptors they contribute.
    Which descriptors exactly these collectors export depends on the library
    version and the platform, and the lists below are a sample of them; all
    their names begin with process_ or go_, outside the [nexen_service] name
    space. *)
Definition runtimeDesc (name : string) : Collector := CRuntime (mkDesc name "" []).

Definition NewProcessCollector : list Collector :=
  map runtimeDesc
    ["process_cpu_seconds_total"; "process_open_fds"; "process_max_fds";
     "process_virtual_memory_bytes"; "process_resident_memory_bytes";
     "process_start_time_seconds"].

Definition NewGoCollector : list Collector :=
  map runtimeDesc
    ["go_goroutines"; "go_threads"; "go_gc_duration_seconds"; "go_info";
     "go_memstats_alloc_bytes"; "go_memstats_heap_alloc_bytes";
     "go_memstats_sys_bytes"].

End prometheus.

(** ** Package net/http as far as the middleware uses it

    Modelled from the spec: the handler, the response sink and the status
    texts belong to the Go standard library, not to the repository.  A
    handler is given a request and a response writer; the writer offers
    [Header], [Write] and [WriteHeader], and its dynamic type may offer
    more. *)

Module http.
Import prometheus.

Definition StatusOK : Z := 200.

(** Modelled from the spec: [http.StatusText], the status text of step 5 of
    section 4.2.  It is the reason phrase of a registered status code, and
    the empty string for any other code. *)
Definition StatusText (code : Z) : string :=
  match code with
  | 100 => "Continue"
  | 101 => "Switching Protocols"
  | 102 => "Processing"
  | 103 => "Early Hints"
  | 200 => "OK"
  | 201 => "Created"
  | 202 => "Accepted"
  | 203 => "Non-Authoritative Information"
  | 204 => "No Content"
  | 205 => "Reset Content"
  | 206 => "Partial Content"
  | 207 => "Multi-Status"
  | 208 => "Already Reported"
  | 226 => "IM Used"
  | 300 => "Multiple Choices"
  | 301 => "Moved Permanently"
  | 302 => "Found"
  | 303 => "See Other"
  | 304 => "Not Modified"
  | 305 => "Use Proxy"
  | 307 => "Temporary Redirect"
  | 308 => "Permanent Redirect"
  | 400 => "Bad Request"
  | 401 => "Unauthorized"
  | 402 => "Payment Required"
  | 403 => "Forbidden"
  | 404 => "Not Found"
  | 405 => "Method Not Allowed"
  | 406 => "Not Acceptable"
  | 407 => "Proxy Authentication Required"
  | 408 => "Request Timeout"
  | 409 => "Conflict"
  | 410 => "Gone"
  | 411 => "Length Required"
  | 412 => "Precondition Failed"
  | 413 => "Request Entity Too Large"
  | 414 => "Request URI Too Long"
  | 415 => "Unsupported Media Type"
  | 416 => "Requested Range Not Satisfiable"
  | 417 => "Expectation Failed"
  | 418 => "I'm a teapot"
  | 421 => "Misdirected Request"
  | 422 => "Unprocessable Entity"
  | 423 => "Locked"
  | 424 => "Failed Dependency"
  | 425 => "Too Early"
  | 426 => "Upgrade Required"
  | 428 => "Precondition Required"
  | 429 => "Too Many Requests"
  | 431 => "Request Header Fields Too Large"
  | 451 => "Unavailable For Legal Reasons"
  | 500 => "Internal Server Error"
  | 501 => "Not Implemented"
  | 502 => "Bad Gateway"
  | 503 => "Service Unavailable"
  | 504 => "Gateway Timeout"
  | 505 => "HTTP Version Not Supported"
  | 506 => "Variant Also Negotiates"
  | 507 => "Insufficient Storage"
  | 508 => "Loop Detected"
  | 510 => "Not Extended"
  | 511 => "Network Authentication Required"
  | _ => ""
  end%Z.

(** The part of [*http.Request] the middleware reads: [r.Method] and
    [r.URL.Path]. *)
Record Request := mkRequest { Method : string; URL_Path : string }.

Abbreviation Header := (gmap string (list string)).

(** The interface [http.ResponseWriter], implemented by a type [W] of writer
    states.  [rw_Write] returns the pair [(n, err)] of the Go method, the
    error being [None] for nil.  [rw_Flusher] tells whether the dynamic type
    also implements [http.Flusher], and how. *)
Class ResponseWriter (W : Type) := {
  rw_Header : W -> Header;
  rw_SetHeader : Header -> W -> W;
  rw_Write : list byte -> W -> W * (Z * option string);
  rw_WriteHeader : Z -> W -> W;
  rw_Flusher : option (W -> W)
}.

Inductive outcome := Returned | Panicked.

(** What a handler does with one request, as a tree of the calls it makes:
    on the response writer it was given, on the world around it (its own
    side effects, recorded in order), and on the scrape view of the
    registry.  Continuations receive what the call returns. *)
Inductive behaviour : Type :=
| Return
| PanicNow
| CallWriteHeader (code : Z) (k : behaviour)
| CallWrite (b : list byte) (k : Z -> option string -> behaviour)
| CallHeaderSet (key value : string) (k : behaviour)
| CallHeaderGet (key : string) (k : list string -> behaviour)
| TryFlush (k : bool -> behaviour)
| Effect (e : string) (k : behaviour)
| Scrape (k : Registry -> behaviour).

(** [http.Handler]: [ServeHTTP(w, r)].  What a handler does is a function of
    the request: a handler here keeps no state of its own from one request
    to the next, and what it can see of earlier requests is what a scrape of
    the registry shows. *)
Definition Handler := Request -> behaviour.

(** [TryFlush k] stands for
    [f, ok := w.(http.Flusher); if ok { f.Flush() }; k ok]. *)
Fixpoint run {W : Type} `{ResponseWriter W} (reg : Registry) (h : behaviour)
    (w : W) (fx : list string) : W * list string * outcome :=
  match h with
  | Return => (w, fx, Returned)
  | PanicNow => (w, fx, Panicked)
  | CallWriteHeader code k => run reg k (rw_WriteHeader code w) fx
  | CallWrite b k =>
      let '(w', (n, err)) := rw_Write b w in run reg (k n err) w' fx
  | CallHeaderSet key value k =>
      run reg k (rw_SetHeader (<[key := [value]]> (rw_Header w)) w) fx
  | CallHeaderGet key k =>
      run reg (k (default [] (rw_Header w !! key))) w fx
  | TryFlush k =>
      match rw_Flusher with
      | Some flush => run reg (k true) (flush w) fx
      | None => run reg (k false) w fx
      end
  | Effect e k => run reg k w (fx ++ [e])
  | Scrape k => run reg (k reg) w fx
  end.

(** Modelled from the spec: a recording writer in the manner of
    [httptest.ResponseRecorder], the writer of the package's tests.  The
    first status written is the one the client sees, a body write before any
    status sends 200 first (the default behaviour of section 4.3), and the
    type implements [http.Flusher].  Status codes outside 100..999, on which
    the recorder panics, are not distinguished. *)
Record ResponseRecorder := mkRecorder {
  Code : Z;
  HeaderMap : Header;
  Body : list byte;
  Flushed : bool;
  wroteHeader : bool
}.

Definition NewRecorder : ResponseRecorder := mkRecorder 200 ∅ [] false false.

Definition Recorder_WriteHeader (code : Z) (rec : ResponseRecorder) : ResponseRecorder :=
  if wroteHeader rec then rec
  else mkRecorder code (HeaderMap rec) (Body rec) (Flushed rec) true.

Definition Recorder_Write (b : list byte) (rec : ResponseRecorder)
  : ResponseRecorder * (Z * option string) :=
  let rec1 := Recorder_WriteHeader 200 rec in
  (mkRecorder (Code rec1) (HeaderMap rec1) (Body rec1 ++ b) (Flushed rec1) true,
   (Z.of_nat (length b), None)).

Definition Recorder_Flush (rec : ResponseRecorder) : ResponseRecorder :=
  let rec1 := Recorder_WriteHeader 200 rec in
  mkRecorder (Code rec1) (HeaderMap rec1) (Body rec1) true true.

#[global] Instance Recorder_ResponseWriter : ResponseWriter ResponseRecorder := {
  rw_Header := HeaderMap;
  rw_SetHeader := fun h rec =>
    mkRecorder (Code rec) h (Body rec) (Flushed rec) (wroteHeader rec);
  rw_Write := Recorder_Write;
  rw_WriteHeader := Recorder_WriteHeader;
  rw_Flusher := Some Recorder_Flush
}.

End http.

(** ** Package metrics *)

Module metrics.
Import prometheus http.

Definition namespace : string := "nexen".
Definition subsystem : string := "service".

(** The [Metrics] struct.  The five vector fields are pointers: each holds the
    key of its vector in the registry, the empty key standing for nil.  The
    field [scrapeHandler], which renders the registry, is left to the
    collaborator. *)
Record Metrics := mkMetrics {
  registry : Registry;
  httpRequests : string;
  httpDuration : string;
  httpErrors : string;
  applicationEvent : string;
  serviceGauge : string;
  histogramBuckets : option (list float);
  serviceName : string
}.

Definition set_registry (reg : Registry) (m : Metrics) : Metrics :=
  mkMetrics reg (httpRequests m) (httpDuration m) (httpErrors m)
    (applicationEvent m) (serviceGauge m) (histogramBuckets m) (serviceName m).

Definition Option := Metrics -> Metrics.

Definition WithHistogramBuckets (buckets : option (list float)) : Option :=
  fun m => mkMetrics (registry m) (httpRequests m) (httpDuration m) (httpErrors m)
             (applicationEvent m) (serviceGauge m) buckets (serviceName m).

Definition WithServiceName (name : string) : Option :=
  fun m => mkMetrics (registry m) (httpRequests m) (httpDuration m) (httpErrors m)
             (applicationEvent m) (serviceGauge m) (histogramBuckets m) name.

Definition WithRegistry (reg : Registry) : Option := set_registry reg.

Definition httpRequestsVec : CounterVec :=
  NewCounterVec
    (mkCounterOpts namespace subsystem "http_requests_total"
       "Total number of HTTP requests received")
    ["method"; "path"; "service"].

Definition httpDurationVec (buckets : option (list float)) : HistogramVec :=
  NewHistogramVec
    (mkHistogramOpts namespace subsystem "http_request_duration_seconds"
       "Histogram of HTTP request durations" buckets)
    ["method"; "path"; "service"].

Definition httpErrorsVec : CounterVec :=
  NewCounterVec
    (mkCounterOpts namespace subsystem "http_errors_total"
       "Total number of HTTP responses with error status codes")
    ["method"; "path"; "code"; "service"].

Definition applicationEventVec : CounterVec :=
  NewCounterVec
    (mkCounterOpts namespace subsystem "application_events_total"
       "Count of application-specific events")
    ["event"; "service"].

Definition serviceGaugeVec : GaugeVec :=
  NewGaugeVec
    (mkGaugeOpts namespace subsystem "gauge"
       "Service-specific gauge for arbitrary values")
    ["name"; "service"].

(** [New]: defaults, then the options in order, then the runtime collectors
    and the five standard instruments, each registered with [MustRegister]. *)
Definition New (opts : list Option) : result Metrics :=
  let m := fold_left (fun m opt => opt m) opts
             (mkMetrics NewRegistry "" "" "" "" ""
                (Some internal.DefaultHTTPBuckets) "default") in
  reg ← MustRegister (registry m) (NewProcessCollector ++ NewGoCollector);
  reg ← MustRegister reg [CCounter httpRequestsVec];
  let duration := httpDurationVec (histogramBuckets m) in
  reg ← MustRegister reg [CHistogram duration];
  reg ← MustRegister reg [CCounter httpErrorsVec];
  reg ← MustRegister reg [CCounter applicationEventVec];
  reg ← MustRegister reg [CGauge serviceGaugeVec];
  Ok (mkMetrics reg
        (fqName (c_desc httpRequestsVec))
        (fqName (h_desc duration))
        (fqName (c_desc httpErrorsVec))
        (fqName (c_desc applicationEventVec))
        (fqName (g_desc serviceGaugeVec))
        (histogramBuckets m) (serviceName m)).

(** Following a vector pointer; a pointer that does not lead to a vector of
    its type is a nil dereference. *)
Definition derefCounter (reg : Registry) (p : string) : result CounterVec :=
  match reg !! p with
  | Some (CCounter v) => Ok v
  | _ => Panic "nil pointer dereference"
  end.

Definition derefHistogram (reg : Registry) (p : string) : result HistogramVec :=
  match reg !! p with
  | Some (CHistogram v) => Ok v
  | _ => Panic "nil pointer dereference"
  end.

Definition derefGauge (reg : Registry) (p : string) : result GaugeVec :=
  match reg !! p with
  | Some (CGauge v) => Ok v
  | _ => Panic "nil pointer dereference"
  end.

(** [p.WithLabelValues(lvs...).Inc()] on the counter vector behind [p]. *)
Definition counterInc (p : string) (lvs : list string) (m : Metrics) : result Metrics :=
  v ← derefCounter (registry m) p;
  v' ← CounterVec_Inc v lvs;
  Ok (set_registry (<[p := CCounter v']> (registry m)) m).

Definition histogramObserve (p : string) (lvs : list string) (x : float) (m : Metrics)
  : result Metrics :=
  v ← derefHistogram (registry m) p;
  v' ← HistogramVec_Observe v lvs x;
  Ok (set_registry (<[p := CHistogram v']> (registry m)) m).

Definition gaugeUpdate (f : GaugeVec -> list string -> result GaugeVec)
    (p : string) (lvs : list string) (m : Metrics) : result Metrics :=
  v ← derefGauge (registry m) p;
  v' ← f v lvs;
  Ok (set_registry (<[p := CGauge v']> (registry m)) m).

(** [responseWriter] embeds the writer it wraps and adds the captured
    status.  Its method set is that of [http.ResponseWriter] and no more:
    [Header] is promoted from the embedded writer, and the optional
    interfaces of the embedded writer's dynamic type are not. *)
Record responseWriter (W : Type) := mkResponseWriter {
  ResponseWriter_ : W;
  statusCode : Z
}.
Arguments mkResponseWriter {W} _ _.
Arguments ResponseWriter_ {W} _.
Arguments statusCode {W} _.

Definition responseWriter_WriteHeader {W : Type} `{ResponseWriter W}
    (code : Z) (rw : responseWriter W) : responseWriter W :=
  mkResponseWriter (rw_WriteHeader code (ResponseWriter_ rw)) code.

Definition responseWriter_Write {W : Type} `{ResponseWriter W}
    (b : list byte) (rw : responseWriter W) : responseWriter W * (Z * option string) :=
  let code := if (statusCode rw =? 0)%Z then StatusOK else statusCode rw in
  let '(w', ret) := rw_Write b (ResponseWriter_ rw) in
  (mkResponseWriter w' code, ret).

#[global] Instance responseWriter_ResponseWriter {W : Type} `{ResponseWriter W}
  : ResponseWriter (responseWriter W) := {
  rw_Header := fun rw => rw_Header (ResponseWriter_ rw);
  rw_SetHeader := fun h rw =>
    mkResponseWriter (rw_SetHeader h (ResponseWriter_ rw)) (statusCode rw);
  rw_Write := responseWriter_Write;
  rw_WriteHeader := responseWriter_WriteHeader;
  rw_Flusher := None
}.

(** One call of the handler returned by [Instrument]: the registry and field
    values after it, the writer that was passed in after it, the side effects
    of the wrapped handler so far, and whether the call returned or
    panicked. *)
Record served (W : Type) := mkServed {
  metrics_after : Metrics;
  writer_after : W;
  effects_after : list string;
  status_captured : Z;
  result_of_call : outcome
}.
Arguments mkServed {W} _ _ _ _ _.
Arguments metrics_after {W} _.
Arguments writer_after {W} _.
Arguments effects_after {W} _.
Arguments status_captured {W} _.
Arguments result_of_call {W} _.

(** [Instrument(next).ServeHTTP(w, r)], run on the current state [m] of the
    receiver.  [elapsed] is what [time.Since(start).Seconds()] returns, and
    [fx] the side effects performed before the call. *)
Definition Instrument {W : Type} `{ResponseWriter W} (next : Handler)
    (m : Metrics) (w : W) (r : Request) (fx : list string) (elapsed : float)
  : served W :=
  let path := URL_Path r in
  let method := Method r in
  match counterInc (httpRequests m) [method; path; serviceName m] m with
  | Panic _ => mkServed m w fx 0 Panicked
  | Ok m1 =>
      let rw := mkResponseWriter w 0 in
      let '(rw', fx', out) := run (registry m1) (next r) rw fx in
      match out with
      | Panicked => mkServed m1 (ResponseWriter_ rw') fx' (statusCode rw') Panicked
      | Returned =>
          let duration := elapsed in
          match histogramObserve (httpDuration m1) [method; path; serviceName m1] duration m1 with
          | Panic _ => mkServed m1 (ResponseWriter_ rw') fx' (statusCode rw') Panicked
          | Ok m2 =>
              let statusCode := statusCode rw' in
              if (400 <=? statusCode)%Z then
                match counterInc (httpErrors m2)
                        [method; path; StatusText statusCode; serviceName m2] m2 with
                | Panic _ => mkServed m2 (ResponseWriter_ rw') fx' statusCode Panicked
                | Ok m3 => mkServed m3 (ResponseWriter_ rw') fx' statusCode Returned
                end
              else mkServed m2 (ResponseWriter_ rw') fx' statusCode Returned
          end
      end
  end.

Definition RecordEvent (event : string) (m : Metrics) : result Metrics :=
  counterInc (applicationEvent m) [event; serviceName m] m.

Definition SetGauge (name : string) (value : float) (m : Metrics) : result Metrics :=
  gaugeUpdate (fun v lvs => GaugeVec_Set v lvs value)
    (serviceGauge m) [name; serviceName m] m.

Definition IncrementGauge (name : string) (m : Metrics) : result Metrics :=
  gaugeUpdate GaugeVec_Inc (serviceGauge m) [name; serviceName m] m.

Definition DecrementGauge (name : string) (m : Metrics) : result Metrics :=
  gaugeUpdate GaugeVec_Dec (serviceGauge m) [name; serviceName m] m.

(** The [Register*] methods return the vector pointer or the wrapped error,
    [inl] and [inr] below, next to the state of the receiver. *)
Definition RegisterCounter (name help : string) (labels : list string) (m : Metrics)
  : Metrics * (string + error) :=
  let allLabels := labels ++ ["service"] in
  let counter := NewCounterVec (mkCounterOpts namespace subsystem name help) allLabels in
  match Register (registry m) (CCounter counter) with
  | (reg, Some err) =>
      (set_registry reg m, inr (ErrWrap ("failed to register counter " +:+ name) err))
  | (reg, None) => (set_registry reg m, inl (fqName (c_desc counter)))
  end.

Definition RegisterHistogram (name help : string) (buckets : option (list float))
    (labels : list string) (m : Metrics) : Metrics * (string + error) :=
  let buckets := match buckets with None => histogramBuckets m | Some _ => buckets end in
  let allLabels := labels ++ ["service"] in
  let histogram :=
    NewHistogramVec (mkHistogramOpts namespace subsystem name help buckets) allLabels in
  match Register (registry m) (CHistogram histogram) with
  | (reg, Some err) =>
      (set_registry reg m, inr (ErrWrap ("failed to register histogram " +:+ name) err))
  | (reg, None) => (set_registry reg m, inl (fqName (h_desc histogram)))
  end.

Definition RegisterGauge (name help : string) (labels : list string) (m : Metrics)
  : Metrics * (string + error) :=
  let allLabels := labels ++ ["service"] in
  let gauge := NewGaugeVec (mkGaugeOpts namespace subsystem name help) allLabels in
  match Register (registry m) (CGauge gauge) with
  | (reg, Some err) =>
      (set_registry reg m, inr (ErrWrap ("failed to register gauge " +:+ name) err))
  | (reg, None) => (set_registry reg m, inl (fqName (g_desc gauge)))
  end.

(** *** Reading the registry

    What a scrape shows for one label combination of a vector.  A counter
    child that does not exist yet reads zero and a histogram child that does
    not exist has no samples; a gauge child that does not exist has no
    value. *)

Definition counterValue (m : Metrics) (p : string) (lvs : list string) : N :=
  match registry m !! p with
  | Some (CCounter v) => default 0%N (c_children v !! lvs)
  | _ => 0%N
  end.

Definition histogramCount (m : Metrics) (p : string) (lvs : list string) : nat :=
  match registry m !! p with
  | Some (CHistogram v) => length (default [] (h_children v !! lvs))
  | _ => 0
  end.

Definition gaugeValue (m : Metrics) (p : string) (lvs : list string) : option float :=
  match registry m !! p with
  | Some (CGauge v) => g_children v !! lvs
  | _ => None
  end.

Definition labelNames (m : Metrics) (p : string) : option (list string) :=
  variableLabels <$> (descOf <$> registry m !! p).

Definition upperBounds (m : Metrics) (p : string) : option (list float) :=
  match registry m !! p with
  | Some (CHistogram v) => Some (h_upperBounds v)
  | _ => None
  end.

(** *** The calls a handler makes on its writer *)

Inductive call :=
| SetStatus (code : Z)
| WriteBody (b : list byte)
| SetHeader (key value : string)
| Flush.

(** The calls [h] makes, in order, when it runs on the writer [w]. *)
Fixpoint transcript {W : Type} `{ResponseWriter W} (reg : Registry) (h : behaviour)
    (w : W) : list call :=
  match h with
  | Return | PanicNow => []
  | CallWriteHeader code k => SetStatus code :: transcript reg k (rw_WriteHeader code w)
  | CallWrite b k =>
      let '(w', (n, err)) := rw_Write b w in WriteBody b :: transcript reg (k n err) w'
  | CallHeaderSet key value k =>
      SetHeader key value
        :: transcript reg k (rw_SetHeader (<[key := [value]]> (rw_Header w)) w)
  | CallHeaderGet key k => transcript reg (k (default [] (rw_Header w !! key))) w
  | TryFlush k =>
      match rw_Flusher with
      | Some flush => Flush :: transcript reg (k true) (flush w)
      | None => transcript reg (k false) w
      end
  | Effect _ k => transcript reg k w
  | Scrape k => transcript reg (k reg) w
  end.

(** One call applied to a writer, and a sequence of calls applied in order. *)
Definition apply_call {W : Type} `{ResponseWriter W} (w : W) (c : call) : W :=
  match c with
  | SetStatus code => rw_WriteHeader code w
  | WriteBody b => fst (rw_Write b w)
  | SetHeader key value => rw_SetHeader (<[key := [value]]> (rw_Header w)) w
  | Flush => match rw_Flusher with Some flush => flush w | None => w end
  end.

Definition replay {W : Type} `{ResponseWriter W} (cs : list call) (w : W) : W :=
  fold_left apply_call cs w.

Definition is_SetStatus (c : call) : bool :=
  match c with SetStatus _ => true | _ => false end.

Definition is_WriteBody (c : call) : bool :=
  match c with WriteBody _ => true | _ => false end.

(** The behaviours that use their writer through the three methods of
    [http.ResponseWriter] only. *)
Fixpoint interface_only (h : behaviour) : Prop :=
  match h with
  | Return | PanicNow => True
  | CallWriteHeader _ k | CallHeaderSet _ _ k | Effect _ k => interface_only k
  | CallWrite _ k => forall n err, interface_only (k n err)
  | CallHeaderGet _ k => forall v, interface_only (k v)
  | TryFlush _ => False
  | Scrape k => forall reg, interface_only (k reg)
  end.

(** The behaviours that never look at the registry. *)
Fixpoint scrape_free (h : behaviour) : Prop :=
  match h with
  | Return | PanicNow => True
  | CallWriteHeader _ k | CallHeaderSet _ _ k | Effect _ k => scrape_free k
  | CallWrite _ k => forall n err, scrape_free (k n err)
  | CallHeaderGet _ k => forall v, scrape_free (k v)
  | TryFlush k => forall ok, scrape_free (k ok)
  | Scrape _ => False
  end.

(** *** The three registration methods as one *)

Inductive registration :=
| Counter (name help : string) (labels : list string)
| Histogram (name help : string) (buckets : option (list float)) (labels : list string)
| Gauge (name help : string) (labels : list string).

Definition register (c : registration) (m : Metrics) : Metrics * (string + error) :=
  match c with
  | Counter name help labels => RegisterCounter name help labels m
  | Histogram name help buckets labels => RegisterHistogram name help buckets labels m
  | Gauge name help labels => RegisterGauge name help labels m
  end.

Definition reg_name (c : registration) : string :=
  match c with
  | Counter name _ _ | Histogram name _ _ _ | Gauge name _ _ => name
  end.

Definition reg_help (c : registration) : string :=
  match c with
  | Counter _ help _ | Histogram _ help _ _ | Gauge _ help _ => help
  end.

Definition reg_labels (c : registration) : list string :=
  match c with
  | Counter _ _ labels | Histogram _ _ _ labels | Gauge _ _ labels => labels
  end.

(** The descriptor a registration submits, and the validity of its name and
    labels in the collaborator's terms. *)
Definition reg_desc (c : registration) : Desc :=
  mkDesc (BuildFQName namespace subsystem (reg_name c)) (reg_help c)
    (reg_labels c ++ ["service"]).

Definition valid (c : registration) : bool := validDesc (reg_desc c).

(** The collector a successful registration stores. *)
Definition reg_collector (c : registration) (m : Metrics) : Collector :=
  match c with
  | Counter _ _ _ => CCounter (mkCounterVec (reg_desc c) ∅)
  | Histogram _ _ buckets _ =>
      CHistogram
        (mkHistogramVec (reg_desc c)
           (bucketsOrDefault
              (match buckets with None => histogramBuckets m | Some _ => buckets end))
           ∅)
  | Gauge _ _ _ => CGauge (mkGaugeVec (reg_desc c) ∅)
  end.

Definition is_duplicate_name (e : error) : bool :=
  match e with
  | ErrWrap _ (ErrDuplicateName _) => true
  | _ => false
  end.

(** *** Well-formed receivers

    The five vector pointers lead to vectors of the right kind that carry
    the descriptors [New] gave them.  Every state that [New] returns and that
    the package or its callers can reach from there is well formed
    ([reachable_wf] below). *)

#[global] Instance Desc_eq_dec : EqDecision Desc.
Proof. solve_decision. Defined.

Definition holdsCounter (reg : Registry) (p : string) (d : Desc) : bool :=
  match reg !! p with
  | Some (CCounter v) => bool_decide (c_desc v = d)
  | _ => false
  end.

Definition holdsHistogram (reg : Registry) (p : string) (d : Desc) : bool :=
  match reg !! p with
  | Some (CHistogram v) => bool_decide (h_desc v = d)
  | _ => false
  end.

Definition holdsGauge (reg : Registry) (p : string) (d : Desc) : bool :=
  match reg !! p with
  | Some (CGauge v) => bool_decide (g_desc v = d)
  | _ => false
  end.

Definition wf (m : Metrics) : bool :=
  bool_decide (httpRequests m = "nexen_service_http_requests_total")
  && bool_decide (httpDuration m = "nexen_service_http_request_duration_seconds")
  && bool_decide (httpErrors m = "nexen_service_http_errors_total")
  && bool_decide (applicationEvent m = "nexen_service_application_events_total")
  && bool_decide (serviceGauge m = "nexen_service_gauge")
  && holdsCounter (registry m) (httpRequests m) (c_desc httpRequestsVec)
  && holdsHistogram (registry m) (httpDuration m) (h_desc (httpDurationVec None))
  && holdsCounter (registry m) (httpErrors m) (c_desc httpErrorsVec)
  && holdsCounter (registry m) (applicationEvent m) (c_desc applicationEventVec)
  && holdsGauge (registry m) (serviceGauge m) (g_desc serviceGaugeVec).

(** *** Serving a sequence of requests

    The instrumented handler serves the requests one after the other; each
    comes with its own writer and with the time its handling took.  A call
    that panics is the server's to recover, and the next request is served
    on the state the panicking call left. *)
Fixpoint serve_all {W : Type} `{ResponseWriter W} (next : Handler) (m : Metrics)
    (fx : list string) (reqs : list (W * Request * float)) : Metrics * list outcome :=
  match reqs with
  | [] => (m, [])
  | (w, r, elapsed) :: reqs' =>
      let s := Instrument next m w r fx elapsed in
      let '(m', outs) := serve_all next (metrics_after s) (effects_after s) reqs' in
      (m', result_of_call s :: outs)
  end.

End metrics.

(** * Vocabulary of the properties

    Sample values, readers and auxiliary notions used to state and prove the
    properties below. *)

Import prometheus http metrics.

Module Examples.

(** [New(WithServiceName("test-service"))] as in the package's tests. *)
Definition test_metrics : Metrics :=
  match New [WithServiceName "test-service"] with
  | Ok m => m
  | Panic _ => mkMetrics ∅ "" "" "" "" "" None ""
  end.

(** [RegisterCounter("test_counter", "A test counter", []string{"label1"})],
    also from the tests. *)
Definition test_counter : registration :=
  Counter "test_counter" "A test counter" ["label1"].

End Examples.

(** The fully-qualified form of a metric name. *)
Definition qualified (name : string) : string :=
  namespace +:+ "_" +:+ subsystem +:+ "_" +:+ name.

(** The registry [New] leaves: the five standard vectors, fresh, on top of
    [base]. *)
Definition standard_registry (buckets : option (list float)) (base : Registry) : Registry :=
  <["nexen_service_gauge" := CGauge serviceGaugeVec]>
    (<["nexen_service_application_events_total" := CCounter applicationEventVec]>
       (<["nexen_service_http_errors_total" := CCounter httpErrorsVec]>
          (<["nexen_service_http_request_duration_seconds"
             := CHistogram (httpDurationVec buckets)]>
             (<["nexen_service_http_requests_total" := CCounter httpRequestsVec]> base)))).

(** [registered_as m p name]: the pointer [p] is the qualified form of
    [name], and the registry of [m] holds under it a collector whose
    descriptor carries that fully-qualified name. *)
Definition registered_as (m : Metrics) (p name : string) : Prop :=
  p = qualified name
  /\ exists col, registry m !! p = Some col /\ fqName (descOf col) = qualified name.

(** [bumpCounter] and [addSample] are the states the observations of the
    middleware lead to; an observation that panics leaves the state it
    found. *)
Definition bumpCounter (p : string) (lvs : list string) (m : Metrics) : Metrics :=
  match counterInc p lvs m with Ok m' => m' | Panic _ => m end.

Definition addSample (p : string) (lvs : list string) (x : float) (m : Metrics) : Metrics :=
  match histogramObserve p lvs x m with Ok m' => m' | Panic _ => m end.

(** Kind and descriptor of a collector: what an observation never changes. *)
Definition shape (c : Collector) : nat * Desc :=
  match c with
  | CCounter v => (0, c_desc v)
  | CHistogram v => (1, h_desc v)
  | CGauge v => (2, g_desc v)
  | CRuntime d => (3, d)
  end.

(** [evolves m m']: the fields other than the registry are the same, and
    every collector of [m] is still there in [m'] with its kind and
    descriptor. *)
Definition evolves (m m' : Metrics) : Prop :=
  httpRequests m' = httpRequests m
  /\ httpDuration m' = httpDuration m
  /\ httpErrors m' = httpErrors m
  /\ applicationEvent m' = applicationEvent m
  /\ serviceGauge m' = serviceGauge m
  /\ histogramBuckets m' = histogramBuckets m
  /\ serviceName m' = serviceName m
  /\ forall q c, registry m !! q = Some c ->
       exists c', registry m' !! q = Some c' /\ shape c' = shape c.

(** Unfolds an observation down to the lookup in the registry. *)
Ltac unfold_obs :=
  unfold bumpCounter, addSample, counterInc, histogramObserve,
    derefCounter, derefHistogram, CounterVec_Inc, HistogramVec_Observe,
    mbind, result_bind.

(** The captured status after one more call, as the two intercepting methods
    compute it; the other calls are promoted and leave it alone. *)
Definition status_step (sc : Z) (c : call) : Z :=
  match c with
  | SetStatus code => code
  | WriteBody _ => if (sc =? 0)%Z then StatusOK else sc
  | SetHeader _ _ | Flush => sc
  end.

(** The captured status after the calls [cs], starting from [sc]. *)
Definition capture (cs : list call) (sc : Z) : Z := fold_left status_step cs sc.

(** The labels of the request counter and of the duration histogram for a
    request, and those of the error counter for a request and a status. *)
Definition request_labels (m : Metrics) (r : Request) : list string :=
  [Method r; URL_Path r; serviceName m].

Definition error_labels (m : Metrics) (r : Request) (status : Z) : list string :=
  [Method r; URL_Path r; StatusText status; serviceName m].

(** Boundaries as a histogram needs them: each one below the next. *)
Fixpoint increasing (bs : list float) : bool :=
  match bs with
  | x :: (y :: _) as rest => PrimFloat.ltb x y && increasing rest
  | _ => true
  end.

(** The requests for which the library accepts the observations of the
    middleware on a receiver.  Method, path and service name are valid
    UTF-8, as the status text, the fourth label value of the error counter,
    always is; and each boundary of the duration histogram is below the
    next, so that the library can create the histogram of a label
    combination it has not seen yet. *)
Definition accepted (m : Metrics) (r : Request) : bool :=
  forallb utf8.ValidString (request_labels m r)
  && match upperBounds m (httpDuration m) with
     | Some bs => increasing bs
     | None => false
     end.

(** The state in which the wrapped handler runs. *)
Definition counted (m : Metrics) (r : Request) : Metrics :=
  bumpCounter (httpRequests m) (request_labels m r) m.

(** The state after the duration of a request that returned was recorded. *)
Definition timed (m : Metrics) (r : Request) (elapsed : float) : Metrics :=
  addSample (httpDuration m) (request_labels m r) elapsed (counted m r).

(** A streaming handler in the usual style: it flushes and answers 200 when
    its writer can flush, and answers 500 when it cannot. *)
Definition streaming_handler : Handler := fun _ =>
  TryFlush (fun ok =>
    if ok then CallWriteHeader 200 Return
    else CallWriteHeader 500 Return).

(** The status the claim expects: the one fixed by the earliest of the two
    events, an explicit set-status call or a body write, and zero when
    neither occurs. *)
Fixpoint first_event_status (cs : list call) : Z :=
  match cs with
  | [] => 0
  | SetStatus code :: _ => code
  | WriteBody _ :: _ => StatusOK
  | _ :: cs' => first_event_status cs'
  end.

(** An option that leaves the bucket field alone. *)
Definition keeps_buckets (opt : Option) : Prop :=
  forall m, histogramBuckets (opt m) = histogramBuckets m.

Module ExamplesLLM.

(** [New(WithHistogramBuckets(internal.DefaultLLMLatencyBuckets()))] *)
Definition llm_metrics : Metrics :=
  match New [WithHistogramBuckets (Some internal.DefaultLLMLatencyBuckets)] with
  | Ok m => m
  | Panic _ => mkMetrics ∅ "" "" "" "" "" None ""
  end.

End ExamplesLLM.

(** The integer [z] as a [float64]; exact below 2^53 in magnitude. *)
Definition float_of_Z (z : Z) : float :=
  match z with
  | Z0 => 0%float
  | Zpos _ => PrimFloat.of_uint63 (Uint63.of_Z z)
  | Zneg _ => (- PrimFloat.of_uint63 (Uint63.of_Z (- z)))%float
  end.

(** What an increment followed by a decrement makes of a gauge value. *)
Definition inc_dec (v : float) : float := (v + 1 + -1)%float.

(** The integer [z] in the specification of binary64: 53 bits of mantissa,
    exponents below 1024. *)
Definition BN (z : Z) : spec_float := binary_normalize 53 1024 z 0 false.

Module ExamplesGauge.

(** The state a call that returned leads to. *)
Definition after (r : result Metrics) : Metrics :=
  match r with
  | Ok m => m
  | Panic _ => mkMetrics ∅ "" "" "" "" "" None ""
  end.

(** [SetGauge("queue_depth", 0.1)], [IncrementGauge("queue_depth")],
    [DecrementGauge("queue_depth")] on the receiver of the tests. *)
Definition set_to_tenth : Metrics :=
  after (SetGauge "queue_depth" 0.1%float Examples.test_metrics).
Definition incremented : Metrics := after (IncrementGauge "queue_depth" set_to_tenth).
Definition decremented : Metrics := after (DecrementGauge "queue_depth" incremented).

End ExamplesGauge.

(** An observation on a custom instrument, as its caller makes it: directly
    on the vector that the registration returned, with the label values
    [vs]. *)
Definition custom_observe (c : registration) (p : string) (vs : list string)
    (m : Metrics) : result Metrics :=
  match c with
  | Counter _ _ _ => counterInc p vs m
  | Histogram _ _ _ _ => histogramObserve p vs 1%float m
  | Gauge _ _ _ => gaugeUpdate GaugeVec_Inc p vs m
  end.

(** An observation as the callers of the collaborator can make it on any
    vector of the registry. *)
Inductive observation :=
| IncCounter
| ObserveHistogram (x : float)
| SetGaugeTo (x : float)
| AddToGauge (x : float).

Definition observe (o : observation) (p : string) (vs : list string) (m : Metrics)
  : result Metrics :=
  match o with
  | IncCounter => counterInc p vs m
  | ObserveHistogram x => histogramObserve p vs x m
  | SetGaugeTo x => gaugeUpdate (fun v l => GaugeVec_Set v l x) p vs m
  | AddToGauge x => gaugeUpdate (fun v l => GaugeVec_Add v l x) p vs m
  end.

(** The states of a receiver that the package and its callers can bring
    about: [New] returns the first one, and the instrumented handler, the
    event and gauge helpers, the registration methods and the observations on
    registered vectors lead from one to the next. *)
Inductive reachable : Metrics -> Prop :=
| reach_New opts m :
    New opts = Ok m -> reachable m
| reach_Instrument (W : Type) (HW : ResponseWriter W) next m (w : W) r fx elapsed :
    reachable m -> reachable (metrics_after (Instrument next m w r fx elapsed))
| reach_RecordEvent event m m' :
    reachable m -> RecordEvent event m = Ok m' -> reachable m'
| reach_SetGauge name value m m' :
    reachable m -> SetGauge name value m = Ok m' -> reachable m'
| reach_IncrementGauge name m m' :
    reachable m -> IncrementGauge name m = Ok m' -> reachable m'
| reach_DecrementGauge name m m' :
    reachable m -> DecrementGauge name m = Ok m' -> reachable m'
| reach_register c m :
    reachable m -> reachable (register c m).1
| reach_observe o p vs m m' :
    reachable m -> observe o p vs m = Ok m' -> reachable m'.

(** * Vocabulary of the further properties

    Notions used to state the properties of the last part of the file: how
    [New] comes to return, what the instruments hold after mixed traffic, and
    how events, gauges and registrations behave in sequence. *)

(** ** Construction *)

(** The receiver as [New] has it once the options are applied, before
    anything is registered. *)
Definition configured (opts : list Option) : Metrics :=
  fold_left (fun m opt => opt m) opts
    (mkMetrics NewRegistry "" "" "" "" "" (Some internal.DefaultHTTPBuckets) "default").

(** The collectors [New] registers, in the order of its [MustRegister]
    calls, and the names under which they come to stand in the registry. *)
Definition collectors_of_New (buckets : option (list float)) : list Collector :=
  (NewProcessCollector ++ NewGoCollector)
    ++ [CCounter httpRequestsVec; CHistogram (httpDurationVec buckets);
        CCounter httpErrorsVec; CCounter applicationEventVec; CGauge serviceGaugeVec].

Definition names_of_New : list string :=
  map (fun c => fqName (descOf c)) (collectors_of_New None).

(** Options that leave the registry, or the service name, as they find it. *)
Definition keeps_registry (opt : Option) : Prop :=
  forall m, registry (opt m) = registry m.

Definition keeps_serviceName (opt : Option) : Prop :=
  forall m, serviceName (opt m) = serviceName m.

(** ** Operations on a receiver *)

(** One operation of the package or of its callers on a receiver: a call of
    the instrumented handler, of an event or gauge helper, of a registration
    method, or an observation on a registered vector. *)
Inductive step : Metrics -> Metrics -> Prop :=
| step_Instrument (W : Type) (HW : ResponseWriter W) next m (w : W) r fx elapsed :
    step m (metrics_after (Instrument next m w r fx elapsed))
| step_RecordEvent event m m' :
    RecordEvent event m = Ok m' -> step m m'
| step_SetGauge name value m m' :
    SetGauge name value m = Ok m' -> step m m'
| step_IncrementGauge name m m' :
    IncrementGauge name m = Ok m' -> step m m'
| step_DecrementGauge name m m' :
    DecrementGauge name m = Ok m' -> step m m'
| step_register c m :
    step m (register c m).1
| step_observe o p vs m m' :
    observe o p vs m = Ok m' -> step m m'.

(** The boundaries of a collector that is a histogram: with its kind and
    its descriptor, what a collector fixes when it is created. *)
Definition bounds (c : Collector) : option (list float) :=
  match c with
  | CHistogram v => Some (h_upperBounds v)
  | _ => None
  end.

(** [persists m m']: every collector of [m] is still registered in [m'],
    with the kind, the descriptor and the boundaries it had. *)
Definition persists (m m' : Metrics) : Prop :=
  forall q c, registry m !! q = Some c ->
    exists c', registry m' !! q = Some c' /\ shape c' = shape c /\ bounds c' = bounds c.

(** The samples a histogram holds for one label combination, oldest first. *)
Definition histogramSamples (m : Metrics) (p : string) (lvs : list string) : list float :=
  match registry m !! p with
  | Some (CHistogram v) => default [] (h_children v !! lvs)
  | _ => []
  end.

(** [grows m m']: no counter reads less in [m'] than in [m], and every
    histogram still holds the samples it held, followed by the new ones. *)
Definition grows (m m' : Metrics) : Prop :=
  forall p l,
    (counterValue m p l <= counterValue m' p l)%N
    /\ histogramSamples m p l `prefix_of` histogramSamples m' p l.

(** ** Serving mixed traffic *)

(** The calls of the instrumented handler on a sequence of requests, each
    with its request and the time its handling took: the record that goes
    with [serve_all]. *)
Fixpoint serve_each {W : Type} `{ResponseWriter W} (next : Handler) (m : Metrics)
    (fx : list string) (reqs : list (W * Request * float))
  : list (Request * float * served W) :=
  match reqs with
  | [] => []
  | (w, r, elapsed) :: reqs' =>
      let s := Instrument next m w r fx elapsed in
      (r, elapsed, s) :: serve_each next (metrics_after s) (effects_after s) reqs'
  end.

(** Requests that count under the labels [l] of the request counter and of
    the duration histogram. *)
Definition counts_under (m : Metrics) (l : list string) (r : Request) : bool :=
  bool_decide (request_labels m r = l).

Definition returned {W : Type} (s : served W) : bool :=
  match result_of_call s with Returned => true | Panicked => false end.

(** Calls whose duration was recorded under the labels [l]. *)
Definition timed_under {W : Type} (m : Metrics) (l : list string)
    (e : Request * float * served W) : bool :=
  returned e.2 && counts_under m l e.1.1.

(** Calls that were counted as an error under the labels [l] of the error
    counter. *)
Definition failed_under {W : Type} (m : Metrics) (l : list string)
    (e : Request * float * served W) : bool :=
  returned e.2 && (400 <=? status_captured e.2)%Z
  && bool_decide (error_labels m e.1.1 (status_captured e.2) = l).

(** What the wrapped handler makes of one request on its own, when it does
    not look at the registry: whether it returns, and the status that the
    decorator has captured when it is through. *)
Definition alone {W : Type} `{ResponseWriter W} (next : Handler)
    (q : W * Request * float) : outcome * Z :=
  let '(rw', _, out) := run ∅ (next q.1.2) (mkResponseWriter q.1.1 0) [] in
  (out, statusCode rw').

(** The requests that leave a duration, and those that count as an error,
    under the labels [l], judged by what the handler makes of each on its
    own. *)
Definition timed_alone {W : Type} `{ResponseWriter W} (next : Handler) (m : Metrics)
    (l : list string) (q : W * Request * float) : bool :=
  match (alone next q).1 with Returned => true | Panicked => false end
  && counts_under m l q.1.2.

Definition failed_alone {W : Type} `{ResponseWriter W} (next : Handler) (m : Metrics)
    (l : list string) (q : W * Request * float) : bool :=
  match (alone next q).1 with Returned => true | Panicked => false end
  && (400 <=? (alone next q).2)%Z
  && bool_decide (error_labels m q.1.2 (alone next q).2 = l).

(** [m.Instrument(m.Instrument(next)).ServeHTTP(w, r)]: the body of
    [Instrument] once more, around a call of the instrumented handler on the
    decorator of the outer call.  [inner] and [outer] are the times measured
    by the inner and by the outer call. *)
Definition Instrument_twice {W : Type} `{ResponseWriter W} (next : Handler)
    (m : Metrics) (w : W) (r : Request) (fx : list string) (inner outer : float)
  : served W :=
  let path := URL_Path r in
  let method := Method r in
  match counterInc (httpRequests m) [method; path; serviceName m] m with
  | Panic _ => mkServed m w fx 0 Panicked
  | Ok m1 =>
      let rw := mkResponseWriter w 0 in
      let s := Instrument next m1 rw r fx inner in
      let rw' := writer_after s in
      let m2 := metrics_after s in
      match result_of_call s with
      | Panicked => mkServed m2 (ResponseWriter_ rw') (effects_after s) (statusCode rw') Panicked
      | Returned =>
          match histogramObserve (httpDuration m2) [method; path; serviceName m2] outer m2 with
          | Panic _ =>
              mkServed m2 (ResponseWriter_ rw') (effects_after s) (statusCode rw') Panicked
          | Ok m3 =>
              let statusCode := statusCode rw' in
              if (400 <=? statusCode)%Z then
                match counterInc (httpErrors m3)
                        [method; path; StatusText statusCode; serviceName m3] m3 with
                | Panic _ =>
                    mkServed m3 (ResponseWriter_ rw') (effects_after s) statusCode Panicked
                | Ok m4 =>
                    mkServed m4 (ResponseWriter_ rw') (effects_after s) statusCode Returned
                end
              else mkServed m3 (ResponseWriter_ rw') (effects_after s) statusCode Returned
          end
      end
  end.

(** ** Events and gauges in sequence *)

(** [RecordEvent] called once for each event of a list, in order. *)
Fixpoint RecordEvents (events : list string) (m : Metrics) : result Metrics :=
  match events with
  | [] => Ok m
  | e :: events' => m' ← RecordEvent e m; RecordEvents events' m'
  end.

(** A gauge moved up by [IncrementGauge] or down by [DecrementGauge]. *)
Inductive movement := Up | Down.

Definition move (name : string) (d : movement) (m : Metrics) : result Metrics :=
  match d with
  | Up => IncrementGauge name m
  | Down => DecrementGauge name m
  end.

Fixpoint moves (name : string) (ds : list movement) (m : Metrics) : result Metrics :=
  match ds with
  | [] => Ok m
  | d :: ds' => m' ← move name d m; moves name ds' m'
  end.

(** Increments minus decrements. *)
Definition net (ds : list movement) : Z :=
  fold_right (fun d z => match d with Up => z + 1 | Down => z - 1 end%Z) 0%Z ds.

(** ** Registration requests *)

(** The names of the five standard instruments, before qualification. *)
Definition standard_names : list string :=
  ["http_requests_total"; "http_request_duration_seconds"; "http_errors_total";
   "application_events_total"; "gauge"].

Definition is_invalid_desc (e : error) : bool :=
  match e with
  | ErrWrap _ (ErrInvalidDesc _) => true
  | _ => false
  end.

(** ** The per-tenant middleware of the usage guide

    [customMiddleware(next, m)] of the section on custom HTTP
    instrumentation, serving one request: it registers the counter
    tenant_requests_total, discards the error, increments the counter it got
    for the tenant of the request, and hands over to the instrumented
    handler.  [tenantID] is what [r.Header.Get] returns for X-Tenant-ID.  A
    refused registration returns a nil vector, and the increment on it is a
    nil dereference. *)
Definition customMiddleware {W : Type} `{ResponseWriter W} (next : Handler)
    (m : Metrics) (w : W) (r : Request) (tenantID : string) (fx : list string)
    (elapsed : float) : served W :=
  let '(m1, counter) :=
    RegisterCounter "tenant_requests_total" "Total requests by tenant" ["tenant_id"] m in
  match counter with
  | inr _ => mkServed m1 w fx 0 Panicked
  | inl p =>
      match counterInc p [tenantID; "my-service"] m1 with
      | Panic _ => mkServed m1 w fx 0 Panicked
      | Ok m2 => Instrument next m2 w r fx elapsed
      end
  end.

(** ** Handlers that fix their status once *)

(** A final status code, 200 to 999.  A writer refuses the codes below 100
    and above 999, and takes a code from 100 to 199 for an interim response,
    which does not settle the status of the response. *)
Definition final_status (code : Z) : bool := (200 <=? code)%Z && (code <=? 999)%Z.

(** The calls of a handler that sets its status at most once, to a final
    status code and before it writes any body. *)
Fixpoint settles_once (cs : list call) : bool :=
  match cs with
  | [] => true
  | SetStatus code :: cs' => final_status code && forallb (fun c => negb (is_SetStatus c)) cs'
  | WriteBody _ :: cs' => forallb (fun c => negb (is_SetStatus c)) cs'
  | _ :: cs' => settles_once cs'
  end.

(** Whether the calls fix a status at all. *)
Definition fixes_status (cs : list call) : bool :=
  existsb (fun c => is_SetStatus c || is_WriteBody c) cs.

Module ExamplesTraffic.

(** A handler in the manner of the one in the package's tests, with a path
    on which it panics after it has set its status. *)
Definition handler : Handler := fun r =>
  if bool_decide (URL_Path r = "/error") then CallWriteHeader 500 Return
  else if bool_decide (URL_Path r = "/crash") then CallWriteHeader 500 PanicNow
  else CallWriteHeader 200 Return.

Definition traffic : list (ResponseRecorder * Request * float) :=
  [(NewRecorder, mkRequest "GET" "/success", 0.01%float);
   (NewRecorder, mkRequest "GET" "/error", 0.02%float);
   (NewRecorder, mkRequest "GET" "/crash", 0.03%float);
   (NewRecorder, mkRequest "POST" "/success", 0.04%float);
   (NewRecorder, mkRequest "GET" "/success", 0.05%float)].

End ExamplesTraffic.

(** * Properties *)


(** ** Sample values used to instantiate the theorems *)

Lemma test_metrics_New : New [WithServiceName "test-service"] = Ok Examples.test_metrics.
Proof. vm_cast_no_check (eq_refl (Ok Examples.test_metrics)). Qed.

(** ** Names *)

Lemma qualified_prefix name : qualified name = "nexen_service_" +:+ name.
Proof. reflexivity. Qed.

Lemma BuildFQName_qualified name :
  name <> "" -> BuildFQName namespace subsystem name = qualified name.
Proof.
  intros Hne. unfold BuildFQName.
  rewrite bool_decide_eq_false_2 by done. reflexivity.
Qed.

Lemma IsValidMetricName_nonempty s : IsValidMetricName s = true -> s <> "".
Proof. by destruct s. Qed.

Lemma valid_name_nonempty c : valid c = true -> reg_name c <> "".
Proof.
  unfold valid, validDesc. intros Hv Hname.
  rewrite !andb_true_iff in Hv. destruct Hv as [[Hv _] _].
  unfold reg_desc in Hv. simpl in Hv. unfold BuildFQName in Hv.
  rewrite bool_decide_eq_true_2 in Hv by done. discriminate.
Qed.

Lemma valid_fqName c : valid c = true -> fqName (reg_desc c) = qualified (reg_name c).
Proof. intros Hv. apply BuildFQName_qualified. by apply valid_name_nonempty. Qed.

(** ** Registration *)

Lemma set_registry_id m : set_registry (registry m) m = m.
Proof. by destruct m. Qed.

Lemma registry_set_registry reg m : registry (set_registry reg m) = reg.
Proof. reflexivity. Qed.

Lemma descOf_reg_collector c m : descOf (reg_collector c m) = reg_desc c.
Proof. by destruct c. Qed.

(** Each registration method submits [reg_collector] to the registry and
    wraps what the registry answers. *)
Lemma register_unfold c m :
  exists msg,
    register c m =
      match Register (registry m) (reg_collector c m) with
      | (reg, Some err) => (set_registry reg m, inr (ErrWrap msg err))
      | (reg, None) => (set_registry reg m, inl (fqName (reg_desc c)))
      end.
Proof. destruct c; eexists; reflexivity. Qed.

Lemma Register_fresh reg c :
  validDesc (descOf c) = true -> reg !! fqName (descOf c) = None ->
  Register reg c = (<[fqName (descOf c) := c]> reg, None).
Proof. intros Hv Hn. unfold Register. by rewrite Hv, Hn. Qed.

Lemma Register_taken reg c :
  validDesc (descOf c) = true -> is_Some (reg !! fqName (descOf c)) ->
  Register reg c = (reg, Some (ErrDuplicateName (fqName (descOf c)))).
Proof. intros Hv [x Hx]. unfold Register. by rewrite Hv, Hx. Qed.

Lemma Register_refused reg c reg' e :
  Register reg c = (reg', Some e) -> reg' = reg.
Proof.
  unfold Register. destruct (negb _); [congruence |].
  destruct (reg !! _); congruence.
Qed.

Lemma Register_taken_refused reg c :
  is_Some (reg !! fqName (descOf c)) -> exists e, Register reg c = (reg, Some e).
Proof.
  intros [x Hx]. unfold Register. destruct (negb _); [by eexists |].
  rewrite Hx. by eexists.
Qed.

(** C1: for a valid name and label list, a registration through
    RegisterCounter, RegisterHistogram or RegisterGauge succeeds when the
    name is not registered yet, and it adds the new instrument and nothing
    else; from then on every registration under the same name, of whatever
    kind, is refused with the registry and the receiver unchanged, the
    refusal being a duplicate-name error when the second request is valid.
    A registration under a name that is already taken is refused in the same
    way. *)
Theorem C1_register_once (c : registration) (m : Metrics) :
  valid c = true ->
  let fq := fqName (reg_desc c) in
  (registry m !! fq = None ->
     register c m = (set_registry (<[fq := reg_collector c m]> (registry m)) m, inl fq)
     /\ forall c2, reg_name c2 = reg_name c ->
          let m' := fst (register c m) in
          exists e, register c2 m' = (m', inr e)
                    /\ (valid c2 = true -> is_duplicate_name e = true))
  /\ (is_Some (registry m !! fq) ->
        exists e, register c m = (m, inr e) /\ is_duplicate_name e = true).
Proof.
  intros Hv fq. split.
  - intros Hfresh.
    assert (Hreg : register c m
              = (set_registry (<[fq := reg_collector c m]> (registry m)) m, inl fq)).
    { destruct (register_unfold c m) as [msg ->].
      rewrite Register_fresh; rewrite ?descOf_reg_collector; done. }
    split; [exact Hreg |].
    intros c2 Hname m'. subst m'. rewrite Hreg. simpl.
    set (m1 := set_registry _ m).
    assert (Hfq : fqName (reg_desc c2) = fq).
    { unfold fq, reg_desc. simpl. by rewrite Hname. }
    assert (Htaken : is_Some (registry m1 !! fqName (descOf (reg_collector c2 m1)))).
    { rewrite descOf_reg_collector, Hfq. unfold m1. simpl.
      rewrite lookup_insert_eq. by eexists. }
    destruct (register_unfold c2 m1) as [msg Hc2].
    destruct (valid c2) eqn:Hv2.
    + rewrite Register_taken in Hc2; [| by rewrite descOf_reg_collector | done].
      rewrite set_registry_id in Hc2. eexists. split; [exact Hc2 | done].
    + destruct (Register_taken_refused _ _ Htaken) as [e He].
      rewrite He, set_registry_id in Hc2. eexists. split; [exact Hc2 | done].
  - intros Htaken.
    destruct (register_unfold c m) as [msg ->].
    rewrite Register_taken; rewrite ?descOf_reg_collector; [| done | done].
    rewrite set_registry_id. eexists. split; [reflexivity | done].
Qed.

Lemma C1_register_once_witness :
  valid Examples.test_counter = true
  /\ registry Examples.test_metrics !! "nexen_service_test_counter" = None
  /\ snd (register Examples.test_counter Examples.test_metrics)
     = inl "nexen_service_test_counter"
  /\ exists e,
       register (Gauge "test_counter" "" [])
         (fst (register Examples.test_counter Examples.test_metrics))
       = (fst (register Examples.test_counter Examples.test_metrics), inr e)
       /\ (valid (Gauge "test_counter" "" []) = true -> is_duplicate_name e = true).
Proof.
  assert (Hfresh : registry Examples.test_metrics !! "nexen_service_test_counter" = None)
    by (vm_cast_no_check (eq_refl (@None Collector))).
  destruct (C1_register_once Examples.test_counter Examples.test_metrics eq_refl)
    as [Hfirst _].
  destruct (Hfirst Hfresh) as [Hreg Hsecond].
  split; [reflexivity |]. split; [exact Hfresh |]. split.
  - rewrite Hreg. reflexivity.
  - exact (Hsecond (Gauge "test_counter" "" []) eq_refl).
Defined.

(** ** Construction *)

Lemma MustRegister_one reg c reg' :
  MustRegister reg [c] = Ok reg' ->
  reg !! fqName (descOf c) = None /\ reg' = <[fqName (descOf c) := c]> reg.
Proof.
  simpl. unfold Register. destruct (negb _); [done |].
  destruct (reg !! _); [done |]. intros [= <-]. done.
Qed.

Lemma MustRegister_extends cs : forall reg reg',
  MustRegister reg cs = Ok reg' -> reg ⊆ reg'.
Proof.
  induction cs as [| c cs IH]; intros reg reg'; simpl.
  - by intros [= <-].
  - unfold Register. destruct (negb _); [done |].
    destruct (reg !! _) eqn:Hl; [done |].
    intros Hrest. apply IH in Hrest.
    etrans; [| exact Hrest]. by apply insert_subseteq.
Qed.

(** What [New] returns when it returns: the configured fields, the five
    pointers, and a registry that holds the five fresh standard vectors on
    top of whatever it held before. *)
Lemma New_inv opts m :
  New opts = Ok m ->
  let m0 := fold_left (fun m opt => opt m) opts
              (mkMetrics NewRegistry "" "" "" "" ""
                 (Some internal.DefaultHTTPBuckets) "default") in
  exists base,
    registry m0 ⊆ base
    /\ m = mkMetrics (standard_registry (histogramBuckets m0) base)
             "nexen_service_http_requests_total"
             "nexen_service_http_request_duration_seconds"
             "nexen_service_http_errors_total"
             "nexen_service_application_events_total"
             "nexen_service_gauge"
             (histogramBuckets m0) (serviceName m0).
Proof.
  intros Hnew. unfold New in Hnew. simpl. set (m0 := fold_left _ _ _) in *.
  destruct (MustRegister (registry m0) _) as [r1 |] eqn:H1; [| done].
  apply MustRegister_extends in H1.
  unfold mbind at 1, result_bind at 1 in Hnew.
  destruct (MustRegister r1 _) as [r2 |] eqn:H2; [| done].
  apply MustRegister_one in H2 as [_ ->].
  unfold mbind at 1, result_bind at 1 in Hnew.
  destruct (MustRegister _ [CHistogram _]) as [r3 |] eqn:H3; [| done].
  apply MustRegister_one in H3 as [_ ->].
  unfold mbind at 1, result_bind at 1 in Hnew.
  destruct (MustRegister _ [CCounter httpErrorsVec]) as [r4 |] eqn:H4; [| done].
  apply MustRegister_one in H4 as [_ ->].
  unfold mbind at 1, result_bind at 1 in Hnew.
  destruct (MustRegister _ [CCounter applicationEventVec]) as [r5 |] eqn:H5; [| done].
  apply MustRegister_one in H5 as [_ ->].
  unfold mbind at 1, result_bind at 1 in Hnew.
  destruct (MustRegister _ [CGauge serviceGaugeVec]) as [r6 |] eqn:H6; [| done].
  apply MustRegister_one in H6 as [_ ->].
  unfold mbind, result_bind in Hnew.
  injection Hnew as <-. exists r1. split; [exact H1 | reflexivity].
Qed.

Lemma standard_registry_lookup b base :
  standard_registry b base !! "nexen_service_http_requests_total"
    = Some (CCounter httpRequestsVec)
  /\ standard_registry b base !! "nexen_service_http_request_duration_seconds"
    = Some (CHistogram (httpDurationVec b))
  /\ standard_registry b base !! "nexen_service_http_errors_total"
    = Some (CCounter httpErrorsVec)
  /\ standard_registry b base !! "nexen_service_application_events_total"
    = Some (CCounter applicationEventVec)
  /\ standard_registry b base !! "nexen_service_gauge" = Some (CGauge serviceGaugeVec).
Proof.
  unfold standard_registry. repeat split.
  all: repeat (rewrite lookup_insert_ne by done); by rewrite lookup_insert_eq.
Qed.

Lemma New_wf opts m : New opts = Ok m -> wf m = true.
Proof.
  intros Hnew. destruct (New_inv _ _ Hnew) as (base & _ & ->). clear Hnew.
  destruct (standard_registry_lookup
              (histogramBuckets
                 (fold_left (fun m opt => opt m) opts
                    (mkMetrics NewRegistry "" "" "" "" ""
                       (Some internal.DefaultHTTPBuckets) "default"))) base)
    as (H1 & H2 & H3 & H4 & H5).
  unfold wf, holdsCounter, holdsHistogram, holdsGauge.
  cbn [registry httpRequests httpDuration httpErrors applicationEvent serviceGauge].
  rewrite H1, H2, H3, H4, H5. reflexivity.
Qed.

Lemma Register_accepted reg c reg' :
  Register reg c = (reg', None) ->
  validDesc (descOf c) = true
  /\ reg !! fqName (descOf c) = None
  /\ reg' = <[fqName (descOf c) := c]> reg.
Proof.
  unfold Register. destruct (validDesc _); simpl; [| done].
  destruct (reg !! _); [done |]. by intros [= <-].
Qed.

(** A successful registration was valid and fresh, and stored its
    collector under the qualified name. *)
Lemma register_accepted c m m' p :
  register c m = (m', inl p) ->
  valid c = true
  /\ registry m !! qualified (reg_name c) = None
  /\ p = qualified (reg_name c)
  /\ m' = set_registry (<[p := reg_collector c m]> (registry m)) m.
Proof.
  destruct (register_unfold c m) as [msg ->].
  destruct (Register _ _) as [reg [e |]] eqn:HR; [done |].
  intros [= <- <-].
  apply Register_accepted in HR as (Hv & Hfresh & ->).
  rewrite descOf_reg_collector in *.
  assert (Hvalid : valid c = true) by exact Hv.
  pose proof (valid_fqName c Hvalid) as Hq. rewrite Hq in *.
  cbn [reg_desc fqName] in Hq. rewrite Hq. done.
Qed.

(** A registration that returns an error left the receiver as it was. *)
Lemma register_refused c m m' e :
  register c m = (m', inr e) -> m' = m.
Proof.
  destruct (register_unfold c m) as [msg ->].
  destruct (Register _ _) as [reg [e' |]] eqn:HR; [| done].
  intros [= <- _]. apply Register_refused in HR as ->. apply set_registry_id.
Qed.

(** C9: the five standard instruments that New registers, and every
    instrument registered through RegisterCounter, RegisterHistogram or
    RegisterGauge, are held under the name space and subsystem constants
    followed by their own name: nexen_service_<name>. *)
Theorem C9_names_prefixed :
  (forall name, qualified name = "nexen_service_" +:+ name)
  /\ (forall opts m, New opts = Ok m ->
        registered_as m (httpRequests m) "http_requests_total"
        /\ registered_as m (httpDuration m) "http_request_duration_seconds"
        /\ registered_as m (httpErrors m) "http_errors_total"
        /\ registered_as m (applicationEvent m) "application_events_total"
        /\ registered_as m (serviceGauge m) "gauge")
  /\ (forall c m m' p, register c m = (m', inl p) -> registered_as m' p (reg_name c)).
Proof.
  split; [exact qualified_prefix |]. split.
  - intros opts m Hnew. destruct (New_inv _ _ Hnew) as (base & _ & ->).
    destruct (standard_registry_lookup
                (histogramBuckets
                   (fold_left (fun m opt => opt m) opts
                      (mkMetrics NewRegistry "" "" "" "" ""
                         (Some internal.DefaultHTTPBuckets) "default"))) base)
      as (H1 & H2 & H3 & H4 & H5).
    unfold registered_as.
    cbn [registry httpRequests httpDuration httpErrors applicationEvent serviceGauge].
    repeat split; try reflexivity; eexists; (split; [eassumption | reflexivity]).
  - intros c m m' p Hreg.
    apply register_accepted in Hreg as (Hv & _ & -> & ->).
    split; [reflexivity |]. exists (reg_collector c m). split.
    + cbn [registry set_registry]. apply lookup_insert_eq.
    + rewrite descOf_reg_collector. by apply valid_fqName.
Qed.

Lemma C9_names_prefixed_witness :
  registered_as Examples.test_metrics (httpRequests Examples.test_metrics)
    "http_requests_total"
  /\ registered_as (fst (register Examples.test_counter Examples.test_metrics))
       "nexen_service_test_counter" "test_counter".
Proof.
  destruct C9_names_prefixed as (_ & Hstd & Hcustom). split.
  - exact (proj1 (Hstd [WithServiceName "test-service"] _ test_metrics_New)).
  - refine (Hcustom Examples.test_counter Examples.test_metrics _ _ _).
    vm_cast_no_check (eq_refl (register Examples.test_counter Examples.test_metrics)).
Defined.

(** ** Observations *)

Lemma evolves_refl m : evolves m m.
Proof. unfold evolves. repeat split; eauto. Qed.

Lemma evolves_trans m1 m2 m3 : evolves m1 m2 -> evolves m2 m3 -> evolves m1 m3.
Proof.
  unfold evolves. intros (a1 & a2 & a3 & a4 & a5 & a6 & a7 & a8)
    (b1 & b2 & b3 & b4 & b5 & b6 & b7 & b8).
  repeat split; try congruence.
  intros q c Hq. destruct (a8 q c Hq) as (c' & Hc' & Hs).
  destruct (b8 q c' Hc') as (c'' & Hc'' & Hs'). exists c''. split; congruence.
Qed.

Lemma evolves_set_registry m p c c' :
  registry m !! p = Some c -> shape c' = shape c ->
  evolves m (set_registry (<[p := c']> (registry m)) m).
Proof.
  intros Hp Hs. unfold evolves. cbn [set_registry httpRequests httpDuration httpErrors
    applicationEvent serviceGauge histogramBuckets serviceName registry].
  repeat split; try reflexivity.
  intros q c0 Hq. destruct (decide (q = p)) as [-> |].
  - rewrite lookup_insert_eq. exists c'. split; congruence.
  - rewrite lookup_insert_ne by done. eauto.
Qed.

Lemma holdsCounter_shape reg p d :
  holdsCounter reg p d = true <-> shape <$> reg !! p = Some (0, d).
Proof.
  unfold holdsCounter. destruct (reg !! p) as [[v | v | v | d'] |]; simpl;
    rewrite ?bool_decide_eq_true; split; intros; simplify_eq; done.
Qed.

Lemma holdsHistogram_shape reg p d :
  holdsHistogram reg p d = true <-> shape <$> reg !! p = Some (1, d).
Proof.
  unfold holdsHistogram. destruct (reg !! p) as [[v | v | v | d'] |]; simpl;
    rewrite ?bool_decide_eq_true; split; intros; simplify_eq; done.
Qed.

Lemma holdsGauge_shape reg p d :
  holdsGauge reg p d = true <-> shape <$> reg !! p = Some (2, d).
Proof.
  unfold holdsGauge. destruct (reg !! p) as [[v | v | v | d'] |]; simpl;
    rewrite ?bool_decide_eq_true; split; intros; simplify_eq; done.
Qed.

Lemma evolves_shape m m' q s :
  evolves m m' -> shape <$> registry m !! q = Some s -> shape <$> registry m' !! q = Some s.
Proof.
  intros (_ & _ & _ & _ & _ & _ & _ & H) Hq.
  destruct (registry m !! q) as [c |] eqn:Hc; [| done].
  destruct (H q c Hc) as (c' & -> & Hs). simpl in *. congruence.
Qed.

(** Well-formedness is an invariant of everything that [evolves]. *)
Lemma wf_evolves m m' : evolves m m' -> wf m = true -> wf m' = true.
Proof.
  intros Hev. pose proof Hev as (e1 & e2 & e3 & e4 & e5 & _ & _ & _).
  unfold wf. rewrite !andb_true_iff, !bool_decide_eq_true.
  rewrite e1, e2, e3, e4, e5.
  rewrite !holdsCounter_shape, !holdsHistogram_shape, !holdsGauge_shape.
  intros (((((((((? & ?) & ?) & ?) & ?) & ?) & ?) & ?) & ?) & ?).
  repeat split; try done; by eapply evolves_shape.
Qed.

Lemma counterInc_bump p lvs m d :
  holdsCounter (registry m) p d = true ->
  length lvs = length (variableLabels d) ->
  counterInc p lvs m = Ok (bumpCounter p lvs m).
Proof.
  unfold holdsCounter. intros Hh Hlen. unfold_obs.
  destruct (registry m !! p) as [[v | | |] |]; try done.
  apply bool_decide_eq_true in Hh. unfold cardinalityOk.
  rewrite Hh, bool_decide_eq_true_2 by done. reflexivity.
Qed.

Lemma bumpCounter_value p lvs m d :
  holdsCounter (registry m) p d = true ->
  length lvs = length (variableLabels d) ->
  counterValue (bumpCounter p lvs m) p lvs = N.succ (counterValue m p lvs).
Proof.
  unfold holdsCounter, counterValue. intros Hh Hlen. unfold_obs.
  destruct (registry m !! p) as [[v | | |] |] eqn:Hp; try done.
  apply bool_decide_eq_true in Hh. unfold cardinalityOk.
  rewrite Hh, bool_decide_eq_true_2 by done.
  cbn [registry set_registry]. rewrite lookup_insert_eq. cbn [c_children].
  by rewrite lookup_insert_eq.
Qed.

Lemma bumpCounter_other p lvs m q l :
  (q, l) <> (p, lvs) -> counterValue (bumpCounter p lvs m) q l = counterValue m q l.
Proof.
  intros Hne. unfold counterValue. unfold_obs.
  destruct (registry m !! p) as [[v | | |] |] eqn:Hp; try done.
  destruct (cardinalityOk _ _); [| done].
  cbn [registry set_registry]. destruct (decide (q = p)) as [-> |].
  - rewrite lookup_insert_eq, Hp. cbn [c_children].
    rewrite lookup_insert_ne; [done | congruence].
  - by rewrite lookup_insert_ne.
Qed.

Lemma bumpCounter_lookup p lvs m q :
  q <> p -> registry (bumpCounter p lvs m) !! q = registry m !! q.
Proof.
  intros Hne. unfold_obs.
  destruct (registry m !! p) as [[v | | |] |] eqn:Hp; try done.
  destruct (cardinalityOk _ _); [| done].
  cbn [registry set_registry]. by rewrite lookup_insert_ne.
Qed.

Lemma bumpCounter_evolves p lvs m : evolves m (bumpCounter p lvs m).
Proof.
  unfold_obs.
  destruct (registry m !! p) as [[v | | |] |] eqn:Hp; try apply evolves_refl.
  destruct (cardinalityOk _ _); [| apply evolves_refl].
  eapply evolves_set_registry; [exact Hp | reflexivity].
Qed.

Lemma bumpCounter_histogramCount p lvs m q l :
  histogramCount (bumpCounter p lvs m) q l = histogramCount m q l.
Proof.
  unfold histogramCount. unfold_obs.
  destruct (registry m !! p) as [[v | | |] |] eqn:Hp; try done.
  destruct (cardinalityOk _ _); [| done].
  cbn [registry set_registry]. destruct (decide (q = p)) as [-> |].
  - by rewrite lookup_insert_eq, Hp.
  - by rewrite lookup_insert_ne.
Qed.

Lemma bumpCounter_gaugeValue p lvs m q l :
  gaugeValue (bumpCounter p lvs m) q l = gaugeValue m q l.
Proof.
  unfold gaugeValue. unfold_obs.
  destruct (registry m !! p) as [[v | | |] |] eqn:Hp; try done.
  destruct (cardinalityOk _ _); [| done].
  cbn [registry set_registry]. destruct (decide (q = p)) as [-> |].
  - by rewrite lookup_insert_eq, Hp.
  - by rewrite lookup_insert_ne.
Qed.

Lemma histogramObserve_add p lvs x m d :
  holdsHistogram (registry m) p d = true ->
  length lvs = length (variableLabels d) ->
  histogramObserve p lvs x m = Ok (addSample p lvs x m).
Proof.
  unfold holdsHistogram. intros Hh Hlen. unfold_obs.
  destruct (registry m !! p) as [[| v | |] |]; try done.
  apply bool_decide_eq_true in Hh. unfold cardinalityOk.
  rewrite Hh, bool_decide_eq_true_2 by done. reflexivity.
Qed.

Lemma addSample_count p lvs x m d :
  holdsHistogram (registry m) p d = true ->
  length lvs = length (variableLabels d) ->
  histogramCount (addSample p lvs x m) p lvs = S (histogramCount m p lvs).
Proof.
  unfold holdsHistogram, histogramCount. intros Hh Hlen. unfold_obs.
  destruct (registry m !! p) as [[| v | |] |] eqn:Hp; try done.
  apply bool_decide_eq_true in Hh. unfold cardinalityOk.
  rewrite Hh, bool_decide_eq_true_2 by done.
  cbn [registry set_registry]. rewrite lookup_insert_eq. cbn [h_children].
  rewrite lookup_insert_eq. simpl. rewrite length_app. simpl. lia.
Qed.

Lemma addSample_count_other p lvs x m q l :
  (q, l) <> (p, lvs) -> histogramCount (addSample p lvs x m) q l = histogramCount m q l.
Proof.
  intros Hne. unfold histogramCount. unfold_obs.
  destruct (registry m !! p) as [[| v | |] |] eqn:Hp; try done.
  destruct (cardinalityOk _ _); [| done].
  cbn [registry set_registry]. destruct (decide (q = p)) as [-> |].
  - rewrite lookup_insert_eq, Hp. cbn [h_children].
    rewrite lookup_insert_ne; [done | congruence].
  - by rewrite lookup_insert_ne.
Qed.

Lemma addSample_lookup p lvs x m q :
  q <> p -> registry (addSample p lvs x m) !! q = registry m !! q.
Proof.
  intros Hne. unfold_obs.
  destruct (registry m !! p) as [[| v | |] |] eqn:Hp; try done.
  destruct (cardinalityOk _ _); [| done].
  cbn [registry set_registry]. by rewrite lookup_insert_ne.
Qed.

Lemma addSample_evolves p lvs x m : evolves m (addSample p lvs x m).
Proof.
  unfold_obs.
  destruct (registry m !! p) as [[| v | |] |] eqn:Hp; try apply evolves_refl.
  destruct (cardinalityOk _ _); [| apply evolves_refl].
  eapply evolves_set_registry; [exact Hp | reflexivity].
Qed.

Lemma addSample_counterValue p lvs x m q l :
  counterValue (addSample p lvs x m) q l = counterValue m q l.
Proof.
  unfold counterValue. unfold_obs.
  destruct (registry m !! p) as [[| v | |] |] eqn:Hp; try done.
  destruct (cardinalityOk _ _); [| done].
  cbn [registry set_registry]. destruct (decide (q = p)) as [-> |].
  - by rewrite lookup_insert_eq, Hp.
  - by rewrite lookup_insert_ne.
Qed.

Lemma addSample_gaugeValue p lvs x m q l :
  gaugeValue (addSample p lvs x m) q l = gaugeValue m q l.
Proof.
  unfold gaugeValue. unfold_obs.
  destruct (registry m !! p) as [[| v | |] |] eqn:Hp; try done.
  destruct (cardinalityOk _ _); [| done].
  cbn [registry set_registry]. destruct (decide (q = p)) as [-> |].
  - by rewrite lookup_insert_eq, Hp.
  - by rewrite lookup_insert_ne.
Qed.

(** ** The status-capturing writer *)

Section Writer.
Context {W : Type} {HW : ResponseWriter W}.

Lemma apply_call_statusCode (rw : responseWriter W) c :
  statusCode (apply_call rw c) = status_step (statusCode rw) c.
Proof.
  destruct c as [code | b | key value |]; simpl; try reflexivity.
  unfold responseWriter_Write. by destruct (rw_Write b (ResponseWriter_ rw)).
Qed.

Lemma apply_call_inner (rw : responseWriter W) c :
  c <> Flush -> ResponseWriter_ (apply_call rw c) = apply_call (ResponseWriter_ rw) c.
Proof.
  destruct c as [code | b | key value |]; simpl; try done.
  unfold responseWriter_Write. by destruct (rw_Write b (ResponseWriter_ rw)).
Qed.

Lemma replay_statusCode cs : forall rw : responseWriter W,
  statusCode (replay cs rw) = capture cs (statusCode rw).
Proof.
  induction cs as [| c cs IH]; intros rw; [reflexivity |].
  unfold replay, capture in *. simpl. by rewrite IH, apply_call_statusCode.
Qed.

Lemma replay_inner cs : forall rw : responseWriter W,
  Flush ∉ cs -> ResponseWriter_ (replay cs rw) = replay cs (ResponseWriter_ rw).
Proof.
  induction cs as [| c cs IH]; intros rw Hnf; [reflexivity |].
  apply not_elem_of_cons in Hnf as [Hc Hcs].
  unfold replay in *. simpl. rewrite IH by done.
  by rewrite apply_call_inner.
Qed.

(** The handler never finds [http.Flusher] behind the decorator. *)
Lemma transcript_wrapper_no_Flush reg h : forall rw : responseWriter W,
  Flush ∉ transcript reg h rw.
Proof.
  induction h as [| | code k IH | b k IH | key value k IH | key k IH | k IH | e k IH | k IH];
    intros rw; simpl.
  - apply not_elem_of_nil.
  - apply not_elem_of_nil.
  - apply not_elem_of_cons. split; [done | apply IH].
  - destruct (responseWriter_Write b rw) as [rw' [n err]].
    apply not_elem_of_cons. split; [done | apply IH].
  - apply not_elem_of_cons. split; [done | apply IH].
  - apply IH.
  - apply IH.
  - apply IH.
  - apply IH.
Qed.
End Writer.

(** Whatever the writer, it ends as the replay of the calls made on it. *)
Lemma run_replay {W : Type} `{ResponseWriter W} reg h : forall (w : W) fx,
  (run reg h w fx).1.1 = replay (transcript reg h w) w.
Proof.
  induction h as [| | code k IH | b k IH | key value k IH | key k IH | k IH | e k IH | k IH];
    intros w fx; simpl; try done.
  - destruct (rw_Write b w) as [w' [n err]] eqn:Hw. rewrite IH.
    unfold replay. simpl. by rewrite Hw.
  - destruct rw_Flusher as [flush |] eqn:Hf.
    + rewrite IH. unfold replay. simpl. by rewrite Hf.
    + apply IH.
Qed.

(** The decorator receives the calls of the handler and passes each of them
    on, unchanged and in order; its captured status is [capture] of them. *)
Lemma run_wrapper {W : Type} `{ResponseWriter W} reg h (w : W) sc fx :
  let cs := transcript reg h (mkResponseWriter w sc) in
  let rw' := (run reg h (mkResponseWriter w sc) fx).1.1 in
  ResponseWriter_ rw' = replay cs w /\ statusCode rw' = capture cs sc.
Proof.
  intros cs rw'. subst rw'. rewrite run_replay. fold cs. split.
  - rewrite replay_inner; [done | apply transcript_wrapper_no_Flush].
  - by rewrite replay_statusCode.
Qed.

(** A handler that keeps to the three interface methods cannot tell the
    decorator from the writer behind it. *)
Lemma run_interface_only {W : Type} `{ResponseWriter W} reg h :
  interface_only h -> forall (w : W) sc fx,
  transcript reg h (mkResponseWriter w sc) = transcript reg h w
  /\ ResponseWriter_ (run reg h (mkResponseWriter w sc) fx).1.1 = (run reg h w fx).1.1
  /\ (run reg h (mkResponseWriter w sc) fx).1.2 = (run reg h w fx).1.2
  /\ (run reg h (mkResponseWriter w sc) fx).2 = (run reg h w fx).2.
Proof.
  induction h as [| | code k IH | b k IH | key value k IH | key k IH | k IH | e k IH | k IH];
    intros Hio w sc fx; simpl in *; try done.
  - unfold responseWriter_WriteHeader. simpl.
    destruct (IH Hio (rw_WriteHeader code w) code fx) as (-> & ? & ? & ?). done.
  - unfold responseWriter_Write. simpl.
    destruct (rw_Write b w) as [w' [n err]].
    destruct (IH n err (Hio n err) w' (if (sc =? 0)%Z then StatusOK else sc) fx)
      as (-> & ? & ? & ?). done.
  - destruct (IH Hio (rw_SetHeader (<[key := [value]]> (rw_Header w)) w) sc fx)
      as (-> & ? & ? & ?). done.
  - apply IH, Hio.
  - apply IH, Hio.
  - apply IH, Hio.
Qed.

(** A handler that never scrapes runs the same whatever the registry holds. *)
Lemma run_scrape_free {W : Type} `{ResponseWriter W} reg1 reg2 h :
  scrape_free h -> forall (w : W) fx, run reg1 h w fx = run reg2 h w fx.
Proof.
  induction h as [| | code k IH | b k IH | key value k IH | key k IH | k IH | e k IH | k IH];
    intros Hsf w fx; simpl in *; try done.
  - by apply IH.
  - destruct (rw_Write b w) as [w' [n err]]. by apply IH.
  - by apply IH.
  - by apply IH.
  - destruct rw_Flusher; by apply IH.
  - by apply IH.
Qed.

(** ** The instrumented handler *)

Lemma wf_inv m :
  wf m = true ->
  (httpRequests m = "nexen_service_http_requests_total"
   /\ httpDuration m = "nexen_service_http_request_duration_seconds"
   /\ httpErrors m = "nexen_service_http_errors_total"
   /\ applicationEvent m = "nexen_service_application_events_total"
   /\ serviceGauge m = "nexen_service_gauge")
  /\ holdsCounter (registry m) (httpRequests m) (c_desc httpRequestsVec) = true
  /\ holdsHistogram (registry m) (httpDuration m) (h_desc (httpDurationVec None)) = true
  /\ holdsCounter (registry m) (httpErrors m) (c_desc httpErrorsVec) = true
  /\ holdsCounter (registry m) (applicationEvent m) (c_desc applicationEventVec) = true
  /\ holdsGauge (registry m) (serviceGauge m) (g_desc serviceGaugeVec) = true.
Proof.
  unfold wf. rewrite !andb_true_iff, !bool_decide_eq_true. tauto.
Qed.

(** On a well-formed receiver no observation of the middleware panics, and
    one call goes through the following states. *)
Lemma Instrument_unfold {W : Type} `{ResponseWriter W} next m (w : W) r fx elapsed :
  wf m = true ->
  Instrument next m w r fx elapsed =
    let '(rw', fx', out) := run (registry (counted m r)) (next r) (mkResponseWriter w 0) fx in
    match out with
    | Panicked => mkServed (counted m r) (ResponseWriter_ rw') fx' (statusCode rw') Panicked
    | Returned =>
        if (400 <=? statusCode rw')%Z
        then mkServed
               (bumpCounter (httpErrors m) (error_labels m r (statusCode rw'))
                  (timed m r elapsed))
               (ResponseWriter_ rw') fx' (statusCode rw') Returned
        else mkServed (timed m r elapsed) (ResponseWriter_ rw') fx' (statusCode rw') Returned
    end.
Proof.
  intros Hwf. unfold Instrument, timed, counted, request_labels, error_labels.
  pose proof (wf_inv _ Hwf) as (_ & Hreq & _).
  rewrite (counterInc_bump _ _ _ _ Hreq) by reflexivity.
  set (m1 := bumpCounter _ _ m).
  assert (Hev1 : evolves m m1) by apply bumpCounter_evolves.
  pose proof (wf_evolves _ _ Hev1 Hwf) as Hwf1.
  pose proof Hev1 as (_ & e2 & e3 & _ & _ & _ & e7 & _).
  destruct (run (registry m1) (next r) _ fx) as [[rw' fx'] out].
  destruct out; [| reflexivity].
  pose proof (wf_inv _ Hwf1) as (_ & _ & Hdur & _).
  rewrite (histogramObserve_add _ _ _ _ _ Hdur) by reflexivity.
  rewrite e2, e7.
  set (m2 := addSample _ _ _ m1).
  assert (Hev2 : evolves m1 m2) by apply addSample_evolves.
  pose proof (wf_evolves _ _ Hev2 Hwf1) as Hwf2.
  pose proof Hev2 as (_ & _ & f3 & _ & _ & _ & f7 & _).
  destruct (400 <=? statusCode rw')%Z; [| reflexivity].
  pose proof (wf_inv _ Hwf2) as (_ & _ & _ & Herr & _).
  rewrite (counterInc_bump _ _ _ _ Herr) by reflexivity.
  rewrite f3, f7, e3, e7. reflexivity.
Qed.

Lemma Instrument_evolves {W : Type} `{ResponseWriter W} next m (w : W) r fx elapsed :
  wf m = true -> evolves m (metrics_after (Instrument next m w r fx elapsed)).
Proof.
  intros Hwf. rewrite Instrument_unfold by done.
  destruct (run _ _ _ _) as [[rw' fx'] out].
  assert (evolves m (counted m r)) by apply bumpCounter_evolves.
  assert (evolves m (timed m r elapsed)).
  { eapply evolves_trans; [eassumption | apply addSample_evolves]. }
  destruct out; [| done].
  destruct (400 <=? statusCode rw')%Z; [| done].
  eapply evolves_trans; [eassumption | apply bumpCounter_evolves].
Qed.

Lemma counted_errors m r l :
  wf m = true ->
  counterValue (counted m r) (httpErrors m) l = counterValue m (httpErrors m) l.
Proof.
  intros Hwf. pose proof (wf_inv _ Hwf) as ((e1 & _ & e3 & _) & _).
  apply bumpCounter_other. rewrite e1, e3. by intros [= ? ?].
Qed.

Lemma timed_errors m r elapsed l :
  wf m = true ->
  counterValue (timed m r elapsed) (httpErrors m) l = counterValue m (httpErrors m) l.
Proof.
  intros Hwf. unfold timed. rewrite addSample_counterValue. by apply counted_errors.
Qed.

Lemma timed_wf m r elapsed : wf m = true -> wf (timed m r elapsed) = true.
Proof.
  intros Hwf. eapply wf_evolves; [| exact Hwf].
  eapply evolves_trans; [apply bumpCounter_evolves | apply addSample_evolves].
Qed.

Lemma timed_evolves m r elapsed : evolves m (timed m r elapsed).
Proof. eapply evolves_trans; [apply bumpCounter_evolves | apply addSample_evolves]. Qed.

(** A call that returned with a captured status of 400 or more has added
    one to the error counter under the labels of the request and the status,
    and nothing to its other entries. *)
Lemma Instrument_errors_high {W : Type} `{ResponseWriter W} next m (w : W) r fx elapsed :
  wf m = true ->
  let s := Instrument next m w r fx elapsed in
  result_of_call s = Returned ->
  (400 <= status_captured s)%Z ->
  counterValue (metrics_after s) (httpErrors m) (error_labels m r (status_captured s))
  = N.succ (counterValue m (httpErrors m) (error_labels m r (status_captured s)))
  /\ forall l, l <> error_labels m r (status_captured s) ->
       counterValue (metrics_after s) (httpErrors m) l = counterValue m (httpErrors m) l.
Proof.
  intros Hwf s. subst s. rewrite Instrument_unfold by done.
  destruct (run _ _ _ _) as [[rw' fx'] out].
  destruct out; [| discriminate].
  pose proof (timed_wf m r elapsed Hwf) as Hwf2.
  pose proof (timed_evolves m r elapsed) as (_ & _ & e3 & _).
  pose proof (wf_inv _ Hwf2) as (_ & _ & _ & Herr & _). rewrite e3 in Herr.
  destruct (400 <=? statusCode rw')%Z eqn:Hsc; cbn [metrics_after status_captured].
  - intros _ _. split.
    + rewrite (bumpCounter_value _ _ _ _ Herr) by reflexivity. by rewrite timed_errors.
    + intros l Hl. rewrite bumpCounter_other by congruence. by apply timed_errors.
  - apply Z.leb_gt in Hsc. lia.
Qed.

Lemma Instrument_errors_below {W : Type} `{ResponseWriter W} next m (w : W) r fx elapsed :
  wf m = true ->
  let s := Instrument next m w r fx elapsed in
  (status_captured s < 400)%Z ->
  forall l, counterValue (metrics_after s) (httpErrors m) l = counterValue m (httpErrors m) l.
Proof.
  intros Hwf s. subst s. rewrite Instrument_unfold by done.
  destruct (run _ _ _ _) as [[rw' fx'] out].
  destruct out; simpl.
  - destruct (400 <=? statusCode rw')%Z eqn:Hsc; simpl.
    + apply Z.leb_le in Hsc. lia.
    + intros _ l. by apply timed_errors.
  - intros _ l. by apply counted_errors.
Qed.

(** C3 as amended: for a request that the instrumented handler serves to
    the end, the wrapped handler having returned, a captured status of 400
    or more adds exactly one to the error counter under the labels (method,
    path, status text, service) and leaves every other entry of the error
    counter as it was, the text being "Internal Server Error" for status
    500; a captured status below 400 leaves the whole error counter as it
    was. *)
Theorem C3_error_counter {W : Type} `{ResponseWriter W}
    (next : Handler) (m : Metrics) (w : W) (r : Request) (fx : list string)
    (elapsed : float) :
  wf m = true ->
  let s := Instrument next m w r fx elapsed in
  result_of_call s = Returned ->
  let m' := metrics_after s in
  let status := status_captured s in
  ((400 <= status)%Z ->
     counterValue m' (httpErrors m) (error_labels m r status)
     = N.succ (counterValue m (httpErrors m) (error_labels m r status))
     /\ forall l, l <> error_labels m r status ->
          counterValue m' (httpErrors m) l = counterValue m (httpErrors m) l)
  /\ ((status < 400)%Z ->
        forall l, counterValue m' (httpErrors m) l = counterValue m (httpErrors m) l)
  /\ (status = 500%Z ->
        error_labels m r status
        = [Method r; URL_Path r; "Internal Server Error"; serviceName m]).
Proof.
  intros Hwf s Hret m' status. subst m' status.
  split; [| split].
  - intros Hhigh. by apply Instrument_errors_high.
  - intros Hlow. by apply Instrument_errors_below.
  - intros ->. reflexivity.
Qed.

Lemma C3_error_counter_witness :
  let m := Examples.test_metrics in
  let r := mkRequest "GET" "/error" in
  let s := Instrument (fun _ => CallWriteHeader 500 Return) m NewRecorder r [] 0.25%float in
  wf m = true
  /\ result_of_call s = Returned
  /\ status_captured s = 500%Z
  /\ counterValue (metrics_after s) (httpErrors m) (error_labels m r 500)
     = N.succ (counterValue m (httpErrors m) (error_labels m r 500)).
Proof.
  intros m r s.
  assert (Hwf : wf m = true) by (vm_cast_no_check (eq_refl true)).
  assert (Hret : result_of_call s = Returned) by (vm_cast_no_check (eq_refl Returned)).
  assert (Hst : status_captured s = 500%Z) by (vm_cast_no_check (eq_refl 500%Z)).
  destruct (C3_error_counter (fun _ => CallWriteHeader 500 Return) m NewRecorder r []
              0.25%float Hwf Hret) as (Hhigh & _ & _).
  fold s in Hhigh. rewrite Hst in Hhigh.
  destruct (Hhigh ltac:(lia)) as [Hinc _].
  split; [exact Hwf |]. split; [exact Hret |]. split; [exact Hst |].
  exact Hinc.
Defined.

(** C3 as stated fails: a wrapped handler that sets status 500 and then
    panics has been processed by the instrumented handler, which counted the
    request, passed the 500 on to the client and captured it; but the panic
    leaves the instrumented handler before the error counter is reached, and
    the entry of the request reads what it read before. *)
Lemma C3_counterexample :
  let m := Examples.test_metrics in
  let r := mkRequest "GET" "/crash" in
  let next : Handler := fun _ => CallWriteHeader 500 PanicNow in
  let s := Instrument next m NewRecorder r [] 0.25%float in
  wf m = true
  /\ (400 <= status_captured s)%Z
  /\ status_captured s = 500%Z
  /\ Code (writer_after s) = 500%Z
  /\ result_of_call s = Panicked
  /\ counterValue (metrics_after s) (httpRequests m) (request_labels m r)
     = N.succ (counterValue m (httpRequests m) (request_labels m r))
  /\ counterValue m (httpErrors m) (error_labels m r 500) = 0%N
  /\ counterValue (metrics_after s) (httpErrors m) (error_labels m r 500) = 0%N.
Proof.
  intros m r next s.
  split; [vm_cast_no_check (eq_refl true) |].
  assert (Hst : status_captured s = 500%Z) by (vm_cast_no_check (eq_refl 500%Z)).
  split; [rewrite Hst; lia |]. split; [exact Hst |].
  split; [vm_cast_no_check (eq_refl 500%Z) |].
  split; [vm_cast_no_check (eq_refl Panicked) |].
  split; [vm_cast_no_check (eq_refl 1%N) |].
  split; vm_cast_no_check (eq_refl 0%N).
Qed.

(** What one instrumented call leaves outside the registry: the calls of the
    wrapped handler replayed on the writer, their captured status, and the
    effects and the outcome of the wrapped handler's run on the decorator. *)
Lemma Instrument_writer {W : Type} `{ResponseWriter W} next m (w : W) r fx elapsed :
  wf m = true ->
  let cs := transcript (registry (counted m r)) (next r) (mkResponseWriter w 0) in
  let inner := run (registry (counted m r)) (next r) (mkResponseWriter w 0) fx in
  let s := Instrument next m w r fx elapsed in
  writer_after s = replay cs w
  /\ status_captured s = capture cs 0
  /\ effects_after s = inner.1.2
  /\ result_of_call s = inner.2.
Proof.
  intros Hwf cs inner s. subst s. rewrite Instrument_unfold by done.
  destruct (run_wrapper (registry (counted m r)) (next r) w 0 fx) as [Hw Hs].
  fold cs inner in Hw, Hs |- *.
  destruct inner as [[rw' fx'] out]. simpl in Hw, Hs.
  destruct out; [destruct (400 <=? statusCode rw')%Z |]; simpl; done.
Qed.

Lemma capture_no_SetStatus cs : forall sc,
  (forall c, c ∈ cs -> is_SetStatus c = false) ->
  capture cs sc
  = if existsb is_WriteBody cs then (if (sc =? 0)%Z then StatusOK else sc) else sc.
Proof.
  induction cs as [| c cs IH]; intros sc Hno; [reflexivity |].
  unfold capture in *. simpl fold_left. rewrite IH by (intros; apply Hno; set_solver).
  assert (Hc : is_SetStatus c = false) by (apply Hno; set_solver).
  destruct c; simpl in *; try done.
  destruct (existsb _ _); [| done].
  destruct (sc =? 0)%Z eqn:Hz; [done |]. by rewrite Hz.
Qed.

(** C4: when the wrapped handler writes body bytes and makes no explicit
    set-status call, the captured status is 200, the writer behind the
    decorator has received exactly the calls the handler made, each write
    giving the handler what the writer behind returned, and the error counter
    is as it was before the request. *)
Theorem C4_implicit_success {W : Type} `{ResponseWriter W}
    (next : Handler) (m : Metrics) (w : W) (r : Request) (fx : list string)
    (elapsed : float) :
  wf m = true ->
  let cs := transcript (registry (counted m r)) (next r) (mkResponseWriter w 0) in
  (forall c, c ∈ cs -> is_SetStatus c = false) ->
  (exists b, WriteBody b ∈ cs) ->
  let s := Instrument next m w r fx elapsed in
  status_captured s = StatusOK
  /\ writer_after s = replay cs w
  /\ (forall b (rw : responseWriter W),
        ResponseWriter_ (responseWriter_Write b rw).1 = (rw_Write b (ResponseWriter_ rw)).1
        /\ (responseWriter_Write b rw).2 = (rw_Write b (ResponseWriter_ rw)).2)
  /\ forall l, counterValue (metrics_after s) (httpErrors m) l
               = counterValue m (httpErrors m) l.
Proof.
  intros Hwf cs Hno [b Hb] s.
  destruct (Instrument_writer next m w r fx elapsed Hwf) as (Hw & Hs & _ & _).
  fold cs s in Hw, Hs.
  assert (Hst : status_captured s = StatusOK).
  { rewrite Hs, capture_no_SetStatus by done.
    assert (Hex : existsb is_WriteBody cs = true).
    { apply existsb_exists. exists (WriteBody b). split; [| done].
      by apply list_elem_of_In. }
    by rewrite Hex. }
  split; [exact Hst |]. split; [exact Hw |]. split.
  - intros b' rw. unfold responseWriter_Write.
    by destruct (rw_Write b' (ResponseWriter_ rw)).
  - apply Instrument_errors_below; [done |]. fold s. rewrite Hst. done.
Qed.

Lemma C4_implicit_success_witness :
  let m := Examples.test_metrics in
  let r := mkRequest "GET" "/success" in
  let next : Handler := fun _ => CallWrite [x68; x69]%byte (fun _ _ => Return) in
  let s := Instrument next m NewRecorder r [] 0.25%float in
  status_captured s = StatusOK
  /\ Body (writer_after s) = [x68; x69]%byte
  /\ Code (writer_after s) = 200%Z.
Proof.
  intros m r next s.
  assert (Hwf : wf m = true) by (vm_cast_no_check (eq_refl true)).
  assert (Hcs : transcript (registry (counted m r)) (next r) (mkResponseWriter NewRecorder 0)
                = [WriteBody [x68; x69]%byte]) by reflexivity.
  destruct (C4_implicit_success next m NewRecorder r [] 0.25%float Hwf) as (Hst & Hw & _).
  - rewrite Hcs. intros c Hc. apply list_elem_of_singleton in Hc. by subst c.
  - exists [x68; x69]%byte. rewrite Hcs. by apply list_elem_of_singleton.
  - fold s in Hst, Hw. rewrite Hcs in Hw.
    split; [exact Hst |]. rewrite Hw. split; reflexivity.
Defined.

(** ** Counting requests *)

Lemma counted_requests m r :
  wf m = true ->
  counterValue (counted m r) (httpRequests m) (request_labels m r)
  = N.succ (counterValue m (httpRequests m) (request_labels m r)).
Proof.
  intros Hwf. pose proof (wf_inv _ Hwf) as (_ & Hreq & _).
  unfold counted. by rewrite (bumpCounter_value _ _ _ _ Hreq).
Qed.

Lemma counted_histogramCount m r q l :
  histogramCount (counted m r) q l = histogramCount m q l.
Proof. apply bumpCounter_histogramCount. Qed.

(** One call adds one to the request counter whatever the wrapped handler
    does, and one sample to the duration histogram when the wrapped handler
    returns. *)
Lemma Instrument_counts {W : Type} `{ResponseWriter W} next m (w : W) r fx elapsed :
  wf m = true ->
  let s := Instrument next m w r fx elapsed in
  counterValue (metrics_after s) (httpRequests m) (request_labels m r)
  = N.succ (counterValue m (httpRequests m) (request_labels m r))
  /\ histogramCount (metrics_after s) (httpDuration m) (request_labels m r)
     = match result_of_call s with
       | Returned => S (histogramCount m (httpDuration m) (request_labels m r))
       | Panicked => histogramCount m (httpDuration m) (request_labels m r)
       end.
Proof.
  intros Hwf s. subst s. rewrite Instrument_unfold by done.
  destruct (run _ _ _ _) as [[rw' fx'] out].
  pose proof (wf_inv _ Hwf) as ((e1 & e2 & e3 & _) & _).
  assert (Hwf1 : wf (counted m r) = true).
  { eapply wf_evolves; [apply bumpCounter_evolves | done]. }
  pose proof (bumpCounter_evolves (httpRequests m) (request_labels m r) m)
    as (_ & f2 & _ & _ & _ & _ & _ & _).
  pose proof (wf_inv _ Hwf1) as (_ & _ & Hdur & _). fold (counted m r) in f2.
  rewrite f2 in Hdur.
  assert (Htimed_req :
    counterValue (timed m r elapsed) (httpRequests m) (request_labels m r)
    = N.succ (counterValue m (httpRequests m) (request_labels m r))).
  { unfold timed. rewrite addSample_counterValue. by apply counted_requests. }
  assert (Htimed_dur :
    histogramCount (timed m r elapsed) (httpDuration m) (request_labels m r)
    = S (histogramCount m (httpDuration m) (request_labels m r))).
  { unfold timed. rewrite (addSample_count _ _ _ _ _ Hdur) by reflexivity.
    by rewrite counted_histogramCount. }
  destruct out; [destruct (400 <=? statusCode rw')%Z |]; cbn [metrics_after result_of_call].
  - rewrite bumpCounter_histogramCount. split; [| done].
    rewrite bumpCounter_other; [done |]. rewrite e1, e3. by intros [= ? ?].
  - done.
  - rewrite counted_histogramCount. split; [| done]. by apply counted_requests.
Qed.

Lemma serve_all_counts {W : Type} `{ResponseWriter W} next method path
    (reqs : list (W * Request * float)) : forall m fx,
  wf m = true ->
  Forall (fun q => Method q.1.2 = method /\ URL_Path q.1.2 = path) reqs ->
  Forall (fun o => o = Returned) (serve_all next m fx reqs).2 ->
  let m' := (serve_all next m fx reqs).1 in
  evolves m m'
  /\ counterValue m' (httpRequests m) [method; path; serviceName m]
     = (counterValue m (httpRequests m) [method; path; serviceName m]
        + N.of_nat (length reqs))%N
  /\ histogramCount m' (httpDuration m) [method; path; serviceName m]
     = histogramCount m (httpDuration m) [method; path; serviceName m] + length reqs.
Proof.
  induction reqs as [| [[w r] elapsed] reqs IH]; intros m fx Hwf Hreqs Houts; simpl.
  - split; [apply evolves_refl |]. split; [by rewrite N.add_0_r | lia].
  - simpl in Houts.
    set (s := Instrument next m w r fx elapsed) in *.
    pose proof (Instrument_evolves next m w r fx elapsed Hwf) as Hev. fold s in Hev.
    pose proof (wf_evolves _ _ Hev Hwf) as Hwf'.
    destruct (serve_all next (metrics_after s) (effects_after s) reqs) as [m' outs] eqn:Hrest.
    simpl in Houts |- *.
    apply Forall_cons in Houts as [Hret Houts].
    apply Forall_cons in Hreqs as [[Hm Hp] Hreqs]. simpl in Hm, Hp.
    specialize (IH (metrics_after s) (effects_after s) Hwf' Hreqs).
    rewrite Hrest in IH. simpl in IH. destruct (IH Houts) as (Hev' & Hc & Hh).
    pose proof Hev as (e1 & e2 & _ & _ & _ & _ & e7 & _).
    rewrite e1, e2, e7 in *.
    destruct (Instrument_counts next m w r fx elapsed Hwf) as [Hc1 Hh1].
    fold s in Hc1, Hh1. rewrite Hret in Hh1.
    unfold request_labels in Hc1, Hh1. rewrite Hm, Hp in Hc1, Hh1.
    split; [by eapply evolves_trans |]. split.
    + rewrite Hc, Hc1. lia.
    + rewrite Hh, Hh1. lia.
Qed.

(** On a receiver that [New] has just returned, the standard vectors have no
    children yet. *)
Lemma New_fresh opts m l :
  New opts = Ok m ->
  counterValue m (httpRequests m) l = 0%N
  /\ histogramCount m (httpDuration m) l = 0
  /\ counterValue m (httpErrors m) l = 0%N.
Proof.
  intros Hnew. destruct (New_inv _ _ Hnew) as (base & _ & ->).
  destruct (standard_registry_lookup
              (histogramBuckets
                 (fold_left (fun m opt => opt m) opts
                    (mkMetrics NewRegistry "" "" "" "" ""
                       (Some internal.DefaultHTTPBuckets) "default"))) base)
    as (H1 & H2 & H3 & _).
  unfold counterValue, histogramCount.
  cbn [registry httpRequests httpDuration httpErrors].
  rewrite H1, H2, H3. done.
Qed.

(** C6: after the instrumented handler has served N requests to one method
    and path, none of which ended in a panic, the request counter for
    (method, path, service) has grown by exactly N and so has the sample
    count of the duration histogram, so that both read N on a receiver that
    New had just returned.  The request counter is incremented before the
    wrapped handler runs: the registry that the wrapped handler can scrape
    already counts the request, and has no sample for it yet. *)
Theorem C6_request_and_duration_counts {W : Type} `{ResponseWriter W}
    (next : Handler) (m : Metrics) (fx : list string)
    (reqs : list (W * Request * float)) (method path : string) :
  wf m = true ->
  Forall (fun q => Method q.1.2 = method /\ URL_Path q.1.2 = path) reqs ->
  Forall (fun o => o = Returned) (serve_all next m fx reqs).2 ->
  let m' := (serve_all next m fx reqs).1 in
  let labels := [method; path; serviceName m] in
  (counterValue m' (httpRequests m) labels
   = (counterValue m (httpRequests m) labels + N.of_nat (length reqs))%N
   /\ histogramCount m' (httpDuration m) labels
      = histogramCount m (httpDuration m) labels + length reqs)
  /\ (forall opts, New opts = Ok m ->
        counterValue m' (httpRequests m) labels = N.of_nat (length reqs)
        /\ histogramCount m' (httpDuration m) labels = length reqs)
  /\ (forall (w : W) r elapsed (k : Registry -> behaviour),
        Instrument (fun _ => Scrape k) m w r fx elapsed
        = Instrument (fun _ => k (registry (counted m r))) m w r fx elapsed
        /\ counterValue (counted m r) (httpRequests m) (request_labels m r)
           = N.succ (counterValue m (httpRequests m) (request_labels m r))
        /\ histogramCount (counted m r) (httpDuration m) (request_labels m r)
           = histogramCount m (httpDuration m) (request_labels m r)).
Proof.
  intros Hwf Hreqs Houts m' labels.
  destruct (serve_all_counts next method path reqs m fx Hwf Hreqs Houts) as (_ & Hc & Hh).
  fold m' labels in Hc, Hh.
  split; [done |]. split.
  - intros opts Hnew.
    destruct (New_fresh opts m labels Hnew) as (Hc0 & Hh0 & _).
    rewrite Hc, Hh, Hc0, Hh0. split; [by rewrite N.add_0_l | lia].
  - intros w r elapsed k. split; [| split].
    + rewrite !Instrument_unfold by done. reflexivity.
    + by apply counted_requests.
    + apply counted_histogramCount.
Qed.

Lemma C6_request_and_duration_counts_witness :
  let m := Examples.test_metrics in
  let next : Handler := fun _ => CallWriteHeader 200 Return in
  let reqs := [(NewRecorder, mkRequest "GET" "/health", 0.01%float);
               (NewRecorder, mkRequest "GET" "/health", 0.02%float)] in
  let m' := (serve_all next m [] reqs).1 in
  counterValue m' (httpRequests m) ["GET"; "/health"; serviceName m]
  = N.of_nat (length reqs)
  /\ histogramCount m' (httpDuration m) ["GET"; "/health"; serviceName m] = length reqs.
Proof.
  intros m next reqs m'.
  assert (Hwf : wf m = true) by (vm_cast_no_check (eq_refl true)).
  assert (Hreqs : Forall (fun q : ResponseRecorder * Request * float =>
                            Method q.1.2 = "GET" /\ URL_Path q.1.2 = "/health") reqs).
  { repeat constructor. }
  assert (Houts : Forall (fun o => o = Returned) (serve_all next m [] reqs).2).
  { vm_compute. repeat constructor. }
  destruct (C6_request_and_duration_counts next m [] reqs "GET" "/health" Hwf Hreqs Houts)
    as (_ & Hfresh & _).
  exact (Hfresh _ test_metrics_New).
Defined.

(** ** Transparency of the middleware *)

(** Outside the three instruments it observes on, one call leaves the
    registry alone. *)
Lemma Instrument_frame {W : Type} `{ResponseWriter W} next m (w : W) r fx elapsed q :
  wf m = true ->
  q <> httpRequests m -> q <> httpDuration m -> q <> httpErrors m ->
  registry (metrics_after (Instrument next m w r fx elapsed)) !! q = registry m !! q.
Proof.
  intros Hwf H1 H2 H3. rewrite Instrument_unfold by done.
  destruct (run _ _ _ _) as [[rw' fx'] out].
  assert (Hc : registry (counted m r) !! q = registry m !! q)
    by (by apply bumpCounter_lookup).
  assert (Ht : registry (timed m r elapsed) !! q = registry m !! q).
  { unfold timed. rewrite addSample_lookup by done. exact Hc. }
  destruct out; [destruct (400 <=? statusCode rw')%Z |]; cbn [metrics_after]; try done.
  by rewrite bumpCounter_lookup.
Qed.

(** Every status text is plain ASCII. *)
Lemma StatusText_valid code : utf8.ValidString (StatusText code) = true.
Proof.
  destruct code as [| p | p]; [reflexivity | | reflexivity].
  do 10 (destruct p as [p | p |]; try reflexivity).
Qed.

(** For an accepted request, the label values of the three observations of
    the middleware pass the library's check, whatever status was captured:
    the model of the observations and the library agree on them. *)
Lemma accepted_observations m r code :
  accepted m r = true ->
  validateLabelValues (c_desc httpRequestsVec) (request_labels m r) = true
  /\ validateLabelValues (h_desc (httpDurationVec None)) (request_labels m r) = true
  /\ validateLabelValues (c_desc httpErrorsVec) (error_labels m r code) = true.
Proof.
  unfold accepted, validateLabelValues, request_labels, error_labels.
  cbn [forallb]. rewrite !andb_true_iff. intros ((Hm & Hp & Hs & _) & _).
  rewrite Hm, Hp, Hs, StatusText_valid. done.
Qed.

(** C8 as amended: for a request for which the library accepts the
    observations of the middleware (method, path and service name are valid
    UTF-8, and the boundaries of the duration histogram increase), and a
    wrapped handler that uses its writer through the three methods of the
    writer interface only, the instrumented call leaves the writer, the
    handler's own side effects and the outcome exactly as the wrapped
    handler leaves them when it runs directly on the writer (a handler that
    scrapes the registry sees the request already counted, and for a handler
    that never does the registry plays no part).  What the call adds is
    confined to the request counter, the duration histogram and the error
    counter: every other collector of the registry and every other field of
    the receiver is as it was. *)
Theorem C8_transparent_for_interface_handlers {W : Type} `{ResponseWriter W}
    (next : Handler) (m : Metrics) (w : W) (r : Request) (fx : list string)
    (elapsed : float) :
  wf m = true ->
  accepted m r = true ->
  interface_only (next r) ->
  let s := Instrument next m w r fx elapsed in
  let direct := run (registry (counted m r)) (next r) w fx in
  writer_after s = direct.1.1
  /\ effects_after s = direct.1.2
  /\ result_of_call s = direct.2
  /\ (scrape_free (next r) -> direct = run (registry m) (next r) w fx)
  /\ evolves m (metrics_after s)
  /\ forall q, q <> httpRequests m -> q <> httpDuration m -> q <> httpErrors m ->
       registry (metrics_after s) !! q = registry m !! q.
Proof.
  intros Hwf _ Hio s direct.
  destruct (Instrument_writer next m w r fx elapsed Hwf) as (Hw & _ & Hfx & Hout).
  destruct (run_interface_only (registry (counted m r)) (next r) Hio w 0 fx)
    as (Ht & Hi & Hf & Ho).
  destruct (run_wrapper (registry (counted m r)) (next r) w 0 fx) as [Hrw _].
  fold s in Hw, Hfx, Hout. fold direct in Hi, Hf, Ho.
  split; [| split; [| split; [| split; [| split]]]].
  - rewrite Hw, <- Hi. symmetry. exact Hrw.
  - by rewrite Hfx.
  - by rewrite Hout.
  - intros Hsf. by apply run_scrape_free.
  - by apply Instrument_evolves.
  - intros q H1 H2 H3. by apply Instrument_frame.
Qed.

Lemma C8_transparent_for_interface_handlers_witness :
  let m := Examples.test_metrics in
  let r := mkRequest "GET" "/error" in
  let next : Handler := fun _ => CallWriteHeader 500 Return in
  let s := Instrument next m NewRecorder r [] 0.25%float in
  accepted m r = true
  /\ writer_after s = (run (registry m) (next r) NewRecorder []).1.1
  /\ Code (run (registry m) (next r) NewRecorder []).1.1 = 500%Z.
Proof.
  intros m r next s.
  assert (Hwf : wf m = true) by (vm_cast_no_check (eq_refl true)).
  assert (Hacc : accepted m r = true) by (vm_cast_no_check (eq_refl true)).
  destruct (C8_transparent_for_interface_handlers next m NewRecorder r [] 0.25%float
              Hwf Hacc I) as (Hw & _ & _ & Hdirect & _).
  split; [exact Hacc |].
  rewrite <- (Hdirect I). split; [exact Hw | reflexivity].
Defined.

(** C8 as stated fails: on a writer that can flush, the streaming handler
    answers 200 when it is called directly and 500 when it is called through
    the instrumented handler. *)
Lemma C8_counterexample :
  let m := Examples.test_metrics in
  let r := mkRequest "GET" "/events" in
  Code (run (registry m) (streaming_handler r) NewRecorder []).1.1 = 200%Z
  /\ Code (run (registry (counted m r)) (streaming_handler r) NewRecorder []).1.1 = 200%Z
  /\ Code (writer_after (Instrument streaming_handler m NewRecorder r [] 0.25%float))
     = 500%Z.
Proof.
  split; [reflexivity |]. split; [reflexivity |].
  vm_cast_no_check (eq_refl 500%Z).
Qed.

(** ** When the status is captured *)

Lemma capture_app cs1 cs2 sc : capture (cs1 ++ cs2) sc = capture cs2 (capture cs1 sc).
Proof. unfold capture. apply fold_left_app. Qed.

Lemma capture_keeps_nonzero cs : forall sc,
  (forall c, c ∈ cs -> is_SetStatus c = false) -> sc <> 0%Z -> capture cs sc = sc.
Proof.
  intros sc Hno Hnz. rewrite capture_no_SetStatus by done.
  destruct (existsb _ _); [| done]. by rewrite (proj2 (Z.eqb_neq sc 0) Hnz).
Qed.

(** C2 as amended: every explicit set-status call records its code, also
    over a status recorded earlier; a body write records 200 when nothing
    (zero) is recorded and otherwise changes nothing.  So the recorded status
    is the code of the last explicit set-status call when there is one and
    that code is not zero, and without any explicit call it is 200 after a
    body write and zero after none; a request with neither event is served
    with status zero recorded and the error counter untouched. *)
Theorem C2_recorded_status {W : Type} `{ResponseWriter W} (rw : responseWriter W) :
  (forall code, statusCode (responseWriter_WriteHeader code rw) = code)
  /\ (forall b, statusCode (responseWriter_Write b rw).1
               = if (statusCode rw =? 0)%Z then StatusOK else statusCode rw)
  /\ (forall before code after,
        (forall c, c ∈ after -> is_SetStatus c = false) -> code <> 0%Z ->
        statusCode (replay (before ++ SetStatus code :: after) rw) = code)
  /\ (forall cs,
        (forall c, c ∈ cs -> is_SetStatus c = false) -> statusCode rw = 0%Z ->
        statusCode (replay cs rw) = if existsb is_WriteBody cs then StatusOK else 0%Z)
  /\ (forall next m (w : W) r fx elapsed,
        wf m = true ->
        let cs := transcript (registry (counted m r)) (next r) (mkResponseWriter w 0) in
        let s := Instrument next m w r fx elapsed in
        (forall c, c ∈ cs -> is_SetStatus c = false /\ is_WriteBody c = false) ->
        status_captured s = 0%Z
        /\ forall l, counterValue (metrics_after s) (httpErrors m) l
                     = counterValue m (httpErrors m) l).
Proof.
  split; [reflexivity |]. split.
  { intros b. unfold responseWriter_Write. by destruct (rw_Write b (ResponseWriter_ rw)). }
  split.
  { intros before code after Hno Hnz.
    rewrite replay_statusCode, capture_app.
    change (capture (SetStatus code :: after) (capture before (statusCode rw)))
      with (capture after code).
    by apply capture_keeps_nonzero. }
  split.
  { intros cs Hno Hz. rewrite replay_statusCode, capture_no_SetStatus by done.
    rewrite Hz. reflexivity. }
  intros next m w r fx elapsed Hwf cs s Hquiet.
  destruct (Instrument_writer next m w r fx elapsed Hwf) as (_ & Hs & _).
  fold cs s in Hs.
  assert (Hst : status_captured s = 0%Z).
  { rewrite Hs, capture_no_SetStatus by (intros c Hc; by apply Hquiet).
    assert (Hex : existsb is_WriteBody cs = false).
    { apply not_true_is_false. intros Hex. apply existsb_exists in Hex as (c & Hc & Hw).
      apply list_elem_of_In in Hc. destruct (Hquiet c Hc). congruence. }
    by rewrite Hex. }
  split; [exact Hst |].
  apply Instrument_errors_below; [done |]. fold s. rewrite Hst. done.
Qed.

Lemma C2_recorded_status_witness :
  let rw := mkResponseWriter NewRecorder 0 in
  statusCode (replay [WriteBody [x68]%byte; SetStatus 404; WriteBody [x69]%byte] rw)
  = 404%Z.
Proof.
  intros rw.
  destruct (C2_recorded_status rw) as (_ & _ & Hlast & _).
  apply (Hlast [WriteBody [x68]%byte] 404%Z [WriteBody [x69]%byte]).
  - intros c Hc. apply list_elem_of_singleton in Hc. by subst c.
  - discriminate.
Defined.

(** C2 as stated fails: after an explicit 200 and a later explicit 500 the
    decorator has recorded 500, not the status of the earliest event; the
    writer behind it has kept 200, and the request is counted as an error. *)
Lemma C2_counterexample :
  let m := Examples.test_metrics in
  let r := mkRequest "GET" "/twice" in
  let cs := [SetStatus 200; SetStatus 500] in
  let next : Handler := fun _ => CallWriteHeader 200 (CallWriteHeader 500 Return) in
  let s := Instrument next m NewRecorder r [] 0.25%float in
  first_event_status cs = 200%Z
  /\ statusCode (replay cs (mkResponseWriter NewRecorder 0)) = 500%Z
  /\ transcript (registry (counted m r)) (next r) (mkResponseWriter NewRecorder 0) = cs
  /\ status_captured s = 500%Z
  /\ Code (writer_after s) = 200%Z
  /\ counterValue (metrics_after s) (httpErrors m) (error_labels m r 500) = 1%N.
Proof.
  intros m r cs next s.
  split; [reflexivity |]. split; [reflexivity |]. split; [reflexivity |].
  split; [vm_cast_no_check (eq_refl 500%Z) |].
  split; [vm_cast_no_check (eq_refl 200%Z) |].
  vm_cast_no_check (eq_refl 1%N).
Qed.

(** ** Bucket profiles of custom histograms *)

Lemma RegisterHistogram_accepted name help buckets labels m m' p :
  RegisterHistogram name help buckets labels m = (m', inl p) ->
  upperBounds m' p
  = Some (bucketsOrDefault
            (match buckets with None => histogramBuckets m | Some _ => buckets end)).
Proof.
  intros Hreg.
  apply (register_accepted (Histogram name help buckets labels)) in Hreg
    as (_ & _ & -> & ->).
  unfold upperBounds. cbn [registry set_registry]. by rewrite lookup_insert_eq.
Qed.

Lemma New_histogramBuckets opts m :
  New opts = Ok m ->
  histogramBuckets m
  = histogramBuckets
      (fold_left (fun m opt => opt m) opts
         (mkMetrics NewRegistry "" "" "" "" "" (Some internal.DefaultHTTPBuckets) "default")).
Proof. intros Hnew. by destruct (New_inv _ _ Hnew) as (base & _ & ->). Qed.

Lemma fold_keeps_buckets opts : forall m0,
  Forall keeps_buckets opts ->
  histogramBuckets (fold_left (fun m opt => opt m) opts m0) = histogramBuckets m0.
Proof.
  induction opts as [| opt opts IH]; intros m0 Hk; [reflexivity |].
  apply Forall_cons in Hk as [Hopt Hk]. simpl. rewrite IH by done. apply Hopt.
Qed.

(** C5 as amended: RegisterHistogram with a nil buckets argument behaves as
    with the configured bucket list, and the histogram it registers has that
    list as its boundaries whenever the list is not empty; the configured
    list is the HTTP profile unless an option given to New replaced it, and
    the one given last when several did.  With the LLM-latency profile
    configured, nil buckets give that profile verbatim.  An empty slice that
    is not nil is passed on as it is, and the boundaries are then the
    collaborator's own defaults, whatever is configured. *)
Theorem C5_nil_buckets_use_configured_profile
    (name help : string) (labels : list string) (m m' : Metrics) (p : string) :
  RegisterHistogram name help None labels m = (m', inl p) ->
  RegisterHistogram name help None labels m
  = RegisterHistogram name help (histogramBuckets m) labels m
  /\ (forall bs, histogramBuckets m = Some bs -> bs <> [] -> upperBounds m' p = Some bs)
  /\ (forall opts, Forall keeps_buckets opts -> New opts = Ok m ->
        upperBounds m' p = Some internal.DefaultHTTPBuckets)
  /\ (forall opts bs, New (opts ++ [WithHistogramBuckets (Some bs)]) = Ok m -> bs <> [] ->
        upperBounds m' p = Some bs)
  /\ (New [WithHistogramBuckets (Some internal.DefaultLLMLatencyBuckets)] = Ok m ->
        upperBounds m' p = Some internal.DefaultLLMLatencyBuckets)
  /\ (forall m2 p2, RegisterHistogram name help (Some []) labels m = (m2, inl p2) ->
        upperBounds m2 p2 = Some DefBuckets).
Proof.
  intros Hreg. pose proof (RegisterHistogram_accepted _ _ _ _ _ _ _ Hreg) as Hub.
  assert (Hsome : forall bs, histogramBuckets m = Some bs -> bs <> [] ->
                    upperBounds m' p = Some bs).
  { intros bs Hbs Hne. rewrite Hub, Hbs. by destruct bs. }
  split; [unfold RegisterHistogram; destruct (histogramBuckets m); reflexivity |].
  split; [exact Hsome |]. split.
  { intros opts Hk Hnew. apply Hsome; [| done].
    rewrite (New_histogramBuckets _ _ Hnew). by rewrite fold_keeps_buckets. }
  split.
  { intros opts bs Hnew Hne. apply Hsome; [| done].
    rewrite (New_histogramBuckets _ _ Hnew). by rewrite fold_left_app. }
  split.
  { intros Hnew. apply Hsome; [| done]. by rewrite (New_histogramBuckets _ _ Hnew). }
  intros m2 p2 Hreg2. by rewrite (RegisterHistogram_accepted _ _ _ _ _ _ _ Hreg2).
Qed.

Lemma llm_metrics_New :
  New [WithHistogramBuckets (Some internal.DefaultLLMLatencyBuckets)]
  = Ok ExamplesLLM.llm_metrics.
Proof. vm_cast_no_check (eq_refl (Ok ExamplesLLM.llm_metrics)). Qed.

Lemma C5_nil_buckets_use_configured_profile_witness :
  let m := ExamplesLLM.llm_metrics in
  let reg := RegisterHistogram "llm_inference_seconds" "LLM inference duration in seconds"
               None ["model"] m in
  reg.2 = inl "nexen_service_llm_inference_seconds"
  /\ upperBounds reg.1 "nexen_service_llm_inference_seconds"
     = Some internal.DefaultLLMLatencyBuckets.
Proof.
  intros m reg.
  assert (Hreg : reg = (reg.1, inl "nexen_service_llm_inference_seconds"))
    by (vm_cast_no_check (eq_refl reg)).
  split; [by rewrite Hreg |].
  destruct (C5_nil_buckets_use_configured_profile _ _ _ _ _ _ Hreg) as (_ & _ & _ & _ & Hllm & _).
  exact (Hllm llm_metrics_New).
Defined.

(** C5 as stated fails for an empty buckets argument that is not nil: with
    the LLM-latency profile configured, the histogram is registered with the
    collaborator's default boundaries, not with the configured profile. *)
Lemma C5_counterexample :
  let m := ExamplesLLM.llm_metrics in
  let reg := RegisterHistogram "llm_inference_seconds" "LLM inference duration in seconds"
               (Some []) ["model"] m in
  histogramBuckets m = Some internal.DefaultLLMLatencyBuckets
  /\ reg.2 = inl "nexen_service_llm_inference_seconds"
  /\ upperBounds reg.1 "nexen_service_llm_inference_seconds" = Some DefBuckets
  /\ upperBounds reg.1 "nexen_service_llm_inference_seconds"
     <> Some internal.DefaultLLMLatencyBuckets.
Proof.
  intros m reg.
  assert (Hub : upperBounds reg.1 "nexen_service_llm_inference_seconds" = Some DefBuckets)
    by (vm_cast_no_check (eq_refl (Some DefBuckets))).
  split; [vm_cast_no_check (eq_refl (Some internal.DefaultLLMLatencyBuckets)) |].
  split; [vm_cast_no_check (eq_refl (@inl string error "nexen_service_llm_inference_seconds")) |].
  split; [exact Hub |].
  rewrite Hub. intros Heq.
  apply (f_equal (fun o => match o with
                           | Some (x :: _) => PrimFloat.ltb x 0.05%float
                           | _ => false
                           end)) in Heq.
  vm_compute in Heq. discriminate Heq.
Qed.

(** ** Gauges *)

Lemma gaugeAdd_spec p lvs x m d :
  holdsGauge (registry m) p d = true ->
  length lvs = length (variableLabels d) ->
  exists m',
    gaugeUpdate (fun v l => GaugeVec_Add v l x) p lvs m = Ok m'
    /\ gaugeValue m' p lvs = Some (default 0%float (gaugeValue m p lvs) + x)%float
    /\ (forall l, l <> lvs -> gaugeValue m' p l = gaugeValue m p l)
    /\ (forall q, q <> p -> registry m' !! q = registry m !! q)
    /\ evolves m m'.
Proof.
  unfold holdsGauge, gaugeValue. intros Hh Hlen.
  unfold gaugeUpdate, derefGauge, GaugeVec_Add, mbind, result_bind.
  destruct (registry m !! p) as [[| | v |] |] eqn:Hp; try done.
  apply bool_decide_eq_true in Hh. unfold cardinalityOk.
  rewrite Hh, bool_decide_eq_true_2 by done.
  eexists. split; [reflexivity |]. cbn [registry set_registry].
  split; [| split; [| split]].
  - rewrite lookup_insert_eq. cbn [g_children]. by rewrite lookup_insert_eq.
  - intros l Hl. rewrite lookup_insert_eq. cbn [g_children]. by rewrite lookup_insert_ne.
  - intros q Hq. by rewrite lookup_insert_ne.
  - eapply evolves_set_registry; [exact Hp | simpl; congruence].
Qed.

Lemma gaugeSet_spec p lvs x m d :
  holdsGauge (registry m) p d = true ->
  length lvs = length (variableLabels d) ->
  exists m',
    gaugeUpdate (fun v l => GaugeVec_Set v l x) p lvs m = Ok m'
    /\ gaugeValue m' p lvs = Some x
    /\ (forall l, l <> lvs -> gaugeValue m' p l = gaugeValue m p l)
    /\ (forall q, q <> p -> registry m' !! q = registry m !! q)
    /\ evolves m m'.
Proof.
  unfold holdsGauge, gaugeValue. intros Hh Hlen.
  unfold gaugeUpdate, derefGauge, GaugeVec_Set, mbind, result_bind.
  destruct (registry m !! p) as [[| | v |] |] eqn:Hp; try done.
  apply bool_decide_eq_true in Hh. unfold cardinalityOk.
  rewrite Hh, bool_decide_eq_true_2 by done.
  eexists. split; [reflexivity |]. cbn [registry set_registry].
  split; [| split; [| split]].
  - rewrite lookup_insert_eq. cbn [g_children]. by rewrite lookup_insert_eq.
  - intros l Hl. rewrite lookup_insert_eq. cbn [g_children]. by rewrite lookup_insert_ne.
  - intros q Hq. by rewrite lookup_insert_ne.
  - eapply evolves_set_registry; [exact Hp | simpl; congruence].
Qed.

(** *** Integers in [float64]

    Additions of integers are exact in [float64] as long as the operands and
    the sum stay below 2^53 in magnitude.  The proof goes through the
    specification of the primitive operations on [spec_float]: an integer of
    that size is normalised to a mantissa of 53 bits without any rounding. *)

Module Float64.
Local Open Scope Z_scope.

(** Appending [j] zero bits multiplies by 2^j and adds [j] to the number of
    digits. *)
Lemma Zpos_iter_xO m j : Zpos (Pos.iter xO m j) = Zpos m * 2 ^ Zpos j.
Proof.
  apply (Pos.iter_ind _ xO m (fun j r => Zpos r = Zpos m * 2 ^ Zpos j)).
  - lia.
  - intros p a IH. rewrite Pos2Z.inj_succ, Z.pow_succ_r by lia.
    rewrite Pos2Z.inj_xO, IH. lia.
Qed.

Lemma digits_iter_xO m j :
  Zpos (digits2_pos (Pos.iter xO m j)) = Zpos (digits2_pos m) + Zpos j.
Proof.
  apply (Pos.iter_ind _ xO m
           (fun j r => Zpos (digits2_pos r) = Zpos (digits2_pos m) + Zpos j)).
  - simpl. lia.
  - intros p a IH. simpl. lia.
Qed.

Lemma pow2_pos_pred d : 2 ^ Zpos d = 2 * 2 ^ (Zpos d - 1).
Proof. rewrite <- Z.pow_succ_r by lia. f_equal. lia. Qed.

Lemma digits2_bounds c :
  2 ^ (Zpos (digits2_pos c) - 1) <= Zpos c < 2 ^ Zpos (digits2_pos c).
Proof.
  induction c as [c IH | c IH |]; simpl digits2_pos.
  - set (d := digits2_pos c) in *.
    replace (Zpos (Pos.succ d) - 1) with (Zpos d) by lia.
    rewrite (pow2_pos_pred (Pos.succ d)).
    replace (Zpos (Pos.succ d) - 1) with (Zpos d) by lia.
    rewrite (pow2_pos_pred d) in *. lia.
  - set (d := digits2_pos c) in *.
    replace (Zpos (Pos.succ d) - 1) with (Zpos d) by lia.
    rewrite (pow2_pos_pred (Pos.succ d)).
    replace (Zpos (Pos.succ d) - 1) with (Zpos d) by lia.
    rewrite (pow2_pos_pred d) in *. lia.
  - simpl. lia.
Qed.

Lemma iter_pos_eq {A} (f : A -> A) p : forall x, SpecFloat.iter_pos f p x = Pos.iter f x p.
Proof.
  induction p as [p IH | p IH |]; intros x; simpl.
  - rewrite !IH. rewrite !Pos.iter_swap. reflexivity.
  - rewrite !IH. reflexivity.
  - reflexivity.
Qed.

(** Shifting out [j] zero bits is exact. *)
Lemma shr_iter_exact j : forall m,
  Pos.iter shr_1 (Build_shr_record (Zpos (Pos.iter xO m j)) false false) j
  = Build_shr_record (Zpos m) false false.
Proof.
  induction j as [| j IH] using Pos.peano_ind; intros m.
  - reflexivity.
  - rewrite Pos.iter_succ_r. rewrite Pos.iter_succ. simpl shr_1. apply IH.
Qed.

(** A mantissa of 53 bits at an exponent in range is left as it is, and a
    mantissa of 53 bits followed by [j] zero bits is shifted back to it. *)
Lemma round_aux_canonical s m e :
  Zpos (digits2_pos m) = 53 -> -1074 <= e <= 971 ->
  binary_round_aux 53 1024 s (Zpos m) e loc_Exact = S754_finite s m e.
Proof.
  intros Hd He. unfold binary_round_aux, shr_fexp, fexp, emin.
  cbn [Zdigits2 shr_record_of_loc]. rewrite Hd.
  replace (Z.max (53 + e - 53) (3 - 1024 - 53) - e) with 0 by lia.
  cbn [shr shr_m loc_of_shr_record round_nearest_even Zdigits2 shr_record_of_loc].
  rewrite Hd.
  replace (Z.max (53 + e - 53) (3 - 1024 - 53) - e) with 0 by lia.
  cbn [shr shr_m].
  replace (e <=? 1024 - 53) with true by (symmetry; apply Z.leb_le; lia).
  reflexivity.
Qed.

Lemma round_aux_shift s m e j :
  Zpos (digits2_pos m) = 53 -> -1074 <= e <= 971 ->
  binary_round_aux 53 1024 s (Zpos (Pos.iter xO m j)) (e - Zpos j) loc_Exact
  = S754_finite s m e.
Proof.
  intros Hd He. unfold binary_round_aux at 1, shr_fexp at 1, fexp, emin.
  cbn [Zdigits2 shr_record_of_loc]. rewrite digits_iter_xO, Hd.
  replace (Z.max (53 + Zpos j + (e - Zpos j) - 53) (3 - 1024 - 53) - (e - Zpos j))
    with (Zpos j) by lia.
  cbn [shr]. rewrite iter_pos_eq, shr_iter_exact.
  replace (e - Zpos j + Zpos j) with e by lia.
  cbn [shr_m loc_of_shr_record round_nearest_even].
  pose proof (round_aux_canonical s m e Hd He) as Hc.
  unfold binary_round_aux at 1, shr_fexp at 1 in Hc.
  cbn [shr_record_of_loc] in Hc.
  destruct (shr {| shr_m := Zpos m; shr_r := false; shr_s := false |} e
              (fexp 53 1024 (Zdigits2 (Zpos m) + e) - e)) as [mrs' e'] eqn:Hshr.
  unfold fexp, emin in Hshr. cbn [Zdigits2] in Hshr. rewrite Hd in Hshr.
  replace (Z.max (53 + e - 53) (3 - 1024 - 53) - e) with 0 in Hshr by lia.
  cbn [shr] in Hshr. injection Hshr as <- <-.
  cbn [shr_m loc_of_shr_record round_nearest_even] in Hc. exact Hc.
Qed.

(** [binary_round] sends every representation [M * 2^E] of a number to the
    representation [m * 2^e] with a mantissa of 53 bits, whichever of the two
    exponents is the smaller. *)
Lemma binary_round_canonical s M E m e :
  Zpos (digits2_pos m) = 53 -> -1074 <= e <= 971 ->
  (E <= e /\ Zpos M = Zpos m * 2 ^ (e - E)) \/ (e <= E /\ Zpos m = Zpos M * 2 ^ (E - e)) ->
  binary_round 53 1024 s M E = S754_finite s m e.
Proof.
  intros Hd He Hrel. unfold binary_round, shl_align, fexp, emin.
  destruct (Z.eq_dec E e) as [-> | Hne].
  - assert (M = m) as ->.
    { destruct Hrel as [[_ H] | [_ H]]; rewrite Z.sub_diag in H; simpl in H; lia. }
    rewrite Hd.
    replace (Z.max (53 + e - 53) (3 - 1024 - 53) - e) with 0 by lia.
    apply round_aux_canonical; assumption.
  - destruct Hrel as [[Hle HM] | [Hle Hm]].
    + destruct (e - E) as [| j | j] eqn:Hj; try lia.
      assert (M = Pos.iter xO m j) as ->.
      { apply Pos2Z.inj. rewrite Zpos_iter_xO. exact HM. }
      rewrite digits_iter_xO, Hd.
      replace (Z.max (53 + Zpos j + E - 53) (3 - 1024 - 53) - E) with (Zpos j) by lia.
      replace E with (e - Zpos j) by lia.
      apply round_aux_shift; assumption.
    + destruct (E - e) as [| j | j] eqn:Hj; try lia.
      assert (m = Pos.iter xO M j) as ->.
      { apply Pos2Z.inj. rewrite Zpos_iter_xO. exact Hm. }
      rewrite digits_iter_xO in Hd.
      replace (Z.max (Zpos (digits2_pos M) + E - 53) (3 - 1024 - 53)) with e by lia.
      replace (e - E) with (Zneg j) by lia.
      apply round_aux_canonical; [| assumption].
      rewrite digits_iter_xO. exact Hd.
Qed.

Lemma digits2_le_53 c : Zpos c < 2 ^ 53 -> Zpos (digits2_pos c) <= 53.
Proof.
  intros Hc. pose proof (digits2_bounds c) as [Hlo _].
  destruct (Z_le_gt_dec (Zpos (digits2_pos c)) 53) as [| Hgt]; [assumption |].
  assert (2 ^ 53 <= 2 ^ (Zpos (digits2_pos c) - 1)) by (apply Z.pow_le_mono_r; lia).
  lia.
Qed.

Lemma canonical_exists c :
  Zpos c < 2 ^ 53 ->
  exists m, Zpos (digits2_pos m) = 53
            /\ Zpos m = Zpos c * 2 ^ (53 - Zpos (digits2_pos c)).
Proof.
  intros Hc. pose proof (digits2_le_53 c Hc) as Hd.
  destruct (53 - Zpos (digits2_pos c)) as [| j | j] eqn:Hj; try lia.
  - exists c. split; [lia | simpl; lia].
  - exists (Pos.iter xO c j). split.
    + rewrite digits_iter_xO. lia.
    + apply Zpos_iter_xO.
Qed.

Lemma binary_round_int s P k c :
  0 <= k <= 1000 -> Zpos P = Zpos c * 2 ^ k -> Zpos c < 2 ^ 53 ->
  binary_round 53 1024 s P (- k) = binary_round 53 1024 s c 0.
Proof.
  intros Hk HP Hc.
  destruct (canonical_exists c Hc) as (m & Hdm & Hm).
  pose proof (digits2_le_53 c Hc) as Hd.
  set (e := Zpos (digits2_pos c) - 53) in *.
  assert (He : -52 <= e <= 0) by (unfold e; lia).
  replace (53 - Zpos (digits2_pos c)) with (- e) in Hm by (unfold e; lia).
  rewrite (binary_round_canonical s c 0 m e); [| assumption | lia |].
  2:{ right. split; [lia |]. rewrite Hm. f_equal; f_equal; lia. }
  apply binary_round_canonical; [assumption | lia |].
  destruct (Z_le_gt_dec (- k) e) as [Hle | Hgt].
  - left. split; [assumption |].
    rewrite HP, Hm, <- Z.mul_assoc, <- Z.pow_add_r by lia. f_equal; f_equal; lia.
  - right. split; [lia |].
    rewrite HP, Hm, <- Z.mul_assoc, <- Z.pow_add_r by lia. f_equal; f_equal; lia.
Qed.

Lemma BN_finite z :
  z <> 0 -> Z.abs z < 2 ^ 53 ->
  exists m e, BN z = S754_finite (z <? 0) m e
              /\ -52 <= e <= 0
              /\ Zpos m = Z.abs z * 2 ^ (- e).
Proof.
  intros Hz Hlt. unfold BN, binary_normalize.
  destruct z as [| c | c]; [done | |]; simpl Z.abs in Hlt.
  - destruct (canonical_exists c Hlt) as (m & Hdm & Hm).
    pose proof (digits2_le_53 c Hlt) as Hd.
    exists m, (Zpos (digits2_pos c) - 53). split; [| split; [lia |]].
    + apply binary_round_canonical; [assumption | lia |].
      right. split; [lia |]. rewrite Hm. f_equal; f_equal; lia.
    + simpl Z.abs. rewrite Hm. f_equal; f_equal; lia.
  - destruct (canonical_exists c Hlt) as (m & Hdm & Hm).
    pose proof (digits2_le_53 c Hlt) as Hd.
    exists m, (Zpos (digits2_pos c) - 53). split; [| split; [lia |]].
    + apply binary_round_canonical; [assumption | lia |].
      right. split; [lia |]. rewrite Hm. f_equal; f_equal; lia.
    + simpl Z.abs. rewrite Hm. f_equal; f_equal; lia.
Qed.

Lemma shl_align_value m e ez :
  ez <= e -> Zpos (fst (shl_align m e ez)) = Zpos m * 2 ^ (e - ez).
Proof.
  intros Hle. unfold shl_align.
  destruct (ez - e) as [| d | d] eqn:Hd; try lia.
  - replace (e - ez) with 0 by lia. simpl. lia.
  - simpl. rewrite Zpos_iter_xO. f_equal; f_equal; lia.
Qed.

Lemma cond_Zopp_abs z k : cond_Zopp (z <? 0) (Z.abs z * k) = z * k.
Proof.
  unfold cond_Zopp. destruct (Z.ltb_spec z 0); [rewrite Z.abs_neq | rewrite Z.abs_eq]; lia.
Qed.

(** The sum of two non-zero integers is exact when the operands and the sum
    are below 2^53 in magnitude. *)
Lemma SFadd_BN a b :
  a <> 0 -> b <> 0 -> Z.abs a < 2 ^ 53 -> Z.abs b < 2 ^ 53 -> Z.abs (a + b) < 2 ^ 53 ->
  SFadd 53 1024 (BN a) (BN b) = BN (a + b).
Proof.
  intros Ha Hb Hla Hlb Hlab.
  destruct (BN_finite a Ha Hla) as (ma & ea & -> & Hea & Hma).
  destruct (BN_finite b Hb Hlb) as (mb & eb & -> & Heb & Hmb).
  unfold SFadd. set (ez := Z.min ea eb).
  rewrite !shl_align_value by (unfold ez; lia).
  rewrite Hma, Hmb, <- !Z.mul_assoc, <- !Z.pow_add_r by (unfold ez; lia).
  replace (- ea + (ea - ez)) with (- ez) by lia.
  replace (- eb + (eb - ez)) with (- ez) by lia.
  rewrite !cond_Zopp_abs, <- Z.mul_add_distr_r.
  assert (Hez : 0 <= - ez <= 1000) by (unfold ez; lia).
  assert (Hpow : 0 < 2 ^ (- ez)) by (apply Z.pow_pos_nonneg; lia).
  unfold BN, binary_normalize.
  destruct (a + b) as [| c | c] eqn:Hab.
  - reflexivity.
  - destruct (Zpos c * 2 ^ (- ez)) as [| P | P] eqn:HP; try lia.
    replace ez with (- - ez) by lia.
    apply binary_round_int; [lia | | exact Hlab].
    rewrite <- HP. f_equal; f_equal; lia.
  - destruct (Zneg c * 2 ^ (- ez)) as [| P | P] eqn:HP; try lia.
    replace ez with (- - ez) by lia.
    apply binary_round_int; [lia | | exact Hlab].
    rewrite <- Pos2Z.opp_pos, Z.mul_opp_l in HP. lia.
Qed.

Lemma of_Z_to_Z z : 0 <= z < 2 ^ 63 -> Uint63.to_Z (Uint63.of_Z z) = z.
Proof.
  intros Hz. rewrite Uint63.of_Z_spec. apply Z.mod_small. exact Hz.
Qed.

Lemma binary_round_sign c :
  Zpos c < 2 ^ 53 ->
  exists m e, forall s, binary_round 53 1024 s c 0 = S754_finite s m e.
Proof.
  intros Hc. destruct (canonical_exists c Hc) as (m & Hdm & Hm).
  pose proof (digits2_le_53 c Hc) as Hd.
  exists m, (Zpos (digits2_pos c) - 53). intros s.
  apply binary_round_canonical; [assumption | lia |].
  right. split; [lia |]. rewrite Hm. f_equal; f_equal; lia.
Qed.

Lemma pow2_53_lt_63 : 2 ^ 53 < 2 ^ 63.
Proof. reflexivity. Qed.

(** [float_of_Z] is the primitive counterpart of [BN]. *)
Lemma Prim2SF_float_of_Z z : Z.abs z < 2 ^ 53 -> Prim2SF (float_of_Z z) = BN z.
Proof.
  intros Hz. pose proof pow2_53_lt_63 as H63.
  destruct z as [| c | c]; unfold float_of_Z.
  - reflexivity.
  - rewrite of_uint63_spec, of_Z_to_Z by (simpl Z.abs in Hz; lia). reflexivity.
  - rewrite FloatAxioms.opp_spec, of_uint63_spec, of_Z_to_Z by (simpl Z.abs in Hz; simpl; lia).
    change (- Z.neg c) with (Z.pos c). simpl Z.abs in Hz.
    destruct (binary_round_sign c Hz) as (m & e & Hround).
    unfold BN, binary_normalize. change prec with 53. change emax with 1024.
    rewrite !Hround. reflexivity.
Qed.

Lemma inc_dec_exact_inner z :
  - 2 ^ 53 < z -> z + 1 < 2 ^ 53 -> inc_dec (float_of_Z z) = float_of_Z z.
Proof.
  intros Hlo Hhi.
  destruct (Z.eq_dec z 0) as [-> | Hz0]; [reflexivity |].
  destruct (Z.eq_dec z (-1)) as [-> | Hz1]; [reflexivity |].
  apply Prim2SF_inj. unfold inc_dec.
  change 1%float with (float_of_Z 1). change (-1)%float with (float_of_Z (-1)).
  rewrite !FloatAxioms.add_spec. unfold SF64add.
  assert (H1 : Z.abs 1 < 2 ^ 53) by reflexivity.
  assert (Hm1 : Z.abs (-1) < 2 ^ 53) by reflexivity.
  rewrite !Prim2SF_float_of_Z by (try assumption; lia).
  change prec with 53. change emax with 1024.
  rewrite (SFadd_BN z 1) by (try assumption; lia).
  rewrite (SFadd_BN (z + 1) (-1)) by (try assumption; lia).
  f_equal. lia.
Qed.

(** An increment followed by a decrement gives back every integer below 2^53
    in magnitude; 2^53 itself comes back as 2^53 - 1. *)
Lemma inc_dec_exact z :
  Z.abs z < 2 ^ 53 -> inc_dec (float_of_Z z) = float_of_Z z.
Proof.
  intros Hz. destruct (Z.eq_dec z (2 ^ 53 - 1)) as [-> | Hne]; [reflexivity |].
  apply inc_dec_exact_inner; lia.
Qed.

Lemma inc_dec_inexact : inc_dec (float_of_Z (2 ^ 53)) = float_of_Z (2 ^ 53 - 1).
Proof. reflexivity. Qed.
End Float64.




(** ** The service label *)

Lemma custom_observe_arity c m m' p vs :
  register c m = (m', inl p) ->
  (exists m'', custom_observe c p vs m' = Ok m'')
  <-> length vs = S (length (reg_labels c)).
Proof.
  intros Hreg. apply register_accepted in Hreg as (_ & _ & -> & ->).
  assert (Hlen : forall n, n = length (reg_labels c ++ ["service"])
                           <-> n = S (length (reg_labels c))).
  { intros n. rewrite length_app. simpl. lia. }
  destruct c as [name help labels | name help buckets labels | name help labels];
    unfold custom_observe, counterInc, histogramObserve, gaugeUpdate,
      derefCounter, derefHistogram, derefGauge, mbind, result_bind;
    cbn [registry set_registry reg_collector]; rewrite lookup_insert_eq;
    unfold CounterVec_Inc, HistogramVec_Observe, GaugeVec_Inc, GaugeVec_Add, cardinalityOk;
    cbn [c_desc h_desc g_desc reg_desc variableLabels reg_labels] in *;
    case_bool_decide as Hc; rewrite <- Hlen; (split; [intros [m'' Hm'']; done |]);
    intros; try done; by eexists.
Qed.



(** Where the package stops: an observation on a custom instrument is made
    by the caller, directly on the vector that the registration returned, and
    nothing is appended to its label values.  It needs one value for each
    caller label and one more for "service", supplied by the caller, and a
    counter observation is recorded under exactly the values given. *)
Lemma custom_observation_is_the_callers c m m' p vs :
  register c m = (m', inl p) ->
  ((exists m'', custom_observe c p vs m' = Ok m'')
   <-> length vs = S (length (reg_labels c)))
  /\ forall name help labels m'',
       c = Counter name help labels -> counterInc p vs m' = Ok m'' ->
       counterValue m'' p vs = 1%N /\ forall l, l <> vs -> counterValue m'' p l = 0%N.
Proof.
  intros Hreg. split; [by apply (custom_observe_arity c m) |].
  apply register_accepted in Hreg as (_ & Hfresh & -> & ->).
  intros name help labels m'' -> Hinc.
  revert Hinc. unfold counterInc, derefCounter, mbind, result_bind.
  cbn [registry set_registry reg_collector]. rewrite lookup_insert_eq.
  unfold CounterVec_Inc. destruct (cardinalityOk _ _); [| done].
  intros [= <-]. unfold counterValue. cbn [registry set_registry].
  rewrite lookup_insert_eq. cbn [c_children c_desc].
  split; [by rewrite lookup_insert_eq |].
  intros l Hl. by rewrite lookup_insert_ne by done.
Qed.

Example custom_observation_example :
  let m := Examples.test_metrics in
  let reg := RegisterCounter "api_request_count" "Count of API requests by endpoint"
               ["endpoint"] m in
  let p := "nexen_service_api_request_count" in
  let elsewhere := ExamplesGauge.after
                     (counterInc p ["/api/v1/completions"; "another-service"] reg.1) in
  serviceName m = "test-service"
  /\ reg.2 = inl p
  /\ counterInc p ["/api/v1/completions"] reg.1 = Panic "inconsistent label cardinality"
  /\ counterInc p ["/api/v1/completions"; "another-service"] reg.1 = Ok elsewhere
  /\ counterValue elsewhere p ["/api/v1/completions"; "another-service"] = 1%N
  /\ counterValue elsewhere p ["/api/v1/completions"; "test-service"] = 0%N.
Proof.
  intros m reg p elsewhere.
  split; [vm_cast_no_check (eq_refl "test-service") |].
  split; [vm_cast_no_check (eq_refl (@inl string error p)) |].
  split; [vm_cast_no_check (eq_refl (@Panic Metrics "inconsistent label cardinality")) |].
  split; [vm_cast_no_check (eq_refl (Ok elsewhere)) |].
  split; [vm_cast_no_check (eq_refl 1%N) | vm_cast_no_check (eq_refl 0%N)].
Qed.


(** ** Reachable states *)

Lemma observe_evolves o p vs m m' : observe o p vs m = Ok m' -> evolves m m'.
Proof.
  destruct o as [| x | x | x]; unfold observe.
  - intros Hobs. pose proof (bumpCounter_evolves p vs m) as Hev.
    unfold bumpCounter in Hev. by rewrite Hobs in Hev.
  - intros Hobs. pose proof (addSample_evolves p vs x m) as Hev.
    unfold addSample in Hev. by rewrite Hobs in Hev.
  - unfold gaugeUpdate, derefGauge, GaugeVec_Set, mbind, result_bind.
    destruct (registry m !! p) as [[| | v |] |] eqn:Hp; try done.
    destruct (cardinalityOk _ _); [| done]. intros [= <-].
    eapply evolves_set_registry; [exact Hp | reflexivity].
  - unfold gaugeUpdate, derefGauge, GaugeVec_Add, mbind, result_bind.
    destruct (registry m !! p) as [[| | v |] |] eqn:Hp; try done.
    destruct (cardinalityOk _ _); [| done]. intros [= <-].
    eapply evolves_set_registry; [exact Hp | reflexivity].
Qed.

Lemma register_evolves c m : evolves m (register c m).1.
Proof.
  destruct (register c m) as [m' [p | e]] eqn:Hreg; simpl.
  - apply register_accepted in Hreg as (_ & Hfresh & -> & ->).
    unfold evolves. cbn [set_registry httpRequests httpDuration httpErrors
      applicationEvent serviceGauge histogramBuckets serviceName registry].
    repeat split; try reflexivity.
    intros q c0 Hq. exists c0. split; [| reflexivity].
    rewrite lookup_insert_ne; [done |]. intros <-. congruence.
  - apply register_refused in Hreg as ->. apply evolves_refl.
Qed.

(** Every state that can be reached is well formed: the five pointers keep
    leading to the standard vectors, whatever is registered or observed. *)
Theorem reachable_wf m : reachable m -> wf m = true.
Proof.
  induction 1 as [opts m Hnew | W HW next m w r fx elapsed _ IH
                  | event m m' _ IH Hop | name value m m' _ IH Hop
                  | name m m' _ IH Hop | name m m' _ IH Hop
                  | c m _ IH | o p vs m m' _ IH Hop].
  - by eapply New_wf.
  - eapply wf_evolves; [by apply Instrument_evolves | done].
  - eapply wf_evolves; [| exact IH]. by apply (observe_evolves IncCounter _ _ _ _ Hop).
  - eapply wf_evolves; [| exact IH].
    by apply (observe_evolves (SetGaugeTo value) _ _ _ _ Hop).
  - eapply wf_evolves; [| exact IH].
    by apply (observe_evolves (AddToGauge 1) _ _ _ _ Hop).
  - eapply wf_evolves; [| exact IH].
    by apply (observe_evolves (AddToGauge (-1)) _ _ _ _ Hop).
  - eapply wf_evolves; [apply register_evolves | exact IH].
  - eapply wf_evolves; [| exact IH]. by eapply observe_evolves.
Qed.


(** * Further properties of the code *)

(** ** When New returns *)

Lemma MustRegister_app cs1 : forall reg cs2,
  MustRegister reg (cs1 ++ cs2) = reg' ← MustRegister reg cs1; MustRegister reg' cs2.
Proof.
  induction cs1 as [| c cs1 IH]; intros reg cs2; [reflexivity |].
  simpl. destruct (Register reg c) as [reg1 [e |]]; [reflexivity | apply IH].
Qed.

Lemma MustRegister_cases cs : forall reg,
  (exists reg', MustRegister reg cs = Ok reg') \/ MustRegister reg cs = Panic "MustRegister".
Proof.
  induction cs as [| c cs IH]; intros reg; simpl; [by left; eexists |].
  destruct (Register reg c) as [reg1 [e |]]; [by right | apply IH].
Qed.

(** What [MustRegister] has checked when it returns: every collector was
    valid and its name free, and what the registry held is still there. *)
Lemma MustRegister_Ok_inv cs : forall reg reg',
  MustRegister reg cs = Ok reg' ->
  Forall (fun c => reg !! fqName (descOf c) = None) cs
  /\ reg ⊆ reg'
  /\ forall q, q ∉ map (fun c => fqName (descOf c)) cs -> reg' !! q = reg !! q.
Proof.
  induction cs as [| c cs IH]; intros reg reg'; simpl.
  - intros [= <-]. done.
  - destruct (Register reg c) as [reg1 [e |]] eqn:HR; [done |].
    apply Register_accepted in HR as (Hv & Hfresh & ->).
    intros Hrest. destruct (IH _ _ Hrest) as (Hall & Hsub & Hframe).
    assert (Hsub1 : reg ⊆ <[fqName (descOf c) := c]> reg) by (by apply insert_subseteq).
    split; [| split].
    + constructor; [exact Hfresh |].
      eapply Forall_impl; [exact Hall |]. intros c' Hc'. simpl in Hc'.
      by eapply lookup_weaken_None.
    + by etrans.
    + intros q Hq. apply not_elem_of_cons in Hq as [Hne Hq].
      rewrite Hframe by done. by rewrite lookup_insert_ne.
Qed.

(** Valid collectors with distinct names, all of them free in the registry,
    are accepted one after the other. *)
Lemma MustRegister_Ok_intro cs : forall reg,
  Forall (fun c => validDesc (descOf c) = true) cs ->
  NoDup (map (fun c => fqName (descOf c)) cs) ->
  Forall (fun c => reg !! fqName (descOf c) = None) cs ->
  exists reg', MustRegister reg cs = Ok reg'.
Proof.
  induction cs as [| c cs IH]; intros reg Hvalid Hnd Hfresh; simpl; [by eexists |].
  apply Forall_cons in Hvalid as [Hv Hvalid].
  apply Forall_cons in Hfresh as [Hf Hfresh].
  apply NoDup_cons in Hnd as [Hnotin Hnd].
  rewrite Register_fresh by done.
  apply IH; [done | done |].
  apply Forall_forall. intros c' Hc'.
  rewrite lookup_insert_ne.
  - by eapply (proj1 (Forall_forall _ _) Hfresh).
  - intros Heq. apply Hnotin. rewrite Heq. apply list_elem_of_fmap. by exists c'.
Qed.

(** [New] as one registration of all its collectors. *)
Lemma New_unfold opts :
  New opts =
    reg ← MustRegister (registry (configured opts))
            (collectors_of_New (histogramBuckets (configured opts)));
    Ok (mkMetrics reg
          "nexen_service_http_requests_total"
          "nexen_service_http_request_duration_seconds"
          "nexen_service_http_errors_total"
          "nexen_service_application_events_total"
          "nexen_service_gauge"
          (histogramBuckets (configured opts)) (serviceName (configured opts))).
Proof.
  unfold New, collectors_of_New. fold (configured opts).
  rewrite (MustRegister_app (NewProcessCollector ++ NewGoCollector)).
  destruct (MustRegister (registry (configured opts)) _) as [r1 |]; [| reflexivity].
  unfold mbind, result_bind. simpl.
  destruct (Register r1 _) as [r2 [e |]]; [reflexivity |].
  destruct (Register r2 _) as [r3 [e |]]; [reflexivity |].
  destruct (Register r3 _) as [r4 [e |]]; [reflexivity |].
  destruct (Register r4 _) as [r5 [e |]]; [reflexivity |].
  destruct (Register r5 _) as [r6 [e |]]; reflexivity.
Qed.

Lemma names_of_collectors b :
  map (fun c => fqName (descOf c)) (collectors_of_New b) = names_of_New.
Proof. reflexivity. Qed.

Lemma collectors_of_New_valid b :
  Forall (fun c => validDesc (descOf c) = true) (collectors_of_New b).
Proof.
  apply Forall_forall. intros c Hc.
  assert (Hd : descOf c ∈ map descOf (collectors_of_New None)).
  { change (map descOf (collectors_of_New None)) with (map descOf (collectors_of_New b)).
    apply list_elem_of_fmap. by exists c. }
  apply list_elem_of_In in Hd. revert Hd. generalize (descOf c).
  apply forallb_forall. vm_compute. reflexivity.
Qed.

Lemma names_of_New_NoDup : NoDup names_of_New.
Proof. apply (bool_decide_unpack _). vm_compute. exact I. Qed.

Lemma fresh_names_collectors (reg : Registry) b :
  Forall (fun q => reg !! q = None) names_of_New <->
  Forall (fun c => reg !! fqName (descOf c) = None) (collectors_of_New b).
Proof. rewrite <- (names_of_collectors b). by rewrite Forall_fmap. Qed.

Lemma New_Ok_intro opts :
  Forall (fun q => registry (configured opts) !! q = None) names_of_New ->
  exists m, New opts = Ok m.
Proof.
  intros Hfresh. rewrite New_unfold.
  destruct (MustRegister_Ok_intro
              (collectors_of_New (histogramBuckets (configured opts)))
              (registry (configured opts))) as [reg ->].
  - apply collectors_of_New_valid.
  - rewrite names_of_collectors. apply names_of_New_NoDup.
  - by apply fresh_names_collectors.
  - by eexists.
Qed.

Lemma New_Ok_inv opts m :
  New opts = Ok m ->
  Forall (fun q => registry (configured opts) !! q = None) names_of_New
  /\ registry (configured opts) ⊆ registry m
  /\ (forall q, q ∉ names_of_New -> registry m !! q = registry (configured opts) !! q)
  /\ serviceName m = serviceName (configured opts)
  /\ histogramBuckets m = histogramBuckets (configured opts).
Proof.
  rewrite New_unfold.
  destruct (MustRegister _ _) as [reg |] eqn:HMR; [| done].
  intros [= <-]. apply MustRegister_Ok_inv in HMR as (Hfresh & Hsub & Hframe).
  rewrite names_of_collectors in Hframe.
  split; [by eapply fresh_names_collectors |]. done.
Qed.

Lemma New_cases opts : (exists m, New opts = Ok m) \/ New opts = Panic "MustRegister".
Proof.
  rewrite New_unfold.
  destruct (MustRegister_cases
              (collectors_of_New (histogramBuckets (configured opts)))
              (registry (configured opts))) as [[reg ->] | ->]; [left; by eexists | by right].
Qed.

Lemma standard_names_of_New name :
  name ∈ standard_names -> qualified name ∈ names_of_New.
Proof.
  unfold standard_names. rewrite !elem_of_cons.
  intros [-> | [-> | [-> | [-> | [-> | Hnil]]]]];
    [| | | | | by apply elem_of_nil in Hnil];
    apply (bool_decide_unpack _); vm_compute; exact I.
Qed.

(** The names [New] registers are those of the runtime collectors, which
    begin with go_ or process_, and the five standard names. *)
Lemma names_of_New_kinds q :
  q ∈ names_of_New ->
  String.prefix "go_" q = true \/ String.prefix "process_" q = true
  \/ q ∈ map qualified standard_names.
Proof.
  intros Hq.
  assert (Hall : forallb (fun q => String.prefix "go_" q || String.prefix "process_" q
                                   || bool_decide (q ∈ map qualified standard_names))
                   names_of_New = true) by (vm_compute; reflexivity).
  rewrite forallb_forall in Hall. apply list_elem_of_In in Hq.
  specialize (Hall q Hq). rewrite !orb_true_iff, bool_decide_eq_true in Hall. tauto.
Qed.

(** X1: New and the registry it is given.  New panics when the registry
    that the options leave already holds a collector under the qualified
    name of one of the five standard instruments.  When New returns,
    everything that registry held is still in place; and outside the names
    of the runtime collectors, which begin with go_ or process_, and the five
    standard names, the registry of the receiver holds what the registry it
    was given held. *)
Theorem X1_New_on_a_supplied_registry (opts : list Option) :
  (Exists (fun name => is_Some (registry (configured opts) !! qualified name)) standard_names
   -> New opts = Panic "MustRegister")
  /\ (forall m, New opts = Ok m ->
        registry (configured opts) ⊆ registry m
        /\ forall q,
             String.prefix "go_" q = false -> String.prefix "process_" q = false ->
             q ∉ map qualified standard_names ->
             registry m !! q = registry (configured opts) !! q).
Proof.
  split.
  - intros Htaken. destruct (New_cases opts) as [[m Hnew] | Hp]; [| exact Hp].
    destruct (New_Ok_inv _ _ Hnew) as (Hfresh & _).
    apply Exists_exists in Htaken as (name & Hname & [c Hc]).
    rewrite Forall_forall in Hfresh.
    rewrite (Hfresh _ (standard_names_of_New name Hname)) in Hc. done.
  - intros m Hnew. destruct (New_Ok_inv _ _ Hnew) as (_ & Hsub & Hframe & _).
    split; [exact Hsub |]. intros q Hgo Hproc Hstd. apply Hframe.
    intros Hq. destruct (names_of_New_kinds q Hq) as [Hg | [Hp | Hs]]; congruence.
Qed.

(** ** New on a registry of its own *)

Lemma fold_keeps_registry opts : forall m0,
  Forall keeps_registry opts ->
  registry (fold_left (fun m opt => opt m) opts m0) = registry m0.
Proof.
  induction opts as [| opt opts IH]; intros m0 Hk; [reflexivity |].
  apply Forall_cons in Hk as [Hopt Hk]. simpl. rewrite IH by done. apply Hopt.
Qed.

Lemma fold_keeps_serviceName opts : forall m0,
  Forall keeps_serviceName opts ->
  serviceName (fold_left (fun m opt => opt m) opts m0) = serviceName m0.
Proof.
  induction opts as [| opt opts IH]; intros m0 Hk; [reflexivity |].
  apply Forall_cons in Hk as [Hopt Hk]. simpl. rewrite IH by done. apply Hopt.
Qed.

(** X2: when no option replaces the registry, New returns: it never panics
    on the registry it creates itself.  The receiver carries the service
    name and the bucket list that the options produced; the service name is
    "default" when no option sets one, and the one given last when several
    do. *)
Theorem X2_New_on_its_own_registry (opts : list Option) :
  Forall keeps_registry opts ->
  exists m,
    New opts = Ok m
    /\ wf m = true
    /\ serviceName m = serviceName (configured opts)
    /\ histogramBuckets m = histogramBuckets (configured opts)
    /\ (Forall keeps_serviceName opts -> serviceName m = "default")
    /\ (forall opts1 name opts2,
          opts = opts1 ++ WithServiceName name :: opts2 ->
          Forall keeps_serviceName opts2 -> serviceName m = name).
Proof.
  intros Hk.
  destruct (New_Ok_intro opts) as [m Hnew].
  { unfold configured. rewrite fold_keeps_registry by done.
    apply Forall_forall. intros q _. apply lookup_empty. }
  destruct (New_Ok_inv _ _ Hnew) as (_ & _ & _ & Hs & Hb).
  exists m. split; [exact Hnew |]. split; [by eapply New_wf |].
  split; [exact Hs |]. split; [exact Hb |]. split.
  - intros Hks. rewrite Hs. unfold configured. by rewrite fold_keeps_serviceName.
  - intros opts1 name opts2 -> Hks. rewrite Hs. unfold configured.
    rewrite fold_left_app. simpl. by rewrite fold_keeps_serviceName.
Qed.

Lemma X2_New_on_its_own_registry_witness :
  exists m,
    New [WithHistogramBuckets (Some internal.DefaultLLMLatencyBuckets);
         WithServiceName "billing"; WithServiceName "checkout"] = Ok m
    /\ serviceName m = "checkout"
    /\ histogramBuckets m = Some internal.DefaultLLMLatencyBuckets.
Proof.
  destruct (X2_New_on_its_own_registry
              [WithHistogramBuckets (Some internal.DefaultLLMLatencyBuckets);
               WithServiceName "billing"; WithServiceName "checkout"])
    as (m & Hnew & _ & _ & Hb & _ & Hlast).
  - repeat constructor.
  - exists m. split; [exact Hnew |]. split; [| exact Hb].
    apply (Hlast [WithHistogramBuckets (Some internal.DefaultLLMLatencyBuckets);
                  WithServiceName "billing"] "checkout" []); [reflexivity | constructor].
Defined.

(** X3: a registry cannot serve two receivers.  Once New has returned a
    receiver, and whatever has been done with it since, New panics when it is
    given a registry that holds what the registry of that receiver holds, as
    WithRegistry(m.Registry()) does. *)
Theorem X3_New_on_a_shared_registry_panics (m : Metrics) (opts : list Option) :
  wf m = true ->
  registry m ⊆ registry (configured opts) ->
  New opts = Panic "MustRegister".
Proof.
  intros Hwf Hsub.
  destruct (New_cases opts) as [[m' Hnew] | Hp]; [| exact Hp].
  destruct (New_Ok_inv _ _ Hnew) as (Hfresh & _).
  pose proof (wf_inv _ Hwf) as ((_ & _ & _ & _ & Hg) & _ & _ & _ & _ & Hholds).
  rewrite Hg in Hholds. unfold holdsGauge in Hholds.
  destruct (registry m !! "nexen_service_gauge") as [c |] eqn:Hc; [| done].
  rewrite Forall_forall in Hfresh.
  assert (Hin : "nexen_service_gauge" ∈ names_of_New).
  { apply (bool_decide_unpack _). vm_compute. exact I. }
  pose proof (Hfresh _ Hin) as Hnone.
  by rewrite (lookup_weaken _ _ _ _ Hc Hsub) in Hnone.
Qed.

Lemma X3_New_on_a_shared_registry_panics_witness :
  New [WithRegistry (registry Examples.test_metrics)] = Panic "MustRegister".
Proof.
  apply (X3_New_on_a_shared_registry_panics Examples.test_metrics
           [WithRegistry (registry Examples.test_metrics)]).
  - vm_cast_no_check (eq_refl true).
  - reflexivity.
Defined.

(** ** Accounting over mixed traffic *)

Lemma bumpCounter_samples p lvs m q l :
  histogramSamples (bumpCounter p lvs m) q l = histogramSamples m q l.
Proof.
  unfold histogramSamples. unfold_obs.
  destruct (registry m !! p) as [[v | | |] |] eqn:Hp; try done.
  destruct (cardinalityOk _ _); [| done].
  cbn [registry set_registry]. destruct (decide (q = p)) as [-> |].
  - by rewrite lookup_insert_eq, Hp.
  - by rewrite lookup_insert_ne.
Qed.

Lemma addSample_samples p lvs x m d :
  holdsHistogram (registry m) p d = true ->
  length lvs = length (variableLabels d) ->
  histogramSamples (addSample p lvs x m) p lvs = histogramSamples m p lvs ++ [x].
Proof.
  unfold holdsHistogram, histogramSamples. intros Hh Hlen. unfold_obs.
  destruct (registry m !! p) as [[| v | |] |] eqn:Hp; try done.
  apply bool_decide_eq_true in Hh. unfold cardinalityOk.
  rewrite Hh, bool_decide_eq_true_2 by done.
  cbn [registry set_registry]. rewrite lookup_insert_eq. cbn [h_children].
  by rewrite lookup_insert_eq.
Qed.

Lemma addSample_samples_other p lvs x m q l :
  (q, l) <> (p, lvs) -> histogramSamples (addSample p lvs x m) q l = histogramSamples m q l.
Proof.
  intros Hne. unfold histogramSamples. unfold_obs.
  destruct (registry m !! p) as [[| v | |] |] eqn:Hp; try done.
  destruct (cardinalityOk _ _); [| done].
  cbn [registry set_registry]. destruct (decide (q = p)) as [-> |].
  - rewrite lookup_insert_eq, Hp. cbn [h_children].
    rewrite lookup_insert_ne; [done | congruence].
  - by rewrite lookup_insert_ne.
Qed.

Lemma counted_requests_at m r l :
  wf m = true ->
  counterValue (counted m r) (httpRequests m) l
  = (counterValue m (httpRequests m) l + if counts_under m l r then 1 else 0)%N.
Proof.
  intros Hwf. unfold counts_under. case_bool_decide as Hl.
  - subst l. rewrite counted_requests by done. lia.
  - unfold counted. rewrite bumpCounter_other by congruence. lia.
Qed.

Lemma timed_samples_at m r elapsed l :
  wf m = true ->
  histogramSamples (timed m r elapsed) (httpDuration m) l
  = histogramSamples m (httpDuration m) l ++ if counts_under m l r then [elapsed] else [].
Proof.
  intros Hwf.
  assert (Hwf1 : wf (counted m r) = true).
  { eapply wf_evolves; [apply bumpCounter_evolves | done]. }
  pose proof (bumpCounter_evolves (httpRequests m) (request_labels m r) m)
    as (_ & f2 & _ & _ & _ & _ & _ & _).
  pose proof (wf_inv _ Hwf1) as (_ & _ & Hdur & _). fold (counted m r) in f2.
  rewrite f2 in Hdur.
  unfold timed, counts_under. case_bool_decide as Hl.
  - subst l. rewrite (addSample_samples _ _ _ _ _ Hdur) by reflexivity.
    unfold counted. by rewrite bumpCounter_samples.
  - rewrite addSample_samples_other by congruence.
    unfold counted. rewrite bumpCounter_samples. by rewrite app_nil_r.
Qed.

(** What one call adds under any label combination of the three instruments
    of the middleware. *)
Lemma Instrument_at {W : Type} `{ResponseWriter W} next m (w : W) r fx elapsed :
  wf m = true ->
  let s := Instrument next m w r fx elapsed in
  (forall l, counterValue (metrics_after s) (httpRequests m) l
             = (counterValue m (httpRequests m) l + if counts_under m l r then 1 else 0)%N)
  /\ (forall l, histogramSamples (metrics_after s) (httpDuration m) l
                = histogramSamples m (httpDuration m) l
                  ++ if timed_under m l (r, elapsed, s) then [elapsed] else [])
  /\ (forall l, counterValue (metrics_after s) (httpErrors m) l
                = (counterValue m (httpErrors m) l
                   + if failed_under m l (r, elapsed, s) then 1 else 0)%N).
Proof.
  intros Hwf s. subst s. unfold timed_under, failed_under, returned. cbn [fst snd].
  rewrite Instrument_unfold by done.
  destruct (run _ _ _ _) as [[rw' fx'] out].
  pose proof (wf_inv _ Hwf) as ((e1 & e2 & e3 & _) & _).
  pose proof (timed_wf m r elapsed Hwf) as Hwf2.
  pose proof (timed_evolves m r elapsed) as (_ & _ & f3 & _).
  pose proof (wf_inv _ Hwf2) as (_ & _ & _ & Herr & _). rewrite f3 in Herr.
  assert (Htimed_req : forall l,
    counterValue (timed m r elapsed) (httpRequests m) l
    = (counterValue m (httpRequests m) l + if counts_under m l r then 1 else 0)%N).
  { intros l. unfold timed. rewrite addSample_counterValue. by apply counted_requests_at. }
  destruct out; [destruct (400 <=? statusCode rw')%Z eqn:Hsc |];
    cbn [metrics_after result_of_call status_captured andb]; rewrite ?Hsc; cbn [andb].
  - split; [| split]; intros l.
    + rewrite bumpCounter_other; [apply Htimed_req |]. rewrite e1, e3. by intros [= ? ?].
    + unfold addSample. rewrite bumpCounter_samples. by apply timed_samples_at.
    + case_bool_decide as Hl.
      * subst l. rewrite (bumpCounter_value _ _ _ _ Herr) by reflexivity.
        rewrite timed_errors by done. lia.
      * rewrite bumpCounter_other by congruence. rewrite timed_errors by done. lia.
  - split; [| split]; intros l.
    + apply Htimed_req.
    + by apply timed_samples_at.
    + rewrite timed_errors by done. lia.
  - split; [| split]; intros l.
    + by apply counted_requests_at.
    + unfold counted. rewrite bumpCounter_samples. by rewrite app_nil_r.
    + rewrite counted_errors by done. simpl. lia.
Qed.

Lemma serve_all_spec {W : Type} `{ResponseWriter W} next
    (reqs : list (W * Request * float)) : forall m fx,
  wf m = true ->
  let m' := (serve_all next m fx reqs).1 in
  let log := serve_each next m fx reqs in
  evolves m m'
  /\ (forall l, counterValue m' (httpRequests m) l
                = (counterValue m (httpRequests m) l
                   + N.of_nat (length (List.filter (counts_under m l)
                                         (map (fun q => q.1.2) reqs))))%N)
  /\ (forall l, histogramSamples m' (httpDuration m) l
                = histogramSamples m (httpDuration m) l
                  ++ map (fun e => e.1.2) (List.filter (timed_under m l) log))
  /\ (forall l, counterValue m' (httpErrors m) l
                = (counterValue m (httpErrors m) l
                   + N.of_nat (length (List.filter (failed_under m l) log)))%N).
Proof.
  induction reqs as [| [[w r] elapsed] reqs IH]; intros m fx Hwf; simpl.
  - split; [apply evolves_refl |].
    split; [| split]; intros l; simpl; rewrite ?app_nil_r; lia || done.
  - set (s := Instrument next m w r fx elapsed) in *.
    pose proof (Instrument_evolves next m w r fx elapsed Hwf) as Hev. fold s in Hev.
    pose proof (wf_evolves _ _ Hev Hwf) as Hwf'.
    specialize (IH (metrics_after s) (effects_after s) Hwf').
    destruct (serve_all next (metrics_after s) (effects_after s) reqs) as [m' outs] eqn:Hrest.
    simpl in IH |- *. destruct IH as (Hev' & Hreq & Hdur & Herr).
    pose proof Hev as (e1 & e2 & e3 & _ & _ & _ & e7 & _).
    unfold counts_under, timed_under, failed_under, counts_under, request_labels,
      error_labels in Hreq, Hdur, Herr.
    rewrite e7 in Hreq, Hdur, Herr. rewrite e1 in Hreq. rewrite e2 in Hdur. rewrite e3 in Herr.
    destruct (Instrument_at next m w r fx elapsed Hwf) as (Hreq1 & Hdur1 & Herr1).
    fold s in Hreq1, Hdur1, Herr1.
    split; [by eapply evolves_trans |].
    split; [| split]; intros l.
    + pose proof (Hreq l) as Hl.
      change (List.filter _ _)
        with (List.filter (counts_under m l) (map (fun q : W * Request * float => q.1.2) reqs))
        in Hl.
      rewrite Hl, Hreq1. destruct (counts_under m l r); simpl length; lia.
    + pose proof (Hdur l) as Hl.
      change (List.filter _ _)
        with (List.filter (timed_under m l)
                (serve_each next (metrics_after s) (effects_after s) reqs)) in Hl.
      rewrite Hl, Hdur1, <- app_assoc. f_equal.
      destruct (timed_under m l (r, elapsed, s)); reflexivity.
    + pose proof (Herr l) as Hl.
      change (List.filter _ _)
        with (List.filter (failed_under m l)
                (serve_each next (metrics_after s) (effects_after s) reqs)) in Hl.
      rewrite Hl, Herr1. destruct (failed_under m l (r, elapsed, s)); simpl length; lia.
Qed.

(** X4: the request counter counts every request the instrumented handler
    is called for, whether the wrapped handler returns or panics: after any
    sequence of requests whose methods and paths are label values the
    library accepts, as the service name is, its value under a label
    combination has grown by the number of requests whose method, path and
    service make up that combination. *)
Theorem X4_request_counter_counts_every_request {W : Type} `{ResponseWriter W}
    (next : Handler) (m : Metrics) (fx : list string)
    (reqs : list (W * Request * float)) (l : list string) :
  wf m = true ->
  forallb (fun q => accepted m q.1.2) reqs = true ->
  counterValue (serve_all next m fx reqs).1 (httpRequests m) l
  = (counterValue m (httpRequests m) l
     + N.of_nat (length (List.filter (counts_under m l) (map (fun q => q.1.2) reqs))))%N.
Proof.
  intros Hwf _. by destruct (serve_all_spec next reqs m fx Hwf) as (_ & Hreq & _).
Qed.

Lemma X4_request_counter_counts_every_request_witness :
  let m := Examples.test_metrics in
  let m' := (serve_all ExamplesTraffic.handler m [] ExamplesTraffic.traffic).1 in
  counterValue m' (httpRequests m) ["GET"; "/crash"; "test-service"] = 1%N
  /\ counterValue m' (httpRequests m) ["GET"; "/success"; "test-service"] = 2%N.
Proof.
  intros m m'.
  assert (Hwf : wf m = true) by (vm_cast_no_check (eq_refl true)).
  assert (Hacc : forallb (fun q => accepted m q.1.2) ExamplesTraffic.traffic = true)
    by (vm_cast_no_check (eq_refl true)).
  split.
  - unfold m'.
    rewrite (X4_request_counter_counts_every_request ExamplesTraffic.handler m []
               ExamplesTraffic.traffic ["GET"; "/crash"; "test-service"] Hwf Hacc).
    vm_cast_no_check (eq_refl 1%N).
  - unfold m'.
    rewrite (X4_request_counter_counts_every_request ExamplesTraffic.handler m []
               ExamplesTraffic.traffic ["GET"; "/success"; "test-service"] Hwf Hacc).
    vm_cast_no_check (eq_refl 2%N).
Defined.





(** ** A wrapped handler that panics *)

(** X7: a panic of the wrapped handler is not recovered: the instrumented
    call panics too.  The request has then been counted and nothing else was
    recorded: no duration sample, and no error, also when the handler had
    set a status of 400 or more before it panicked.  The calls the handler
    had made before have reached the writer. *)
Theorem X7_panic_of_the_wrapped_handler {W : Type} `{ResponseWriter W}
    (next : Handler) (m : Metrics) (w : W) (r : Request) (fx : list string)
    (elapsed : float) :
  wf m = true ->
  let inner := run (registry (counted m r)) (next r) (mkResponseWriter w 0) fx in
  let s := Instrument next m w r fx elapsed in
  inner.2 = Panicked ->
  result_of_call s = Panicked
  /\ metrics_after s = counted m r
  /\ writer_after s = ResponseWriter_ inner.1.1
  /\ status_captured s = statusCode inner.1.1
  /\ (forall l, histogramSamples (metrics_after s) (httpDuration m) l
                = histogramSamples m (httpDuration m) l)
  /\ (forall l, counterValue (metrics_after s) (httpErrors m) l
                = counterValue m (httpErrors m) l).
Proof.
  intros Hwf inner s. subst s inner. rewrite Instrument_unfold by done.
  destruct (run _ _ _ _) as [[rw' fx'] out]. cbn [snd fst].
  intros ->. cbn [result_of_call metrics_after writer_after status_captured].
  split; [reflexivity |]. split; [reflexivity |]. split; [reflexivity |].
  split; [reflexivity |]. split.
  - intros l. unfold counted. apply bumpCounter_samples.
  - intros l. by apply counted_errors.
Qed.

Lemma X7_panic_of_the_wrapped_handler_witness :
  let m := Examples.test_metrics in
  let r := mkRequest "GET" "/crash" in
  let s := Instrument ExamplesTraffic.handler m NewRecorder r [] 0.03%float in
  result_of_call s = Panicked
  /\ status_captured s = 500%Z
  /\ metrics_after s = counted m r
  /\ counterValue (metrics_after s) (httpErrors m) (error_labels m r 500)
     = counterValue m (httpErrors m) (error_labels m r 500).
Proof.
  intros m r s.
  assert (Hwf : wf m = true) by (vm_cast_no_check (eq_refl true)).
  destruct (X7_panic_of_the_wrapped_handler ExamplesTraffic.handler m NewRecorder r []
              0.03%float Hwf) as (Hp & Hm & _ & _ & _ & Herr).
  { vm_cast_no_check (eq_refl Panicked). }
  split; [exact Hp |]. split; [vm_cast_no_check (eq_refl 500%Z) |].
  split; [exact Hm | apply Herr].
Defined.

(** ** Errors, durations and requests *)

Lemma filter_length_le {A : Type} (f g : A -> bool) (l : list A) :
  (forall x, f x = true -> g x = true) ->
  length (List.filter f l) <= length (List.filter g l).
Proof.
  intros Himp. induction l as [| x l IH]; [done |]. simpl.
  destruct (f x) eqn:Hf.
  - rewrite (Himp x Hf). simpl. lia.
  - destruct (g x); simpl; lia.
Qed.

Lemma filter_map_length {A B : Type} (f : B -> bool) (g : A -> B) (l : list A) :
  length (List.filter f (map g l)) = length (List.filter (fun x => f (g x)) l).
Proof.
  induction l as [| x l IH]; [done |]. simpl. destruct (f (g x)); simpl; by rewrite IH.
Qed.

Lemma serve_each_requests {W : Type} `{ResponseWriter W} next
    (reqs : list (W * Request * float)) : forall m fx,
  map (fun e => e.1.1) (serve_each next m fx reqs) = map (fun q => q.1.2) reqs.
Proof.
  induction reqs as [| [[w r] elapsed] reqs IH]; intros m fx; [done |].
  simpl. by rewrite IH.
Qed.

Lemma histogramCount_samples m p l :
  histogramCount m p l = length (histogramSamples m p l).
Proof.
  unfold histogramCount, histogramSamples.
  by destruct (registry m !! p) as [[| | |] |].
Qed.

(** X8: errors never outnumber recorded durations, and recorded durations
    never outnumber requests.  Whatever the instrumented handler has served,
    for each method, path and status text the error counter has grown by no
    more than the sample count of the duration histogram for that method and
    path, which has grown by no more than the request counter; on a receiver
    that New had just returned, this orders the three values themselves. *)
Theorem X8_errors_durations_requests_in_order {W : Type} `{ResponseWriter W}
    (next : Handler) (m : Metrics) (fx : list string)
    (reqs : list (W * Request * float)) (method path text : string) :
  wf m = true ->
  let m' := (serve_all next m fx reqs).1 in
  let l3 := [method; path; serviceName m] in
  let l4 := [method; path; text; serviceName m] in
  (exists errors durations requests : nat,
      errors <= durations <= requests
      /\ counterValue m' (httpErrors m) l4
         = (counterValue m (httpErrors m) l4 + N.of_nat errors)%N
      /\ histogramCount m' (httpDuration m) l3
         = histogramCount m (httpDuration m) l3 + durations
      /\ counterValue m' (httpRequests m) l3
         = (counterValue m (httpRequests m) l3 + N.of_nat requests)%N)
  /\ (forall opts, New opts = Ok m ->
        (counterValue m' (httpErrors m) l4
         <= N.of_nat (histogramCount m' (httpDuration m) l3))%N
        /\ (N.of_nat (histogramCount m' (httpDuration m) l3)
            <= counterValue m' (httpRequests m) l3)%N).
Proof.
  intros Hwf m' l3 l4.
  destruct (serve_all_spec next reqs m fx Hwf) as (_ & Hreq & Hdur & Herr).
  fold m' in Hreq, Hdur, Herr.
  set (log := serve_each next m fx reqs) in *.
  assert (Hed : length (List.filter (failed_under m l4) log)
                <= length (List.filter (timed_under m l3) log)).
  { apply filter_length_le. intros [[r0 e0] s0]. unfold failed_under, timed_under, counts_under.
    cbn [fst snd]. rewrite !andb_true_iff, !bool_decide_eq_true.
    unfold error_labels, request_labels, l3, l4.
    intros [[Hret _] Hl]. split; [exact Hret |]. by injection Hl as -> -> _. }
  assert (Hdr : length (List.filter (timed_under m l3) log)
                <= length (List.filter (counts_under m l3) (map (fun q => q.1.2) reqs))).
  { rewrite <- (serve_each_requests next reqs m fx). fold log. rewrite filter_map_length.
    apply filter_length_le. intros e. unfold timed_under. rewrite andb_true_iff. tauto. }
  assert (Hcount : histogramCount m' (httpDuration m) l3
                   = histogramCount m (httpDuration m) l3
                     + length (List.filter (timed_under m l3) log)).
  { rewrite !histogramCount_samples, (Hdur l3), length_app, length_map. reflexivity. }
  split.
  - exists (length (List.filter (failed_under m l4) log)),
           (length (List.filter (timed_under m l3) log)),
           (length (List.filter (counts_under m l3) (map (fun q => q.1.2) reqs))).
    split; [lia |]. split; [apply Herr |]. split; [exact Hcount | apply Hreq].
  - intros opts Hnew.
    destruct (New_fresh opts m l3 Hnew) as (Hr0 & Hd0 & _).
    destruct (New_fresh opts m l4 Hnew) as (_ & _ & He0).
    rewrite (Herr l4), (Hreq l3), Hcount, Hr0, Hd0, He0. lia.
Qed.

Lemma X8_errors_durations_requests_in_order_witness :
  let m := Examples.test_metrics in
  let m' := (serve_all ExamplesTraffic.handler m [] ExamplesTraffic.traffic).1 in
  (counterValue m' (httpErrors m) ["GET"; "/crash"; "Internal Server Error"; serviceName m]
   <= N.of_nat (histogramCount m' (httpDuration m) ["GET"; "/crash"; serviceName m]))%N
  /\ (N.of_nat (histogramCount m' (httpDuration m) ["GET"; "/crash"; serviceName m])
      <= counterValue m' (httpRequests m) ["GET"; "/crash"; serviceName m])%N.
Proof.
  intros m m'.
  assert (Hwf : wf m = true) by (vm_cast_no_check (eq_refl true)).
  destruct (X8_errors_durations_requests_in_order ExamplesTraffic.handler m []
              ExamplesTraffic.traffic "GET" "/crash" "Internal Server Error" Hwf)
    as (_ & Hnew).
  exact (Hnew _ test_metrics_New).
Defined.

(** ** The order of the requests *)

(** The effects performed before a handler runs play no part in its run. *)
Lemma run_effects {W : Type} `{ResponseWriter W} reg h : forall (w : W) fx,
  run reg h w fx
  = ((run reg h w []).1.1, fx ++ (run reg h w []).1.2, (run reg h w []).2).
Proof.
  induction h as [| | code k IH | b k IH | key value k IH | key k IH | k IH | e k IH | k IH];
    intros w fx; simpl; rewrite ?app_nil_r; try done.
  - destruct (rw_Write b w) as [w' [n err]]. apply IH.
  - destruct rw_Flusher; apply IH.
  - rewrite (IH w (fx ++ [e])), (IH w [e]). simpl. by rewrite <- app_assoc.
Qed.

Lemma Instrument_alone {W : Type} `{ResponseWriter W} next m (w : W) r fx elapsed :
  wf m = true -> scrape_free (next r) ->
  let s := Instrument next m w r fx elapsed in
  (result_of_call s, status_captured s) = alone next (w, r, elapsed).
Proof.
  intros Hwf Hsf s. subst s. rewrite Instrument_unfold by done. unfold alone. cbn [fst snd].
  rewrite (run_scrape_free (registry (counted m r)) ∅ (next r) Hsf), run_effects.
  destruct (run ∅ (next r) (mkResponseWriter w 0) []) as [[rw' fx'] out]. cbn [fst snd].
  destruct out; [destruct (400 <=? statusCode rw')%Z |]; reflexivity.
Qed.

Lemma serve_each_alone {W : Type} `{ResponseWriter W} next m0 l
    (reqs : list (W * Request * float)) : forall m fx,
  wf m = true -> (forall r, scrape_free (next r)) ->
  map (fun e => e.1.2) (List.filter (timed_under m0 l) (serve_each next m fx reqs))
  = map (fun q => q.2) (List.filter (timed_alone next m0 l) reqs)
  /\ length (List.filter (failed_under m0 l) (serve_each next m fx reqs))
     = length (List.filter (failed_alone next m0 l) reqs).
Proof.
  induction reqs as [| [[w r] elapsed] reqs IH]; intros m fx Hwf Hsf; [done |].
  cbn [serve_each List.filter].
  set (s := Instrument next m w r fx elapsed).
  pose proof (Instrument_alone next m w r fx elapsed Hwf (Hsf r)) as Halone.
  fold s in Halone.
  pose proof (Instrument_evolves next m w r fx elapsed Hwf) as Hev. fold s in Hev.
  pose proof (wf_evolves _ _ Hev Hwf) as Hwf'.
  destruct (IH (metrics_after s) (effects_after s) Hwf' Hsf) as [IHt IHf].
  assert (Ht : timed_under m0 l (r, elapsed, s) = timed_alone next m0 l (w, r, elapsed)).
  { unfold timed_under, timed_alone, returned. cbn [fst snd]. by rewrite <- Halone. }
  assert (Hf : failed_under m0 l (r, elapsed, s) = failed_alone next m0 l (w, r, elapsed)).
  { unfold failed_under, failed_alone, returned. cbn [fst snd]. by rewrite <- Halone. }
  rewrite Ht, Hf. split.
  - destruct (timed_alone next m0 l (w, r, elapsed)); simpl; by rewrite IHt.
  - destruct (failed_alone next m0 l (w, r, elapsed)); simpl; by rewrite IHf.
Qed.

Lemma filter_Permutation {A : Type} (f : A -> bool) (l l' : list A) :
  l ≡ₚ l' -> List.filter f l ≡ₚ List.filter f l'.
Proof.
  induction 1 as [| x l l' _ IH | x y l | l1 l2 l3 _ IH1 _ IH2]; simpl.
  - done.
  - destruct (f x); by rewrite IH.
  - destruct (f x), (f y); try done. apply perm_swap.
  - by etrans.
Qed.

(** X9: for a wrapped handler without memory, the order in which requests
    are served does not matter to what is counted.  The request counter
    depends on the requests alone.  A handler, as [Handler] has it, answers a
    request by what the request is and keeps no state of its own between
    requests; when it does not read the registry either, nothing of the
    earlier requests reaches it, and serving the same requests in another
    order, each taking the time it took, leaves the same value in every entry
    of the error counter and the same duration samples, up to their order, in
    every entry of the duration histogram. *)
Theorem X9_order_of_requests_does_not_matter {W : Type} `{ResponseWriter W}
    (next : Handler) (m : Metrics) (fx fx' : list string)
    (reqs reqs' : list (W * Request * float)) (l : list string) :
  wf m = true ->
  reqs ≡ₚ reqs' ->
  let m1 := (serve_all next m fx reqs).1 in
  let m2 := (serve_all next m fx' reqs').1 in
  counterValue m1 (httpRequests m) l = counterValue m2 (httpRequests m) l
  /\ ((forall r, scrape_free (next r)) ->
      counterValue m1 (httpErrors m) l = counterValue m2 (httpErrors m) l
      /\ histogramSamples m1 (httpDuration m) l ≡ₚ histogramSamples m2 (httpDuration m) l).
Proof.
  intros Hwf Hperm m1 m2.
  destruct (serve_all_spec next reqs m fx Hwf) as (_ & Hreq & Hdur & Herr).
  destruct (serve_all_spec next reqs' m fx' Hwf) as (_ & Hreq' & Hdur' & Herr').
  fold m1 in Hreq, Hdur, Herr. fold m2 in Hreq', Hdur', Herr'.
  split.
  - rewrite Hreq, Hreq'. do 2 f_equal. apply Permutation_length, filter_Permutation.
    by apply fmap_Permutation.
  - intros Hsf.
    destruct (serve_each_alone next m l reqs m fx Hwf Hsf) as [Ht Hf].
    destruct (serve_each_alone next m l reqs' m fx' Hwf Hsf) as [Ht' Hf'].
    split.
    + rewrite Herr, Herr', Hf, Hf'. do 2 f_equal.
      by apply Permutation_length, filter_Permutation.
    + rewrite Hdur, Hdur', Ht, Ht'. apply Permutation_app_head.
      by apply fmap_Permutation, filter_Permutation.
Qed.

Lemma X9_order_of_requests_does_not_matter_witness :
  let m := Examples.test_metrics in
  let l := ["GET"; "/success"; "test-service"] in
  histogramSamples (serve_all ExamplesTraffic.handler m [] ExamplesTraffic.traffic).1
    (httpDuration m) l
  ≡ₚ histogramSamples
       (serve_all ExamplesTraffic.handler m [] (rev ExamplesTraffic.traffic)).1
       (httpDuration m) l.
Proof.
  intros m l.
  assert (Hwf : wf m = true) by (vm_cast_no_check (eq_refl true)).
  destruct (X9_order_of_requests_does_not_matter ExamplesTraffic.handler m [] []
              ExamplesTraffic.traffic (rev ExamplesTraffic.traffic) l Hwf)
    as [_ Hrest].
  - apply Permutation_rev.
  - apply Hrest. intros r. unfold ExamplesTraffic.handler.
    repeat case_bool_decide; exact I.
Defined.

(** ** A handler instrumented twice *)

(** The decorator of an instrumented call has captured the status that the
    call reports. *)
Lemma Instrument_outer_status {W : Type} `{ResponseWriter W} next m (w : W) sc r fx elapsed :
  wf m = true ->
  let s := Instrument next m (mkResponseWriter w sc) r fx elapsed in
  statusCode (writer_after s) = capture (transcript (registry (counted m r)) (next r)
                                   (mkResponseWriter (mkResponseWriter w sc) 0)) sc.
Proof.
  intros Hwf s.
  destruct (Instrument_writer next m (mkResponseWriter w sc) r fx elapsed Hwf) as (Hw & _).
  fold s in Hw. by rewrite Hw, replay_statusCode.
Qed.

(** X10: a handler that is instrumented twice is counted twice.  One
    request to Instrument(Instrument(next)), with a method and a path that
    the library accepts as label values, adds two to the request counter;
    when the wrapped handler returns it leaves two samples in the duration
    histogram, the time of the inner call before that of the outer one, and
    with a captured status of 400 or more, which is the same for both calls,
    it adds two to the error counter. *)
Theorem X10_instrumented_twice_is_counted_twice {W : Type} `{ResponseWriter W}
    (next : Handler) (m : Metrics) (w : W) (r : Request) (fx : list string)
    (inner outer : float) :
  wf m = true ->
  accepted m r = true ->
  let s := Instrument_twice next m w r fx inner outer in
  let l := request_labels m r in
  counterValue (metrics_after s) (httpRequests m) l
  = (counterValue m (httpRequests m) l + 2)%N
  /\ (result_of_call s = Returned ->
      histogramSamples (metrics_after s) (httpDuration m) l
      = histogramSamples m (httpDuration m) l ++ [inner; outer]
      /\ counterValue (metrics_after s) (httpErrors m) (error_labels m r (status_captured s))
         = (counterValue m (httpErrors m) (error_labels m r (status_captured s))
            + if (400 <=? status_captured s)%Z then 2 else 0)%N).
Proof.
  intros Hwf _ s l. subst s. unfold Instrument_twice.
  pose proof (wf_inv _ Hwf) as ((e1 & e2 & e3 & _) & Hreq & _).
  rewrite (counterInc_bump _ _ _ _ Hreq) by reflexivity. fold (request_labels m r).
  fold (counted m r). set (m1 := counted m r).
  assert (Hev1 : evolves m m1) by apply bumpCounter_evolves.
  pose proof (wf_evolves _ _ Hev1 Hwf) as Hwf1.
  pose proof Hev1 as (f1 & f2 & f3 & _ & _ & _ & f7 & _).
  set (si := Instrument next m1 (mkResponseWriter w 0) r fx inner).
  destruct (Instrument_at next m1 (mkResponseWriter w 0) r fx inner Hwf1)
    as (Hreqi & Hduri & Herri).
  fold si in Hreqi, Hduri, Herri.
  rewrite f1 in Hreqi. rewrite f2 in Hduri. rewrite f3 in Herri.
  pose proof (Instrument_outer_status next m1 w 0 r fx inner Hwf1) as Hsame.
  destruct (Instrument_writer next m1 (mkResponseWriter w 0) r fx inner Hwf1)
    as (_ & Hsti & _).
  fold si in Hsame, Hsti. rewrite <- Hsti in Hsame.
  pose proof (Instrument_evolves next m1 (mkResponseWriter w 0) r fx inner Hwf1) as Hev2.
  fold si in Hev2. set (m2 := metrics_after si) in *.
  pose proof (wf_evolves _ _ Hev2 Hwf1) as Hwf2.
  pose proof Hev2 as (g1 & g2 & g3 & _ & _ & _ & g7 & _).
  assert (Hl1 : request_labels m1 r = l) by (unfold request_labels, l; by rewrite f7).
  assert (Hreq2 : counterValue m2 (httpRequests m) l
                  = (counterValue m (httpRequests m) l + 2)%N).
  { pose proof (counted_requests_at m r l Hwf) as Hc. fold m1 in Hc.
    rewrite (Hreqi l), Hc. unfold counts_under. rewrite Hl1. fold l.
    rewrite !bool_decide_eq_true_2 by done. lia. }
  destruct (result_of_call si) eqn:Hout; cbn [metrics_after result_of_call status_captured];
    [| split; [exact Hreq2 | discriminate]].
  pose proof (wf_inv _ Hwf2) as (_ & _ & Hdur2 & _).
  rewrite (histogramObserve_add _ _ _ _ _ Hdur2) by reflexivity.
  rewrite g2, g7, f2, f7. fold (request_labels m r). fold l.
  set (m3 := addSample (httpDuration m) l outer m2).
  assert (Hev3 : evolves m2 m3) by apply addSample_evolves.
  pose proof (wf_evolves _ _ Hev3 Hwf2) as Hwf3.
  pose proof Hev3 as (h1 & h2 & h3 & _ & _ & _ & h7 & _).
  assert (Hreq3 : counterValue m3 (httpRequests m) l
                  = (counterValue m (httpRequests m) l + 2)%N).
  { unfold m3. by rewrite addSample_counterValue. }
  assert (Hdur3 : histogramSamples m3 (httpDuration m) l
                  = histogramSamples m (httpDuration m) l ++ [inner; outer]).
  { unfold m3. rewrite g2, f2 in Hdur2.
    rewrite (addSample_samples _ _ _ _ _ Hdur2) by reflexivity.
    rewrite (Hduri l). unfold timed_under, returned. cbn [fst snd]. rewrite Hout.
    unfold counts_under. rewrite Hl1, bool_decide_eq_true_2 by done. cbn [andb].
    unfold m1, counted. rewrite bumpCounter_samples. by rewrite <- app_assoc. }
  assert (Herr3 : forall l4, counterValue m3 (httpErrors m) l4
                             = (counterValue m (httpErrors m) l4
                                + if failed_under m1 l4 (r, inner, si) then 1 else 0)%N).
  { intros l4. unfold m3. rewrite addSample_counterValue, (Herri l4).
    unfold m1. by rewrite counted_errors. }
  rewrite Hsame.
  assert (Hfail : failed_under m1 (error_labels m r (status_captured si)) (r, inner, si)
                  = (400 <=? status_captured si)%Z).
  { unfold failed_under, returned. cbn [fst snd]. rewrite Hout. cbn [andb].
    unfold error_labels. rewrite f7, bool_decide_eq_true_2 by done. apply andb_true_r. }
  destruct (400 <=? status_captured si)%Z eqn:Hsc.
  - pose proof (wf_inv _ Hwf3) as (_ & _ & _ & Herrh & _).
    rewrite (counterInc_bump _ _ _ _ Herrh) by reflexivity.
    rewrite h3, h7, g3, g7, f3, f7. fold (error_labels m r (status_captured si)).
    cbn [metrics_after result_of_call status_captured].
    rewrite h3, g3, f3 in Herrh.
    split; [| intros _; split].
    + rewrite bumpCounter_other; [exact Hreq3 |]. rewrite e1, e3. by intros [= ? ?].
    + by rewrite bumpCounter_samples.
    + rewrite (bumpCounter_value _ _ _ _ Herrh) by reflexivity.
      rewrite Herr3, Hfail, Hsc. lia.
  - cbn [metrics_after result_of_call status_captured].
    split; [exact Hreq3 |]. intros _. split; [exact Hdur3 |].
    rewrite Herr3, Hfail, Hsc. lia.
Qed.

Lemma X10_instrumented_twice_is_counted_twice_witness :
  let m := Examples.test_metrics in
  let r := mkRequest "GET" "/error" in
  let s := Instrument_twice ExamplesTraffic.handler m NewRecorder r [] 0.02%float 0.03%float in
  counterValue (metrics_after s) (httpRequests m) (request_labels m r) = 2%N
  /\ histogramSamples (metrics_after s) (httpDuration m) (request_labels m r)
     = [0.02; 0.03]%float
  /\ counterValue (metrics_after s) (httpErrors m) (error_labels m r 500) = 2%N.
Proof.
  intros m r s.
  assert (Hwf : wf m = true) by (vm_cast_no_check (eq_refl true)).
  assert (Hret : result_of_call s = Returned) by (vm_cast_no_check (eq_refl Returned)).
  assert (Hst : status_captured s = 500%Z) by (vm_cast_no_check (eq_refl 500%Z)).
  assert (Hacc : accepted m r = true) by (vm_cast_no_check (eq_refl true)).
  destruct (X10_instrumented_twice_is_counted_twice ExamplesTraffic.handler m NewRecorder r []
              0.02%float 0.03%float Hwf Hacc) as [Hreq Hrest].
  fold s in Hreq, Hrest. destruct (Hrest Hret) as [Hdur Herr]. rewrite Hst in Herr.
  split; [| split].
  - etrans; [exact Hreq |]. vm_cast_no_check (eq_refl 2%N).
  - etrans; [exact Hdur |]. vm_cast_no_check (eq_refl [0.02; 0.03]%float).
  - etrans; [exact Herr |]. vm_cast_no_check (eq_refl 2%N).
Defined.

(** ** Events in sequence *)

Lemma RecordEvent_at event m :
  wf m = true ->
  exists m',
    RecordEvent event m = Ok m'
    /\ evolves m m'
    /\ (forall e, counterValue m' (applicationEvent m) [e; serviceName m]
                  = (counterValue m (applicationEvent m) [e; serviceName m]
                     + if bool_decide (event = e) then 1 else 0)%N)
    /\ (forall q, q <> applicationEvent m -> registry m' !! q = registry m !! q).
Proof.
  intros Hwf. pose proof (wf_inv _ Hwf) as (_ & _ & _ & _ & Hev & _).
  exists (bumpCounter (applicationEvent m) [event; serviceName m] m).
  split; [unfold RecordEvent; by rewrite (counterInc_bump _ _ _ _ Hev) |].
  split; [apply bumpCounter_evolves |]. split.
  - intros e. case_bool_decide as He.
    + subst e. rewrite (bumpCounter_value _ _ _ _ Hev) by reflexivity. lia.
    + rewrite bumpCounter_other; [lia |]. intros [= ?]. congruence.
  - intros q Hq. by apply bumpCounter_lookup.
Qed.

(** X11: on a receiver that New built, RecordEvent does not panic for an
    event that is valid UTF-8 when the service name is, and events add up:
    after a sequence of such events, the counter of each event has grown by
    the number of times the event occurs in the sequence, and nothing but
    the event counter has changed. *)
Theorem X11_events_add_up (events : list string) (m : Metrics) :
  wf m = true ->
  utf8.ValidString (serviceName m) = true ->
  forallb utf8.ValidString events = true ->
  exists m',
    RecordEvents events m = Ok m'
    /\ (forall e, counterValue m' (applicationEvent m) [e; serviceName m]
                  = (counterValue m (applicationEvent m) [e; serviceName m]
                     + N.of_nat (count_occ string_dec events e))%N)
    /\ (forall q, q <> applicationEvent m -> registry m' !! q = registry m !! q).
Proof.
  intros Hwf _ _.
  revert m Hwf. induction events as [| event events IH]; intros m Hwf.
  - exists m. split; [reflexivity |]. split; [intros e; simpl; lia | done].
  - destruct (RecordEvent_at event m Hwf) as (m1 & Hrec & Hev & Hcount & Hframe).
    pose proof (wf_evolves _ _ Hev Hwf) as Hwf1.
    pose proof Hev as (_ & _ & _ & e4 & _ & _ & e7 & _).
    destruct (IH m1 Hwf1) as (m' & Hrest & Hcount' & Hframe').
    rewrite e4, e7 in Hcount'. rewrite e4 in Hframe'.
    exists m'. split; [simpl; by rewrite Hrec |]. split.
    + intros e. rewrite Hcount', Hcount. simpl.
      destruct (string_dec event e) as [-> | Hne].
      * rewrite bool_decide_eq_true_2 by done. lia.
      * rewrite bool_decide_eq_false_2 by done. lia.
    + intros q Hq. rewrite Hframe', Hframe by done. reflexivity.
Qed.

Lemma X11_events_add_up_witness :
  let m := Examples.test_metrics in
  exists m',
    RecordEvents ["cache_miss"; "rate_limited"; "cache_miss"] m = Ok m'
    /\ counterValue m' (applicationEvent m) ["cache_miss"; "test-service"] = 2%N
    /\ counterValue m' (applicationEvent m) ["authorization_failure"; "test-service"] = 0%N.
Proof.
  intros m.
  assert (Hwf : wf m = true) by (vm_cast_no_check (eq_refl true)).
  destruct (X11_events_add_up ["cache_miss"; "rate_limited"; "cache_miss"] m Hwf
              eq_refl eq_refl)
    as (m' & Hrec & Hcount & _).
  exists m'. split; [exact Hrec |]. split.
  - etrans; [apply (Hcount "cache_miss") |]. vm_cast_no_check (eq_refl 2%N).
  - etrans; [apply (Hcount "authorization_failure") |]. vm_cast_no_check (eq_refl 0%N).
Defined.

(** ** Gauges moved up and down *)

(** Sums of integers are exact in [float64] while the operands and the sum
    stay below 2^53 in magnitude. *)
Lemma float_of_Z_add a b :
  (Z.abs a < 2 ^ 53)%Z -> (Z.abs b < 2 ^ 53)%Z -> (Z.abs (a + b) < 2 ^ 53)%Z ->
  (float_of_Z a + float_of_Z b)%float = float_of_Z (a + b).
Proof.
  intros Ha Hb Hab. apply Prim2SF_inj.
  rewrite FloatAxioms.add_spec. unfold SF64add.
  rewrite !Float64.Prim2SF_float_of_Z by assumption.
  change prec with 53%Z. change emax with 1024%Z.
  destruct (Z.eq_dec a 0%Z) as [-> | Ha0].
  - destruct (Z.eq_dec b 0%Z) as [-> | Hb0]; [reflexivity |].
    destruct (Float64.BN_finite b Hb0 Hb) as (mb & eb & Heq & _).
    rewrite Z.add_0_l, Heq. reflexivity.
  - destruct (Z.eq_dec b 0%Z) as [-> | Hb0].
    + destruct (Float64.BN_finite a Ha0 Ha) as (ma & ea & Heq & _).
      rewrite Z.add_0_r, Heq. reflexivity.
    + by apply Float64.SFadd_BN.
Qed.

Lemma move_at name d m z :
  wf m = true ->
  let p := serviceGauge m in
  let lvs := [name; serviceName m] in
  default 0%float (gaugeValue m p lvs) = float_of_Z z ->
  (Z.abs z + 1 < 2 ^ 53)%Z ->
  exists m',
    move name d m = Ok m'
    /\ gaugeValue m' p lvs = Some (float_of_Z (z + net [d]))
    /\ (forall l, l <> lvs -> gaugeValue m' p l = gaugeValue m p l)
    /\ (forall q, q <> p -> registry m' !! q = registry m !! q)
    /\ evolves m m'.
Proof.
  intros Hwf p lvs Hz Hlt.
  pose proof (wf_inv _ Hwf) as (_ & _ & _ & _ & _ & Hg).
  destruct d; simpl net.
  - destruct (gaugeAdd_spec p lvs 1%float m _ Hg eq_refl) as (m' & Hadd & Hv & Hrest).
    exists m'. split; [exact Hadd |]. split; [| exact Hrest].
    rewrite Hv, Hz. f_equal.
    change 1%float with (float_of_Z 1). rewrite float_of_Z_add by lia. f_equal; lia.
  - destruct (gaugeAdd_spec p lvs (-1)%float m _ Hg eq_refl) as (m' & Hadd & Hv & Hrest).
    exists m'. split; [exact Hadd |]. split; [| exact Hrest].
    rewrite Hv, Hz. f_equal.
    change (-1)%float with (float_of_Z (-1)). rewrite float_of_Z_add by lia. f_equal; lia.
Qed.

Lemma net_cons d ds : net (d :: ds) = (net [d] + net ds)%Z.
Proof. destruct d; simpl; lia. Qed.

Lemma net_bound ds : (Z.abs (net ds) <= Z.of_nat (length ds))%Z.
Proof. induction ds as [| [|] ds IH]; simpl in *; lia. Qed.



(** ** Setting a gauge *)

Lemma gaugeUpdate_Ok_inv f p lvs m m' :
  gaugeUpdate f p lvs m = Ok m' ->
  exists v v', registry m !! p = Some (CGauge v) /\ f v lvs = Ok v'
               /\ m' = set_registry (<[p := CGauge v']> (registry m)) m.
Proof.
  unfold gaugeUpdate, derefGauge, mbind, result_bind.
  destruct (registry m !! p) as [[| | v |] |]; try done.
  destruct (f v lvs) as [v' |] eqn:Hf; [| done]. intros [= <-]. by exists v, v'.
Qed.

Lemma GaugeVec_Set_Ok_inv v lvs x v' :
  GaugeVec_Set v lvs x = Ok v' ->
  cardinalityOk (g_desc v) lvs = true
  /\ v' = mkGaugeVec (g_desc v) (<[lvs := x]> (g_children v)).
Proof. unfold GaugeVec_Set. destruct (cardinalityOk _ _); [| done]. by intros [= <-]. Qed.

Lemma GaugeVec_Add_Ok_inv v lvs x v' :
  GaugeVec_Add v lvs x = Ok v' ->
  cardinalityOk (g_desc v) lvs = true
  /\ v' = mkGaugeVec (g_desc v)
            (<[lvs := (default 0%float (g_children v !! lvs) + x)%float]> (g_children v)).
Proof. unfold GaugeVec_Add. destruct (cardinalityOk _ _); [| done]. by intros [= <-]. Qed.

(** Setting a gauge erases what an earlier update of the same gauge left. *)
Lemma SetGauge_after_update f name value m m1 :
  (forall v lvs v', f v lvs = Ok v' ->
     cardinalityOk (g_desc v) lvs = true
     /\ exists x, v' = mkGaugeVec (g_desc v) (<[lvs := x]> (g_children v))) ->
  gaugeUpdate f (serviceGauge m) [name; serviceName m] m = Ok m1 ->
  SetGauge name value m1 = SetGauge name value m.
Proof.
  intros Hf Hup. apply gaugeUpdate_Ok_inv in Hup as (v & v' & Hp & Hv' & ->).
  apply Hf in Hv' as (Hcard & x & ->).
  unfold SetGauge, gaugeUpdate, derefGauge, GaugeVec_Set, mbind, result_bind.
  cbn [registry set_registry serviceGauge serviceName].
  rewrite lookup_insert_eq, Hp. cbn [g_desc g_children]. rewrite Hcard.
  by rewrite !insert_insert_eq.
Qed.

(** X13: SetGauge overwrites.  After a SetGauge, an IncrementGauge or a
    DecrementGauge on a name, a SetGauge on the same name leads to the very
    state it leads to without the earlier call: the value given last is the
    one held.  SetGauge calls on different names can be made in either order,
    with the same state as the result. *)
Theorem X13_SetGauge_overwrites (m : Metrics) (name : string) (value : float) :
  (forall earlier m1, SetGauge name earlier m = Ok m1 ->
     SetGauge name value m1 = SetGauge name value m)
  /\ (forall m1, IncrementGauge name m = Ok m1 ->
        SetGauge name value m1 = SetGauge name value m)
  /\ (forall m1, DecrementGauge name m = Ok m1 ->
        SetGauge name value m1 = SetGauge name value m)
  /\ (forall other value', other <> name ->
        (m1 ← SetGauge name value m; SetGauge other value' m1)
        = (m1 ← SetGauge other value' m; SetGauge name value m1)).
Proof.
  split; [| split; [| split]].
  - intros earlier m1. apply SetGauge_after_update.
    intros v lvs v' Hv. apply GaugeVec_Set_Ok_inv in Hv as [? ->]. eauto.
  - intros m1. apply SetGauge_after_update.
    intros v lvs v' Hv. apply GaugeVec_Add_Ok_inv in Hv as [? ->]. eauto.
  - intros m1. apply SetGauge_after_update.
    intros v lvs v' Hv. apply GaugeVec_Add_Ok_inv in Hv as [? ->]. eauto.
  - intros other value' Hne.
    unfold SetGauge, gaugeUpdate, derefGauge, GaugeVec_Set, mbind, result_bind.
    destruct (registry m !! serviceGauge m) as [[| | v |] |] eqn:Hp; try done.
    unfold cardinalityOk. cbn [length].
    destruct (bool_decide (2 = length (variableLabels (g_desc v)))) eqn:Hcard; [| done].
    cbn [registry set_registry serviceGauge serviceName].
    rewrite !lookup_insert_eq. cbn [g_desc g_children]. unfold cardinalityOk. cbn [length].
    rewrite Hcard, !insert_insert_eq. unfold set_registry.
    cbn [httpRequests httpDuration httpErrors applicationEvent serviceGauge
         histogramBuckets serviceName].
    rewrite (insert_insert_ne (g_children v) [other; serviceName m] [name; serviceName m])
      by (by intros [= ?]).
    reflexivity.
Qed.

(** ** Outcomes of a registration *)

Lemma register_fresh c m :
  valid c = true -> registry m !! fqName (reg_desc c) = None ->
  register c m
  = (set_registry (<[fqName (reg_desc c) := reg_collector c m]> (registry m)) m,
     inl (fqName (reg_desc c))).
Proof.
  intros Hv Hfresh. destruct (register_unfold c m) as [msg ->].
  rewrite Register_fresh; rewrite ?descOf_reg_collector; done.
Qed.

Lemma register_taken c m :
  is_Some (registry m !! fqName (reg_desc c)) ->
  exists e, register c m = (m, inr e) /\ (valid c = true -> is_duplicate_name e = true).
Proof.
  intros Htaken. destruct (register_unfold c m) as [msg ->].
  destruct (valid c) eqn:Hv.
  - rewrite Register_taken; rewrite ?descOf_reg_collector; [| done | done].
    rewrite set_registry_id. by eexists.
  - destruct (Register_taken_refused (registry m) (reg_collector c m)) as [e ->].
    { by rewrite descOf_reg_collector. }
    rewrite set_registry_id. by eexists.
Qed.

Lemma register_invalid c m :
  valid c = false ->
  exists msg, register c m = (m, inr (ErrWrap msg (ErrInvalidDesc (fqName (reg_desc c))))).
Proof.
  intros Hv. destruct (register_unfold c m) as [msg ->].
  unfold Register. rewrite descOf_reg_collector.
  change (validDesc (reg_desc c)) with (valid c). rewrite Hv. simpl.
  rewrite set_registry_id. by exists msg.
Qed.

(** X15: each registration method appends the label "service" itself, so
    a caller who passes a label of that name asks for it twice: the request
    is refused with an invalid-descriptor error, whatever the registry
    holds, and so is a request with an empty name.  Nothing is changed. *)
Theorem X15_reserved_label_and_empty_name_are_refused (c : registration) (m : Metrics) :
  "service" ∈ reg_labels c \/ reg_name c = "" ->
  valid c = false
  /\ exists e, register c m = (m, inr e) /\ is_invalid_desc e = true.
Proof.
  intros Hbad.
  assert (Hv : valid c = false).
  { unfold valid, validDesc. destruct Hbad as [Hin | Hname].
    - apply andb_false_intro2. apply bool_decide_eq_false_2.
      cbn [reg_desc variableLabels]. rewrite NoDup_app.
      intros (_ & Hdisj & _). apply (Hdisj "service" Hin). by apply list_elem_of_singleton.
    - apply andb_false_intro1, andb_false_intro1.
      cbn [reg_desc fqName]. by rewrite Hname. }
  split; [exact Hv |].
  destruct (register_invalid c m Hv) as [msg ->]. by eexists.
Qed.

Lemma X15_reserved_label_and_empty_name_are_refused_witness :
  let c := Counter "jobs_total" "Jobs taken from a queue" ["queue"; "service"] in
  exists e, register c Examples.test_metrics = (Examples.test_metrics, inr e)
            /\ is_invalid_desc e = true.
Proof.
  intros c.
  refine (proj2 (X15_reserved_label_and_empty_name_are_refused c Examples.test_metrics _)).
  left. apply (bool_decide_unpack _). vm_compute. exact I.
Defined.

Lemma wf_standard_taken m name :
  wf m = true -> name ∈ standard_names -> is_Some (registry m !! qualified name).
Proof.
  intros Hwf Hin.
  pose proof (wf_inv _ Hwf) as ((e1 & e2 & e3 & e4 & e5) & H1 & H2 & H3 & H4 & H5).
  rewrite e1 in H1. rewrite e2 in H2. rewrite e3 in H3. rewrite e4 in H4. rewrite e5 in H5.
  unfold holdsCounter, holdsHistogram, holdsGauge in *.
  unfold standard_names in Hin. rewrite !elem_of_cons in Hin.
  destruct Hin as [-> | [-> | [-> | [-> | [-> | Hnil]]]]];
    [| | | | | by apply elem_of_nil in Hnil].
  - change (is_Some (registry m !! "nexen_service_http_requests_total")).
    destruct (registry m !! "nexen_service_http_requests_total") as [col |]; [by eexists | done].
  - change (is_Some (registry m !! "nexen_service_http_request_duration_seconds")).
    destruct (registry m !! "nexen_service_http_request_duration_seconds") as [col |]; [by eexists | done].
  - change (is_Some (registry m !! "nexen_service_http_errors_total")).
    destruct (registry m !! "nexen_service_http_errors_total") as [col |]; [by eexists | done].
  - change (is_Some (registry m !! "nexen_service_application_events_total")).
    destruct (registry m !! "nexen_service_application_events_total") as [col |]; [by eexists | done].
  - change (is_Some (registry m !! "nexen_service_gauge")).
    destruct (registry m !! "nexen_service_gauge") as [col |]; [by eexists | done].
Qed.

(** X16: the standard instruments cannot be replaced.  On a receiver that
    New built, a registration under the name of one of the five standard
    instruments is refused, as a duplicate when the request is valid, and
    the receiver is unchanged. *)
Theorem X16_standard_names_are_taken (c : registration) (m : Metrics) :
  wf m = true ->
  reg_name c ∈ standard_names ->
  exists e, register c m = (m, inr e) /\ (valid c = true -> is_duplicate_name e = true).
Proof.
  intros Hwf Hin. apply register_taken.
  assert (Hne : reg_name c <> "").
  { intros Heq. rewrite Heq in Hin. unfold standard_names in Hin.
    rewrite !elem_of_cons in Hin.
    destruct Hin as [? | [? | [? | [? | [? | Hnil]]]]]; try discriminate.
    by apply elem_of_nil in Hnil. }
  cbn [reg_desc fqName]. rewrite (BuildFQName_qualified _ Hne).
  by apply wf_standard_taken.
Qed.

Lemma X16_standard_names_are_taken_witness :
  exists e,
    register (Gauge "http_requests_total" "Requests in flight" []) Examples.test_metrics
    = (Examples.test_metrics, inr e)
    /\ is_duplicate_name e = true.
Proof.
  destruct (X16_standard_names_are_taken
              (Gauge "http_requests_total" "Requests in flight" []) Examples.test_metrics)
    as (e & Hreg & Hdup).
  - vm_cast_no_check (eq_refl true).
  - apply (bool_decide_unpack _). vm_compute. exact I.
  - exists e. split; [exact Hreg | apply Hdup; reflexivity].
Defined.

(** ** The per-tenant middleware of the usage guide *)

Lemma customMiddleware_taken {W : Type} `{ResponseWriter W} next m (w : W) r tenantID
    fx elapsed :
  is_Some (registry m !! "nexen_service_tenant_requests_total") ->
  customMiddleware next m w r tenantID fx elapsed = mkServed m w fx 0 Panicked.
Proof.
  intros Htaken. unfold customMiddleware.
  destruct (register_taken
              (Counter "tenant_requests_total" "Total requests by tenant" ["tenant_id"]) m
              Htaken) as (e & Hreg & _).
  cbn [register] in Hreg. by rewrite Hreg.
Qed.

Lemma customMiddleware_fresh {W : Type} `{ResponseWriter W} next m (w : W) r tenantID
    fx elapsed :
  registry m !! "nexen_service_tenant_requests_total" = None ->
  exists m2,
    customMiddleware next m w r tenantID fx elapsed = Instrument next m2 w r fx elapsed
    /\ evolves m m2
    /\ is_Some (registry m2 !! "nexen_service_tenant_requests_total")
    /\ counterValue m2 "nexen_service_tenant_requests_total" [tenantID; "my-service"] = 1%N
    /\ forall q, q <> "nexen_service_tenant_requests_total" ->
         registry m2 !! q = registry m !! q.
Proof.
  intros Hfresh. unfold customMiddleware.
  set (c := Counter "tenant_requests_total" "Total requests by tenant" ["tenant_id"]).
  pose proof (register_fresh c m eq_refl Hfresh) as Hreg.
  cbn [register c] in Hreg. rewrite Hreg.
  change (fqName (reg_desc c)) with "nexen_service_tenant_requests_total".
  set (p := "nexen_service_tenant_requests_total") in *.
  set (m1 := set_registry (<[p := reg_collector c m]> (registry m)) m).
  assert (Hev1 : evolves m m1).
  { pose proof (register_evolves c m) as Hev. cbn [register c] in Hev.
    by rewrite Hreg in Hev. }
  assert (Hholds : holdsCounter (registry m1) p (reg_desc c) = true).
  { unfold holdsCounter, m1. cbn [registry set_registry]. rewrite lookup_insert_eq.
    cbn [reg_collector c c_desc]. by apply bool_decide_eq_true_2. }
  rewrite (counterInc_bump p [tenantID; "my-service"] m1 _ Hholds) by reflexivity.
  exists (bumpCounter p [tenantID; "my-service"] m1).
  split; [reflexivity |]. split; [| split; [| split]].
  - eapply evolves_trans; [exact Hev1 | apply bumpCounter_evolves].
  - pose proof (bumpCounter_evolves p [tenantID; "my-service"] m1) as (_ & _ & _ & _ & _ & _ & _ & Hk).
    destruct (Hk p (reg_collector c m)) as (c' & -> & _); [| by eexists].
    unfold m1. cbn [registry set_registry]. apply lookup_insert_eq.
  - rewrite (bumpCounter_value _ _ _ _ Hholds) by reflexivity.
    unfold counterValue, m1. cbn [registry set_registry]. rewrite lookup_insert_eq.
    reflexivity.
  - intros q Hq. rewrite bumpCounter_lookup by done.
    unfold m1. cbn [registry set_registry]. by rewrite lookup_insert_ne.
Qed.



(** ** Bucket profiles *)

(** X18: each of the three bucket profiles of the helper package is a list
    of boundaries as a histogram needs them, positive and strictly
    increasing, and none is empty, so that the collaborator takes each as it
    is given. *)
Theorem X18_bucket_profiles_are_increasing :
  Forall (fun profile =>
            increasing profile = true
            /\ (exists least rest, profile = least :: rest /\ PrimFloat.ltb 0 least = true)
            /\ bucketsOrDefault (Some profile) = profile)
    [internal.DefaultHTTPBuckets; internal.DefaultLLMLatencyBuckets;
     internal.DefaultMemoryBuckets].
Proof.
  repeat constructor; try reflexivity; do 2 eexists; (split; [reflexivity |]); reflexivity.
Qed.

(** ** The captured status and the status sent *)

Lemma forallb_no_SetStatus cs :
  forallb (fun c => negb (is_SetStatus c)) cs = true ->
  forall c, c ∈ cs -> is_SetStatus c = false.
Proof.
  intros Hall c Hc. apply list_elem_of_In in Hc.
  rewrite forallb_forall in Hall. apply negb_true_iff. by apply Hall.
Qed.

Lemma capture_settles_once cs :
  settles_once cs = true -> capture cs 0 = first_event_status cs.
Proof.
  induction cs as [| c cs IH]; [done |].
  destruct c as [code | b | key value |]; simpl settles_once; intros Hs.
  - apply andb_true_iff in Hs as [Hfin Hno].
    assert (Hnz : code <> 0%Z).
    { unfold final_status in Hfin. apply andb_true_iff in Hfin as [Hlo _].
      apply Z.leb_le in Hlo. lia. }
    change (capture (SetStatus code :: cs) 0) with (capture cs code).
    rewrite capture_keeps_nonzero; [done | by apply forallb_no_SetStatus | done].
  - change (capture (WriteBody b :: cs) 0) with (capture cs StatusOK).
    rewrite capture_keeps_nonzero; [done | by apply forallb_no_SetStatus | done].
  - by apply IH.
  - by apply IH.
Qed.

Lemma first_event_status_none cs :
  fixes_status cs = false -> first_event_status cs = 0%Z.
Proof.
  induction cs as [| c cs IH]; [done |].
  destruct c; simpl; try done; by apply IH.
Qed.

(** Once the recorder has sent its header, no call changes its status. *)
Lemma recorder_settled cs : forall rec,
  wroteHeader rec = true ->
  Code (replay cs rec) = Code rec.
Proof.
  induction cs as [| c cs IH]; intros rec Hw; [reflexivity |].
  change (replay (c :: cs) rec) with (replay cs (apply_call rec c)).
  assert (Hstep : wroteHeader (apply_call rec c) = true /\ Code (apply_call rec c) = Code rec).
  { destruct c as [code | b | key value |]; simpl;
      unfold Recorder_Write, Recorder_Flush, Recorder_WriteHeader; rewrite ?Hw; simpl; done. }
  destruct Hstep as [Hw' Hc']. by rewrite IH.
Qed.

(** The recorder sends the status of the first call that fixes one. *)
Lemma recorder_Code cs : forall rec,
  wroteHeader rec = false -> Flush ∉ cs ->
  Code (replay cs rec) = if fixes_status cs then first_event_status cs else Code rec.
Proof.
  induction cs as [| c cs IH]; intros rec Hw Hnf; [reflexivity |].
  apply not_elem_of_cons in Hnf as [Hc Hnf].
  change (replay (c :: cs) rec) with (replay cs (apply_call rec c)).
  destruct c as [code | b | key value |]; [| | | done].
  - rewrite recorder_settled; simpl; unfold Recorder_WriteHeader; by rewrite ?Hw.
  - rewrite recorder_settled; simpl; unfold Recorder_Write, Recorder_WriteHeader;
      by rewrite ?Hw.
  - rewrite IH by done. reflexivity.
Qed.

(** X19: for a request that the library accepts and a wrapped handler
    that sets its status at most once, to a final status code (200 to 999)
    and before it writes any body, the status the middleware captures, and
    judges errors by, is the status a recording writer has sent.  When such
    a handler neither sets a status nor writes, the middleware has captured
    zero and the recorder is left with the status it started with, 200 for a
    new one. *)
Theorem X19_captured_status_is_the_status_sent
    (next : Handler) (m : Metrics) (rec : ResponseRecorder) (r : Request)
    (fx : list string) (elapsed : float) :
  wf m = true ->
  accepted m r = true ->
  wroteHeader rec = false ->
  let cs := transcript (registry (counted m r)) (next r) (mkResponseWriter rec 0) in
  let s := Instrument next m rec r fx elapsed in
  settles_once cs = true ->
  (fixes_status cs = true -> status_captured s = Code (writer_after s))
  /\ (fixes_status cs = false ->
      status_captured s = 0%Z /\ Code (writer_after s) = Code rec).
Proof.
  intros Hwf _ Hw cs s Hsettles.
  destruct (Instrument_writer next m rec r fx elapsed Hwf) as (Hwr & Hst & _).
  fold cs s in Hwr, Hst.
  rewrite Hwr, Hst, capture_settles_once by done.
  rewrite recorder_Code; [| done | apply transcript_wrapper_no_Flush].
  split; intros Hfix; rewrite Hfix; [reflexivity |].
  split; [by apply first_event_status_none | reflexivity].
Qed.

Lemma X19_captured_status_is_the_status_sent_witness :
  let m := Examples.test_metrics in
  let s := Instrument ExamplesTraffic.handler m NewRecorder (mkRequest "GET" "/error") []
             0.02%float in
  status_captured s = Code (writer_after s) /\ Code (writer_after s) = 500%Z.
Proof.
  intros m s.
  assert (Hwf : wf m = true) by (vm_cast_no_check (eq_refl true)).
  assert (Hacc : accepted m (mkRequest "GET" "/error") = true)
    by (vm_cast_no_check (eq_refl true)).
  destruct (X19_captured_status_is_the_status_sent ExamplesTraffic.handler m NewRecorder
              (mkRequest "GET" "/error") [] 0.02%float Hwf Hacc eq_refl eq_refl) as [Hsame _].
  fold s in Hsame. split; [by apply Hsame | vm_cast_no_check (eq_refl 500%Z)].
Defined.

(** ** What is registered stays registered *)

Lemma persists_refl m : persists m m.
Proof. intros q c Hq. eauto. Qed.

Lemma persists_trans m1 m2 m3 : persists m1 m2 -> persists m2 m3 -> persists m1 m3.
Proof.
  intros H12 H23 q c Hq.
  destruct (H12 q c Hq) as (c2 & Hq2 & Hs2 & Hb2).
  destruct (H23 q c2 Hq2) as (c3 & Hq3 & Hs3 & Hb3).
  exists c3. repeat split; congruence.
Qed.

Lemma persists_insert m p c c' :
  registry m !! p = Some c -> shape c' = shape c -> bounds c' = bounds c ->
  persists m (set_registry (<[p := c']> (registry m)) m).
Proof.
  intros Hp Hs Hb q c0 Hq. cbn [registry set_registry].
  destruct (decide (q = p)) as [-> |].
  - rewrite lookup_insert_eq. exists c'. repeat split; congruence.
  - rewrite lookup_insert_ne by done. eauto.
Qed.

Lemma observe_persists o p vs m m' : observe o p vs m = Ok m' -> persists m m'.
Proof.
  destruct o as [| x | x | x]; unfold observe.
  - unfold counterInc, derefCounter, CounterVec_Inc, mbind, result_bind.
    destruct (registry m !! p) as [[v | | |] |] eqn:Hp; try done.
    destruct (cardinalityOk _ _); [| done]. intros [= <-].
    eapply persists_insert; [exact Hp | reflexivity | reflexivity].
  - unfold histogramObserve, derefHistogram, HistogramVec_Observe, mbind, result_bind.
    destruct (registry m !! p) as [[| v | |] |] eqn:Hp; try done.
    destruct (cardinalityOk _ _); [| done]. intros [= <-].
    eapply persists_insert; [exact Hp | reflexivity | reflexivity].
  - unfold gaugeUpdate, derefGauge, GaugeVec_Set, mbind, result_bind.
    destruct (registry m !! p) as [[| | v |] |] eqn:Hp; try done.
    destruct (cardinalityOk _ _); [| done]. intros [= <-].
    eapply persists_insert; [exact Hp | reflexivity | reflexivity].
  - unfold gaugeUpdate, derefGauge, GaugeVec_Add, mbind, result_bind.
    destruct (registry m !! p) as [[| | v |] |] eqn:Hp; try done.
    destruct (cardinalityOk _ _); [| done]. intros [= <-].
    eapply persists_insert; [exact Hp | reflexivity | reflexivity].
Qed.

Lemma bumpCounter_persists p lvs m : persists m (bumpCounter p lvs m).
Proof.
  unfold bumpCounter. destruct (counterInc p lvs m) as [m' |] eqn:Hinc;
    [| apply persists_refl].
  by apply (observe_persists IncCounter p lvs).
Qed.

Lemma addSample_persists p lvs x m : persists m (addSample p lvs x m).
Proof.
  unfold addSample. destruct (histogramObserve p lvs x m) as [m' |] eqn:Hobs;
    [| apply persists_refl].
  by apply (observe_persists (ObserveHistogram x) p lvs).
Qed.

Lemma register_persists c m : persists m (register c m).1.
Proof.
  destruct (register c m) as [m' [p | e]] eqn:Hreg; simpl.
  - apply register_accepted in Hreg as (_ & Hfresh & -> & ->).
    intros q c0 Hq. exists c0. cbn [registry set_registry].
    rewrite lookup_insert_ne; [done |]. intros <-. congruence.
  - apply register_refused in Hreg as ->. apply persists_refl.
Qed.

Lemma Instrument_persists {W : Type} `{ResponseWriter W} next m (w : W) r fx elapsed :
  wf m = true -> persists m (metrics_after (Instrument next m w r fx elapsed)).
Proof.
  intros Hwf. rewrite Instrument_unfold by done.
  destruct (run _ _ _ _) as [[rw' fx'] out].
  assert (Hc : persists m (counted m r)) by apply bumpCounter_persists.
  assert (Ht : persists m (timed m r elapsed)).
  { eapply persists_trans; [exact Hc | apply addSample_persists]. }
  destruct out; [| done].
  destruct (400 <=? statusCode rw')%Z; [| done].
  eapply persists_trans; [exact Ht | apply bumpCounter_persists].
Qed.

(** One operation keeps the fields of the receiver and all that is
    registered, and leads from a reachable state to a reachable state. *)
Lemma step_keeps m m' :
  reachable m -> step m m' -> evolves m m' /\ persists m m' /\ reachable m'.
Proof.
  intros Hreach Hstep. pose proof (reachable_wf _ Hreach) as Hwf.
  destruct Hstep as [W HW next m w r fx elapsed | event m m' Hop | name value m m' Hop
                     | name m m' Hop | name m m' Hop | c m | o p vs m m' Hop].
  - split; [by apply Instrument_evolves |].
    split; [by apply Instrument_persists | by apply reach_Instrument].
  - split; [by apply (observe_evolves IncCounter _ _ _ _ Hop) |].
    split; [by apply (observe_persists IncCounter _ _ _ _ Hop) |].
    by eapply reach_RecordEvent.
  - split; [by apply (observe_evolves (SetGaugeTo value) _ _ _ _ Hop) |].
    split; [by apply (observe_persists (SetGaugeTo value) _ _ _ _ Hop) |].
    by eapply reach_SetGauge.
  - split; [by apply (observe_evolves (AddToGauge 1) _ _ _ _ Hop) |].
    split; [by apply (observe_persists (AddToGauge 1) _ _ _ _ Hop) |].
    by eapply reach_IncrementGauge.
  - split; [by apply (observe_evolves (AddToGauge (-1)) _ _ _ _ Hop) |].
    split; [by apply (observe_persists (AddToGauge (-1)) _ _ _ _ Hop) |].
    by eapply reach_DecrementGauge.
  - split; [apply register_evolves |].
    split; [apply register_persists | by apply reach_register].
  - split; [by eapply observe_evolves |].
    split; [by eapply observe_persists | by eapply reach_observe].
Qed.

Lemma steps_keep m m' :
  reachable m -> rtc step m m' -> evolves m m' /\ persists m m' /\ reachable m'.
Proof.
  intros Hreach Hsteps. induction Hsteps as [m | m m1 m' Hstep Hsteps IH].
  - split; [apply evolves_refl |]. split; [apply persists_refl | done].
  - destruct (step_keeps _ _ Hreach Hstep) as (Hev & Hp & Hreach1).
    destruct (IH Hreach1) as (Hev' & Hp' & Hreach').
    split; [by eapply evolves_trans |]. split; [by eapply persists_trans | done].
Qed.

Lemma shape_descOf c c' : shape c' = shape c -> descOf c' = descOf c.
Proof. destruct c, c'; simpl; congruence. Qed.

Lemma upperBounds_bounds m q : upperBounds m q = registry m !! q ≫= bounds.
Proof. unfold upperBounds. by destruct (registry m !! q) as [[| | |] |]. Qed.

Lemma persists_readings m m' q :
  persists m m' -> is_Some (registry m !! q) ->
  labelNames m' q = labelNames m q /\ upperBounds m' q = upperBounds m q.
Proof.
  intros Hp [c Hc]. destruct (Hp q c Hc) as (c' & Hc' & Hs & Hb).
  unfold labelNames. rewrite !upperBounds_bounds, Hc, Hc'. simpl.
  by rewrite (shape_descOf _ _ Hs), Hb.
Qed.

(** X20: what is registered stays registered, as it was described.  From
    a receiver that New built, no sequence of calls of the instrumented
    handler, of the event and gauge helpers, of the registration methods and
    of observations on registered vectors removes a collector from the
    registry or changes its kind, its name, its help text, its label names
    or, for a histogram, its boundaries. *)
Theorem X20_registered_instruments_persist (m m' : Metrics) :
  reachable m -> rtc step m m' ->
  persists m m'
  /\ (forall q, is_Some (registry m !! q) ->
        labelNames m' q = labelNames m q /\ upperBounds m' q = upperBounds m q)
  /\ serviceName m' = serviceName m
  /\ histogramBuckets m' = histogramBuckets m.
Proof.
  intros Hreach Hsteps.
  destruct (steps_keep _ _ Hreach Hsteps) as (Hev & Hp & _).
  pose proof Hev as (_ & _ & _ & _ & _ & e6 & e7 & _).
  split; [exact Hp |]. split; [| done].
  intros q Hq. by apply persists_readings.
Qed.

Lemma X20_registered_instruments_persist_witness :
  let m := Examples.test_metrics in
  let m' := (register Examples.test_counter m).1 in
  upperBounds m' "nexen_service_http_request_duration_seconds"
  = upperBounds m "nexen_service_http_request_duration_seconds"
  /\ labelNames m' "nexen_service_http_errors_total"
     = labelNames m "nexen_service_http_errors_total".
Proof.
  intros m m'.
  assert (Hreach : reachable m) by (exact (reach_New _ _ test_metrics_New)).
  assert (Hsteps : rtc step m m') by (apply rtc_once, step_register).
  destruct (X20_registered_instruments_persist m m' Hreach Hsteps) as (_ & Hread & _).
  split.
  - refine (proj2 (Hread "nexen_service_http_request_duration_seconds" _)).
    apply (wf_standard_taken m "http_request_duration_seconds").
    + vm_cast_no_check (eq_refl true).
    + apply (bool_decide_unpack _). vm_compute. exact I.
  - refine (proj1 (Hread "nexen_service_http_errors_total" _)).
    apply (wf_standard_taken m "http_errors_total").
    + vm_cast_no_check (eq_refl true).
    + apply (bool_decide_unpack _). vm_compute. exact I.
Defined.

(** ** Counters and histograms only grow *)

Lemma grows_refl m : grows m m.
Proof. intros p l. split; [lia | done]. Qed.

Lemma grows_trans m1 m2 m3 : grows m1 m2 -> grows m2 m3 -> grows m1 m3.
Proof.
  intros H12 H23 p l. destruct (H12 p l) as [Hc Hs]. destruct (H23 p l) as [Hc' Hs'].
  split; [lia | by etrans].
Qed.

Lemma observe_grows o p vs m m' : observe o p vs m = Ok m' -> grows m m'.
Proof.
  destruct o as [| x | x | x]; unfold observe.
  - unfold counterInc, derefCounter, CounterVec_Inc, mbind, result_bind.
    destruct (registry m !! p) as [[v | | |] |] eqn:Hp; try done.
    destruct (cardinalityOk _ _); [| done]. intros [= <-].
    intros q l. unfold counterValue, histogramSamples. cbn [registry set_registry].
    destruct (decide (q = p)) as [-> |]; [| by rewrite lookup_insert_ne].
    rewrite lookup_insert_eq, Hp. cbn [c_children]. split; [| done].
    destruct (decide (l = vs)) as [-> |].
    + rewrite lookup_insert_eq. simpl. lia.
    + by rewrite lookup_insert_ne.
  - unfold histogramObserve, derefHistogram, HistogramVec_Observe, mbind, result_bind.
    destruct (registry m !! p) as [[| v | |] |] eqn:Hp; try done.
    destruct (cardinalityOk _ _); [| done]. intros [= <-].
    intros q l. unfold counterValue, histogramSamples. cbn [registry set_registry].
    destruct (decide (q = p)) as [-> |]; [| by rewrite lookup_insert_ne].
    rewrite lookup_insert_eq, Hp. cbn [h_children]. split; [done |].
    destruct (decide (l = vs)) as [-> |].
    + rewrite lookup_insert_eq. simpl. by apply prefix_app_r.
    + by rewrite lookup_insert_ne.
  - unfold gaugeUpdate, derefGauge, GaugeVec_Set, mbind, result_bind.
    destruct (registry m !! p) as [[| | v |] |] eqn:Hp; try done.
    destruct (cardinalityOk _ _); [| done]. intros [= <-].
    intros q l. unfold counterValue, histogramSamples. cbn [registry set_registry].
    destruct (decide (q = p)) as [-> |]; [| by rewrite lookup_insert_ne].
    by rewrite lookup_insert_eq, Hp.
  - unfold gaugeUpdate, derefGauge, GaugeVec_Add, mbind, result_bind.
    destruct (registry m !! p) as [[| | v |] |] eqn:Hp; try done.
    destruct (cardinalityOk _ _); [| done]. intros [= <-].
    intros q l. unfold counterValue, histogramSamples. cbn [registry set_registry].
    destruct (decide (q = p)) as [-> |]; [| by rewrite lookup_insert_ne].
    by rewrite lookup_insert_eq, Hp.
Qed.

Lemma bumpCounter_grows p lvs m : grows m (bumpCounter p lvs m).
Proof.
  unfold bumpCounter. destruct (counterInc p lvs m) as [m' |] eqn:Hinc;
    [| apply grows_refl].
  by apply (observe_grows IncCounter p lvs).
Qed.

Lemma addSample_grows p lvs x m : grows m (addSample p lvs x m).
Proof.
  unfold addSample. destruct (histogramObserve p lvs x m) as [m' |] eqn:Hobs;
    [| apply grows_refl].
  by apply (observe_grows (ObserveHistogram x) p lvs).
Qed.

Lemma register_grows c m : grows m (register c m).1.
Proof.
  destruct (register c m) as [m' [p | e]] eqn:Hreg; simpl.
  - apply register_accepted in Hreg as (_ & Hfresh & -> & ->).
    intros q l. unfold counterValue, histogramSamples. cbn [registry set_registry].
    destruct (decide (q = qualified (reg_name c))) as [-> |];
      [| by rewrite lookup_insert_ne].
    rewrite lookup_insert_eq, Hfresh. split; [lia | apply prefix_nil].
  - apply register_refused in Hreg as ->. apply grows_refl.
Qed.

Lemma Instrument_grows {W : Type} `{ResponseWriter W} next m (w : W) r fx elapsed :
  wf m = true -> grows m (metrics_after (Instrument next m w r fx elapsed)).
Proof.
  intros Hwf. rewrite Instrument_unfold by done.
  destruct (run _ _ _ _) as [[rw' fx'] out].
  assert (Hc : grows m (counted m r)) by apply bumpCounter_grows.
  assert (Ht : grows m (timed m r elapsed)).
  { eapply grows_trans; [exact Hc | apply addSample_grows]. }
  destruct out; [| done].
  destruct (400 <=? statusCode rw')%Z; [| done].
  eapply grows_trans; [exact Ht | apply bumpCounter_grows].
Qed.

Lemma step_grows m m' : reachable m -> step m m' -> grows m m'.
Proof.
  intros Hreach Hstep. pose proof (reachable_wf _ Hreach) as Hwf.
  destruct Hstep as [W HW next m w r fx elapsed | event m m' Hop | name value m m' Hop
                     | name m m' Hop | name m m' Hop | c m | o p vs m m' Hop].
  - by apply Instrument_grows.
  - by apply (observe_grows IncCounter _ _ _ _ Hop).
  - by apply (observe_grows (SetGaugeTo value) _ _ _ _ Hop).
  - by apply (observe_grows (AddToGauge 1) _ _ _ _ Hop).
  - by apply (observe_grows (AddToGauge (-1)) _ _ _ _ Hop).
  - apply register_grows.
  - by eapply observe_grows.
Qed.

(** X21: counters and histograms only grow.  From a receiver that New
    built, no sequence of calls of the instrumented handler, of the event and
    gauge helpers, of the registration methods and of observations on
    registered vectors makes a counter read less than before, for any vector
    and label combination, or takes a sample out of a histogram: each
    histogram holds what it held, followed by what was observed since. *)
Theorem X21_counters_and_histograms_only_grow (m m' : Metrics) :
  reachable m -> rtc step m m' ->
  forall p l,
    (counterValue m p l <= counterValue m' p l)%N
    /\ histogramSamples m p l `prefix_of` histogramSamples m' p l.
Proof.
  intros Hreach Hsteps. change (grows m m').
  induction Hsteps as [m | m m1 m' Hstep Hsteps IH]; [apply grows_refl |].
  destruct (step_keeps _ _ Hreach Hstep) as (_ & _ & Hreach1).
  eapply grows_trans; [by apply step_grows | by apply IH].
Qed.

Lemma X21_counters_and_histograms_only_grow_witness :
  let m := Examples.test_metrics in
  let m' := metrics_after
              (Instrument ExamplesTraffic.handler m NewRecorder (mkRequest "GET" "/error") []
                 0.02%float) in
  (counterValue m (httpErrors m) ["GET"; "/error"; "Internal Server Error"; "test-service"]
   <= counterValue m' (httpErrors m)
        ["GET"; "/error"; "Internal Server Error"; "test-service"])%N.
Proof.
  intros m m'.
  assert (Hreach : reachable m) by (exact (reach_New _ _ test_metrics_New)).
  assert (Hsteps : rtc step m m') by (apply rtc_once, step_Instrument).
  exact (proj1 (X21_counters_and_histograms_only_grow m m' Hreach Hsteps (httpErrors m)
                  ["GET"; "/error"; "Internal Server Error"; "test-service"])).
Defined.

(** ** Boundaries of the duration histogram *)

Lemma New_duration_bounds opts m :
  New opts = Ok m ->
  upperBounds m (httpDuration m) = Some (bucketsOrDefault (histogramBuckets m)).
Proof.
  intros Hnew. destruct (New_inv _ _ Hnew) as (base & _ & ->).
  destruct (standard_registry_lookup
              (histogramBuckets
                 (fold_left (fun m opt => opt m) opts
                    (mkMetrics NewRegistry "" "" "" "" ""
                       (Some internal.DefaultHTTPBuckets) "default"))) base)
    as (_ & H2 & _).
  unfold upperBounds. cbn [registry httpDuration histogramBuckets]. by rewrite H2.
Qed.

Lemma duration_bounds_kept m m' :
  evolves m m' -> persists m m' ->
  upperBounds m (httpDuration m) = Some (bucketsOrDefault (histogramBuckets m)) ->
  upperBounds m' (httpDuration m') = Some (bucketsOrDefault (histogramBuckets m')).
Proof.
  intros Hev Hp Hb. pose proof Hev as (_ & e2 & _ & _ & _ & e6 & _ & _).
  rewrite e2, e6, <- Hb.
  apply persists_readings; [done |].
  rewrite upperBounds_bounds in Hb. by destruct (registry m !! httpDuration m); [eexists |].
Qed.

Lemma reachable_duration_bounds m :
  reachable m ->
  upperBounds m (httpDuration m) = Some (bucketsOrDefault (histogramBuckets m)).
Proof.
  induction 1 as [opts m Hnew | W HW next m w r fx elapsed Hr IH
                  | event m m' Hr IH Hop | name value m m' Hr IH Hop
                  | name m m' Hr IH Hop | name m m' Hr IH Hop
                  | c m Hr IH | o p vs m m' Hr IH Hop].
  - by eapply New_duration_bounds.
  - destruct (step_keeps m _ Hr (step_Instrument W HW next m w r fx elapsed))
      as (Hev & Hp & _). by eapply duration_bounds_kept.
  - destruct (step_keeps m m' Hr (step_RecordEvent _ _ _ Hop)) as (Hev & Hp & _).
    by eapply duration_bounds_kept.
  - destruct (step_keeps m m' Hr (step_SetGauge _ _ _ _ Hop)) as (Hev & Hp & _).
    by eapply duration_bounds_kept.
  - destruct (step_keeps m m' Hr (step_IncrementGauge _ _ _ Hop)) as (Hev & Hp & _).
    by eapply duration_bounds_kept.
  - destruct (step_keeps m m' Hr (step_DecrementGauge _ _ _ Hop)) as (Hev & Hp & _).
    by eapply duration_bounds_kept.
  - destruct (step_keeps m _ Hr (step_register c m)) as (Hev & Hp & _).
    by eapply duration_bounds_kept.
  - destruct (step_keeps m m' Hr (step_observe _ _ _ _ _ Hop)) as (Hev & Hp & _).
    by eapply duration_bounds_kept.
Qed.

(** The collaborator's default boundaries are used as they are. *)
Lemma DefBuckets_usable : usable_boundaries DefBuckets = true.
Proof. vm_compute. reflexivity. Qed.

Lemma bucketsOrDefault_usable b :
  usable_boundaries (default [] b) = true -> usable_boundaries (bucketsOrDefault b) = true.
Proof. destruct b as [[| x bs] |]; simpl; intros Hu; done || apply DefBuckets_usable. Qed.

(** X22: when the bucket list that was configured when New ran is strictly
    increasing and ends below +Inf (a nil or empty list is), the duration
    histogram of the middleware has that list as its boundaries, and the
    collaborator's defaults when the list is nil or empty: boundaries that
    are strictly increasing and end below +Inf in either case.  Nothing done
    with the receiver afterwards changes them, and a custom histogram
    registered with nil buckets gets the same boundaries.  A custom histogram
    registered with a list of its own that is not empty, strictly increasing
    and ends below +Inf gets that list, whatever is configured. *)
Theorem X22_duration_histogram_boundaries (m : Metrics) :
  reachable m ->
  (usable_boundaries (default [] (histogramBuckets m)) = true ->
   let bs := bucketsOrDefault (histogramBuckets m) in
   usable_boundaries bs = true
   /\ upperBounds m (httpDuration m) = Some bs
   /\ forall name help labels m' p,
        RegisterHistogram name help None labels m = (m', inl p) ->
        upperBounds m' p = Some bs /\ upperBounds m' (httpDuration m') = Some bs)
  /\ (forall name help bs labels m' p,
        RegisterHistogram name help (Some bs) labels m = (m', inl p) ->
        bs <> [] -> usable_boundaries bs = true ->
        upperBounds m' p = Some bs).
Proof.
  intros Hreach. split.
  - intros Hu bs. split; [by apply bucketsOrDefault_usable |].
    split; [by apply reachable_duration_bounds |].
    intros name help labels m' p Hreg.
    pose proof (reach_register (Histogram name help None labels) m Hreach) as Hreach'.
    cbn [register] in Hreach'. rewrite Hreg in Hreach'. simpl in Hreach'.
    pose proof (register_evolves (Histogram name help None labels) m) as Hev.
    cbn [register] in Hev. rewrite Hreg in Hev. simpl in Hev.
    destruct Hev as (_ & _ & _ & _ & _ & e6 & _).
    split.
    + by rewrite (RegisterHistogram_accepted _ _ _ _ _ _ _ Hreg).
    + rewrite (reachable_duration_bounds _ Hreach'). by rewrite e6.
  - intros name help bs labels m' p Hreg Hne _.
    rewrite (RegisterHistogram_accepted _ _ _ _ _ _ _ Hreg). by destruct bs.
Qed.

Lemma X22_duration_histogram_boundaries_witness :
  let m := ExamplesLLM.llm_metrics in
  usable_boundaries internal.DefaultLLMLatencyBuckets = true
  /\ upperBounds m (httpDuration m) = Some internal.DefaultLLMLatencyBuckets.
Proof.
  intros m.
  assert (Hu : usable_boundaries internal.DefaultLLMLatencyBuckets = true)
    by (vm_cast_no_check (eq_refl true)).
  split; [exact Hu |].
  destruct (X22_duration_histogram_boundaries m (reach_New _ _ llm_metrics_New))
    as (Hb & _).
  destruct Hb as (_ & Hb & _); [vm_cast_no_check (eq_refl true) |].
  rewrite Hb. vm_cast_no_check (eq_refl (Some internal.DefaultLLMLatencyBuckets)).
Defined.
